(** * Content Canvas: generation / edit orchestration core

    A shallow embedding of the TypeScript sources of the asset generator
    (store slices, Gemini and stock-photo API layers, the composition-mode
    and direct-generation components with their form actions and handlers,
    the editors, the cropper, the stock-image search, [App] and the
    [useLocalStorage] hook) together with the properties the specification
    states about them and further properties of the code.

    Conventions
    - a JavaScript string is the list of its UTF-16 code units;
    - a JavaScript [number] that the code only uses as an integer
      (identifiers from [Date.now()], pixel sizes, channel values) is a [Z];
    - a settled promise is an [outcome]: fulfilled with a value or rejected
      with a reason;
    - asynchronous functions live in the [Async] monad, which threads the
      log of calls dispatched to external collaborators and answers every
      call from an explicit [World]. *)

From Stdlib Require Import ZArith NArith Ascii String.
From stdpp Require Import base list numbers gmap.

Local Open Scope Z_scope.

(** ** JavaScript values used by the sources *)

Module JS.

(** UTF-16 code units. *)
Definition code_unit := N.
Definition jsstring := list code_unit.

(** A literal of the source (ASCII only) as a JavaScript string. *)
Definition js (s : string) : jsstring :=
  map N_of_ascii (list_ascii_of_string s).

(** Truthiness of a string: only the empty string is falsy. *)
Definition truthy_str (s : jsstring) : bool :=
  match s with [] => false | _ :: _ => true end.

(** Truthiness of [string | null]. *)
Definition truthy (v : option jsstring) : bool :=
  match v with None => false | Some s => truthy_str s end.

(** [Array.prototype.slice]: a relative index is counted from the end
    when negative and clamped to the array. *)
Definition rel_index (len k : Z) : Z :=
  if k <? 0 then Z.max (len + k) 0 else Z.min k len.

Definition slice {A} (start final : Z) (l : list A) : list A :=
  let len := Z.of_nat (length l) in
  let k := rel_index len start in
  let fin := rel_index len final in
  take (Z.to_nat (fin - k)) (drop (Z.to_nat k) l).

(** [String.prototype.slice] is the same operation on code units. *)
Definition str_slice (start final : Z) (s : jsstring) : jsstring :=
  slice start final s.

End JS.

Import JS.

(** ** types.ts *)

Inductive AspectRatio := AR_1_1 | AR_16_9 | AR_4_3 | AR_3_4 | AR_9_16.

Inductive AppMode := ModeComposition | ModeDirect.

Inductive HistoryType := HTemplate | HFinal | HDirect.

Record HistoryItem := mkHistoryItem {
  id : Z;
  type : HistoryType;
  image : jsstring;
  prompt : jsstring;
  negativePrompt : jsstring;
  timestamp : Z;
  aspectRatio : AspectRatio
}.

(** ** store/slices: the Zustand store *)

Module Store.

(** The fields of [StoreState] that the history, composition and direct
    slices own. *)
Record StoreState := mkStore {
  history : list HistoryItem;
  recentTemplatePrompts : list jsstring;
  recentSubjectPrompts : list jsstring;
  recentDirectPrompts : list jsstring;
  templatePrompt : jsstring;
  subjectPrompt : jsstring;
  directPrompt : jsstring
}.

Definition set_history (h : list HistoryItem) (s : StoreState) :=
  mkStore h (recentTemplatePrompts s) (recentSubjectPrompts s)
    (recentDirectPrompts s) (templatePrompt s) (subjectPrompt s)
    (directPrompt s).

Definition set_recentTemplatePrompts (l : list jsstring) (s : StoreState) :=
  mkStore (history s) l (recentSubjectPrompts s)
    (recentDirectPrompts s) (templatePrompt s) (subjectPrompt s)
    (directPrompt s).

Definition set_recentSubjectPrompts (l : list jsstring) (s : StoreState) :=
  mkStore (history s) (recentTemplatePrompts s) l
    (recentDirectPrompts s) (templatePrompt s) (subjectPrompt s)
    (directPrompt s).

Definition set_recentDirectPrompts (l : list jsstring) (s : StoreState) :=
  mkStore (history s) (recentTemplatePrompts s) (recentSubjectPrompts s)
    l (templatePrompt s) (subjectPrompt s) (directPrompt s).

(** historySlice.ts: [addToHistory] takes one item or an array. *)
Definition addToHistory (newItem : HistoryItem + list HistoryItem)
    (state : StoreState) : StoreState :=
  let itemsToAdd :=
    match newItem with inl item => [item] | inr items => items end in
  set_history (slice 0 50 (itemsToAdd ++ history state)) state.

Definition deleteHistoryItem (i : Z) (state : StoreState) : StoreState :=
  set_history (filter (fun item => id item <> i) (history state)) state.

Definition clearHistory (state : StoreState) : StoreState :=
  set_history [] state.

(** compositionSlice.ts and directSlice.ts *)
Definition addRecentTemplatePrompt (p : jsstring) (state : StoreState) :=
  set_recentTemplatePrompts
    (slice 0 10 (p :: filter (fun q => q <> p) (recentTemplatePrompts state)))
    state.

Definition addRecentSubjectPrompt (p : jsstring) (state : StoreState) :=
  set_recentSubjectPrompts
    (slice 0 10 (p :: filter (fun q => q <> p) (recentSubjectPrompts state)))
    state.

Definition addRecentDirectPrompt (p : jsstring) (state : StoreState) :=
  set_recentDirectPrompts
    (slice 0 10 (p :: filter (fun q => q <> p) (recentDirectPrompts state)))
    state.

End Store.

(** ** String operations of the JavaScript standard library *)

Module JSString.

(** White space and line terminators removed by [String.prototype.trim]. *)
Definition is_white_space (c : code_unit) : bool :=
  (bool_decide (c ∈ [9; 10; 11; 12; 13; 32; 160; 5760; 8232; 8233; 8239;
                     8287; 12288; 65279]%N)
   || ((8192 <=? c) && (c <=? 8202)))%N.

Fixpoint trimStart (s : jsstring) : jsstring :=
  match s with
  | c :: t => if is_white_space c then trimStart t else s
  | [] => []
  end.

Definition trimEnd (s : jsstring) : jsstring := rev (trimStart (rev s)).

Definition trim (s : jsstring) : jsstring := trimEnd (trimStart s).

Definition quote : code_unit := 34%N.
Definition comma : code_unit := 44%N.

(** [s.replace(/^"|"$/g, '')]: the only possible matches are a quote at
    index 0 and a quote at the last index. *)
Definition strip_quotes (s : jsstring) : jsstring :=
  let s1 := match s with
            | c :: t => if (c =? quote)%N then t else s
            | [] => []
            end in
  match rev s1 with
  | c :: t => if (c =? quote)%N then rev t else s1
  | [] => s1
  end.

(** Canonicalisation of the [i] flag restricted to what an ASCII pattern
    can match: a code unit above 127 never canonicalises to an ASCII
    one, so only the ASCII letters fold. *)
Definition ascii_upper (c : code_unit) : code_unit :=
  if ((97 <=? c) && (c <=? 122))%N then (c - 32)%N else c.

Fixpoint prefix_ci (pat s : jsstring) : bool :=
  match pat, s with
  | [], _ => true
  | p :: pat', c :: s' =>
      (ascii_upper p =? ascii_upper c)%N && prefix_ci pat' s'
  | _ :: _, [] => false
  end.

(** [s.replace(/pat/i, '')] for a literal ASCII pattern: the leftmost
    match is removed. *)
Fixpoint remove_first_ci (pat s : jsstring) : jsstring :=
  if prefix_ci pat s then drop (length pat) s
  else match s with
       | [] => []
       | c :: t => c :: remove_first_ci pat t
       end.

(** [s.split(',')] *)
Fixpoint split_aux (sep : code_unit) (cur : jsstring) (s : jsstring)
    : list jsstring :=
  match s with
  | [] => [rev cur]
  | c :: t => if (c =? sep)%N then rev cur :: split_aux sep [] t
              else split_aux sep (c :: cur) t
  end.

Definition split (sep : code_unit) (s : jsstring) : list jsstring :=
  split_aux sep [] s.

(** A template-literal hole filled with a value that may be
    [undefined]. *)
Definition interpolate (v : option jsstring) : jsstring :=
  default (js "undefined") v.

(** [s.includes(pat)] *)
Fixpoint includes (pat s : jsstring) : bool :=
  bool_decide (pat `prefix_of` s) ||
  match s with
  | [] => false
  | _ :: t => includes pat t
  end.

End JSString.

Import JSString.

(** ** Promises and asynchronous functions *)

Module Promise.

(** What a [catch] clause receives: an [Error] with its message
    ([TypeError] and [RangeError] included) or any other thrown value. *)
Inductive JsError :=
| ErrorObj (message : jsstring)
| TypeError
| RangeError
| ThrownValue.

Inductive outcome (A : Type) :=
| Fulfilled (v : A)
| Rejected (reason : JsError).
Arguments Fulfilled {A} v.
Arguments Rejected {A} reason.

Definition is_fulfilled {A} (o : outcome A) : bool :=
  match o with Fulfilled _ => true | Rejected _ => false end.

(** A settled promise together with the instant at which it settled. *)
Definition settled (A : Type) : Type := nat * outcome A.

(** [Promise.all]: fulfilled with all the values, in array order, when
    every element is fulfilled; otherwise rejected with the reason of the
    element that rejected first. *)
Fixpoint first_rejection {A} (ps : list (settled A))
    : option (nat * JsError) :=
  match ps with
  | [] => None
  | (t, Rejected e) :: ps' =>
      match first_rejection ps' with
      | Some (t', e') => if (t' <? t)%nat then Some (t', e') else Some (t, e)
      | None => Some (t, e)
      end
  | (_, Fulfilled _) :: ps' => first_rejection ps'
  end.

Definition values {A} (ps : list (settled A)) : list A :=
  omap (fun p => match snd p with
                 | Fulfilled v => Some v
                 | Rejected _ => None
                 end) ps.

Definition all {A} (ps : list (settled A)) : outcome (list A) :=
  match first_rejection ps with
  | Some (_, e) => Rejected e
  | None => Fulfilled (values ps)
  end.

(** [Promise.allSettled] never rejects: it reports every outcome. *)
Definition allSettled {A} (ps : list (settled A)) : list (outcome A) :=
  map snd ps.

End Promise.

Import Promise.

(** ** External collaborators

    The Gemini SDK, the stock-photo services and the browser's
    [FileReader] are outside the repository.  A [World] fixes what each of
    them answers to the [n]-th call dispatched, and when that call
    settles.  The three provider clients ([searchPexelsImages],
    [searchUnsplashImages], [searchPixabayImages]) are taken at their
    interface, a promise of a result list that the world settles: whatever
    a client does with its service is the answer of some world.  Likewise
    [fileToBase64] of lib/utils.ts is the promise its [FileReader]
    settles. *)

Module External.

Inductive Part :=
| InlineData (mimeType : jsstring) (data : option jsstring)
| TextPart (text : jsstring).

Inductive Contents :=
| ContentParts (parts : list Part)
| ContentText (text : jsstring).

(** Parameters of [ai.models.generateContent]; the sampling parameters
    (temperature, topP) do not influence control flow and are left out. *)
Record GenerateContentParameters := mkGenerateContent {
  gc_model : jsstring;
  gc_contents : Contents;
  gc_systemInstruction : option jsstring;
  gc_maxOutputTokens : option Z
}.

(** [candidates] lists, for each candidate, its [content.parts] when that
    path exists; [text] is the SDK's [response.text] accessor. *)
Record GenerateContentResponse := mkContentResponse {
  candidates : list (option (list Part));
  text : option jsstring
}.

Record GenerateImagesParameters := mkGenerateImages {
  gi_model : jsstring;
  gi_prompt : jsstring;
  gi_numberOfImages : Z;
  gi_aspectRatio : AspectRatio
}.

(** [generatedImages[i].image.imageBytes] for each generated image. *)
Record GenerateImagesResponse := mkImagesResponse {
  generatedImages : list (option jsstring)
}.

Record File := mkFile { file_size : Z; file_name : jsstring }.

Inductive StockProvider := Pexels | Unsplash | Pixabay.

Inductive StockImageOrientation :=
| OrientAny | OrientLandscape | OrientPortrait | OrientSquare.

Record UnifiedStockImage := mkStockImage {
  si_id : jsstring;
  si_alt : jsstring;
  si_photographer : jsstring;
  si_url_small : jsstring;
  si_url_large : jsstring;
  si_provider : StockProvider
}.

(** The value a provider promise is fulfilled with; the aggregator tests
    it with [Array.isArray]. *)
Inductive StockValue :=
| VArray (images : list UnifiedStockImage)
| VOther.

Record SearchParams := mkSearch {
  query : jsstring;
  orientation : StockImageOrientation;
  color : jsstring
}.

Inductive Call :=
| GenerateImages (p : GenerateImagesParameters)
| GenerateContent (p : GenerateContentParameters)
| FileToBase64 (f : File)
| SearchProvider (provider : StockProvider) (p : SearchParams).

Definition is_generation_call (c : Call) : bool :=
  match c with
  | GenerateImages _ | GenerateContent _ => true
  | FileToBase64 _ | SearchProvider _ _ => false
  end.

Record World := mkWorld {
  generateImages :
    nat -> GenerateImagesParameters -> outcome GenerateImagesResponse;
  generateContent :
    nat -> GenerateContentParameters -> outcome GenerateContentResponse;
  fileToBase64 : nat -> File -> outcome jsstring;
  searchProvider : nat -> StockProvider -> SearchParams -> outcome StockValue;
  latency : nat -> nat
}.

End External.

Import External.

Module Async.

(** An asynchronous function: given the world and the calls dispatched
    so far, its settlement and the extended log. *)
Definition Async (A : Type) : Type :=
  World -> list Call -> outcome A * list Call.

Definition ret {A} (a : A) : Async A := fun _ log => (Fulfilled a, log).

Definition throw {A} (e : JsError) : Async A := fun _ log => (Rejected e, log).

Definition bind {A B} (m : Async A) (k : A -> Async B) : Async B :=
  fun w log =>
    match m w log with
    | (Fulfilled a, log') => k a w log'
    | (Rejected e, log') => (Rejected e, log')
    end.

(** [try { m } catch (e) { h e }] *)
Definition try_catch {A} (m : Async A) (h : JsError -> Async A) : Async A :=
  fun w log =>
    match m w log with
    | (Fulfilled a, log') => (Fulfilled a, log')
    | (Rejected e, log') => h e w log'
    end.

(** Running [m] and observing how it settles, as the body of a
    [try] block is observed by its [catch] clause. *)
Definition attempt {A} (m : Async A) : Async (outcome A) :=
  fun w log => let '(o, log') := m w log in (Fulfilled o, log').

(** Resuming with a settlement computed without further calls. *)
Definition settle {A} (o : outcome A) : Async A := fun _ log => (o, log).

(** [await p] for an already created promise. *)
Definition await {A} (p : settled A) : Async A := settle (snd p).

(** A continuation without effects attached to a promise. *)
Definition and_then {A B} (p : settled A) (k : A -> outcome B) : settled B :=
  (fst p, match snd p with
          | Fulfilled v => k v
          | Rejected e => Rejected e
          end).

(** Dispatching an external call creates its promise and logs the call. *)
Definition dispatch {A} (c : Call) (answer : World -> nat -> outcome A)
    : Async (settled A) :=
  fun w log =>
    let n := length log in
    (Fulfilled (latency w n, answer w n), log ++ [c]).

Definition run {A} (m : Async A) (w : World) : outcome A * list Call :=
  m w [].

End Async.

Import Async.

Notation "'do' x <- m ; k" := (bind m (fun x => k))
  (at level 10, x name, m at level 100, k at level 200).

Module SDK.

Definition call_generateContent (p : GenerateContentParameters)
    : Async (settled GenerateContentResponse) :=
  dispatch (GenerateContent p) (fun w n => generateContent w n p).

Definition call_generateImages (p : GenerateImagesParameters)
    : Async (settled GenerateImagesResponse) :=
  dispatch (GenerateImages p) (fun w n => generateImages w n p).

Definition call_fileToBase64 (f : File) : Async (settled jsstring) :=
  dispatch (FileToBase64 f) (fun w n => fileToBase64 w n f).

Definition call_searchProvider (pr : StockProvider) (p : SearchParams)
    : Async (settled StockValue) :=
  dispatch (SearchProvider pr p) (fun w n => searchProvider w n pr p).

End SDK.

Import SDK.

(** ** lib/gemini-api.ts *)

Module GeminiApi.

Definition avoid (text negativePrompt : jsstring) : jsstring :=
  text ++ js ". AVOID THE FOLLOWING: " ++ negativePrompt.

Definition data_url (payload : option jsstring) : jsstring :=
  js "data:image/png;base64," ++ interpolate payload.

Definition image_model : jsstring := js "gemini-2.5-flash-image-preview".

(** [for (const part of response.candidates[0].content.parts)]: the
    first part carrying inline data, [null] when there is none, a
    [TypeError] when the path to the parts does not exist. *)
Fixpoint first_inline (parts : list Part) : option jsstring :=
  match parts with
  | [] => None
  | InlineData _ d :: _ => Some (data_url d)
  | TextPart _ :: rest => first_inline rest
  end.

Definition image_of_response (response : GenerateContentResponse)
    : outcome (option jsstring) :=
  match candidates response with
  | Some parts :: _ => Fulfilled (first_inline parts)
  | _ => Rejected TypeError
  end.

Definition generateTemplateImage (prompt negativePrompt : jsstring)
    (aspectRatio : AspectRatio) : Async jsstring :=
  let fullPrompt :=
    if truthy_str negativePrompt then avoid prompt negativePrompt
    else prompt in
  do p <- call_generateImages
            (mkGenerateImages (js "imagen-4.0-generate-001") fullPrompt 1
               aspectRatio);
  do response <- await p;
  match generatedImages response with
  | bytes :: _ => ret (data_url bytes)
  | [] => throw TypeError
  end.

Definition generateFinalImage (subjectPrompt templateImage : jsstring)
    (styleReferenceImage : option jsstring) (negativePrompt : jsstring)
    : Async (option jsstring) :=
  let parts0 :=
    [InlineData (js "image/png") (split comma templateImage !! 1%nat)] in
  let '(parts1, finalPrompt) :=
    match styleReferenceImage with
    | Some style =>
        if truthy_str style then
          (parts0 ++ [InlineData (js "image/png") (split comma style !! 1%nat)],
           js "Using the first image as the base layout and the second image for artistic style reference, "
             ++ subjectPrompt)
        else (parts0, subjectPrompt)
    | None => (parts0, subjectPrompt)
    end in
  let finalPrompt :=
    if truthy_str negativePrompt then avoid finalPrompt negativePrompt
    else finalPrompt in
  let parts := parts1 ++ [TextPart finalPrompt] in
  do p <- call_generateContent
            (mkGenerateContent image_model (ContentParts parts) None None);
  do response <- await p;
  settle (image_of_response response).

(** [Array(n)]: a [RangeError] unless [n] is a valid array length. *)
Definition new_array (n : Z) : Async (list unit) :=
  if (n <? 0) || (2 ^ 32 - 1 <? n) then throw RangeError
  else ret (replicate (Z.to_nat n) tt).

(** [xs.map(async x => ...)]: every callback runs up to its first
    [await], which dispatches its request; the promises are collected
    without being awaited. *)
Fixpoint map_async {A B} (f : A -> Async (settled B)) (xs : list A)
    : Async (list (settled B)) :=
  match xs with
  | [] => ret []
  | x :: xs' =>
      do p <- f x;
      do ps <- map_async f xs';
      ret (p :: ps)
  end.

Definition generateVariations (baseImage negativePrompt : jsstring)
    (numberOfVariations : Z) : Async (list jsstring) :=
  let editPrompt :=
    js "Generate a slightly different variation of this image, keeping the same subject and overall style." in
  let fullPrompt :=
    if truthy_str negativePrompt then avoid editPrompt negativePrompt
    else editPrompt in
  let parts :=
    [InlineData (js "image/png") (split comma baseImage !! 1%nat);
     TextPart fullPrompt] in
  do slots <- new_array numberOfVariations;
  do promises <-
    map_async
      (fun _ =>
         do p <- call_generateContent
                   (mkGenerateContent image_model (ContentParts parts)
                      None None);
         ret (and_then p image_of_response))
      slots;
  do results <- settle (Promise.all promises);
  ret (omap (fun result => result) results).

Definition negative_system_instruction : jsstring :=
  js "You are an expert AI image generation assistant. Your task is to create a concise, effective negative prompt based on a user's main prompt. First, analyze the user's prompt to understand its intent (e.g., creating a logo, a photograph, a vector illustration, etc.). Then, generate a comma-separated list of terms to help the AI avoid common visual artifacts, poor quality, and undesirable elements for that specific intent, as well as general issues like text, watermarks, ugly or deformed features. The output must be 200 characters or less and contain only the comma-separated list.".

Definition generateNegativePrompt (mainPrompt : jsstring) : Async jsstring :=
  if negb (truthy_str (trim mainPrompt)) then ret []
  else
    let contents :=
      js "Generate a negative prompt for the following main prompt: "
        ++ [quote] ++ mainPrompt ++ [quote] in
    do p <- call_generateContent
              (mkGenerateContent (js "gemini-2.5-flash")
                 (ContentText contents)
                 (Some negative_system_instruction) (Some 60));
    do response <- await p;
    match text response with
    | None => throw TypeError
    | Some raw =>
        let cleaned :=
          trim (remove_first_ci (js "Negative Prompt: ")
                  (strip_quotes (trim raw))) in
        ret (str_slice 0 200 cleaned)
    end.

End GeminiApi.

(** ** lib/stock-api.ts *)

Module StockApi.

(** The callback of [filter]:
    [result.status === 'fulfilled' && Array.isArray(result.value)]. *)
Definition keep (result : outcome StockValue) : bool :=
  match result with
  | Fulfilled (VArray _) => true
  | _ => false
  end.

(** An element of the array [flatMap] builds.  What the callback returns
    is flattened when it is an array and kept as one element otherwise;
    the static type of the elements is [UnifiedStockImage] by a cast
    only. *)
Inductive Element :=
| Image (image : UnifiedStockImage)
| Undefined
| NotAnArray.

(** The callback of [flatMap]: [result.value], which is the array of a
    provider that answered with one, the value itself when it is not an
    array, and [undefined] on a rejected result, which has no [value]. *)
Definition value_of (result : outcome StockValue) : list Element :=
  match result with
  | Fulfilled (VArray images) => Image <$> images
  | Fulfilled VOther => [NotAnArray]
  | Rejected _ => [Undefined]
  end.

(** The three provider functions are called in this order, none is
    awaited before the next is called. *)
Definition searchAllStockSites (params : SearchParams)
    : Async (list Element) :=
  do pexels <- call_searchProvider Pexels params;
  do unsplash <- call_searchProvider Unsplash params;
  do pixabay <- call_searchProvider Pixabay params;
  let providers := [pexels; unsplash; pixabay] in
  let results := Promise.allSettled providers in
  let allImages := flat_map value_of (List.filter keep results) in
  ret allImages.

End StockApi.

(** ** lib/error-handler.ts *)

Module ErrorHandler.

(** What the JavaScript engine supplies: [String.prototype.toLowerCase]
    and the messages of the errors it throws itself. *)
Record Engine := mkEngine {
  toLowerCase : jsstring -> jsstring;
  type_error_message : jsstring;
  range_error_message : jsstring
}.

(** [error instanceof Error ? error.message : (nothing)] *)
Definition message_of (eng : Engine) (e : JsError) : option jsstring :=
  match e with
  | ErrorObj m => Some m
  | TypeError => Some (type_error_message eng)
  | RangeError => Some (range_error_message eng)
  | ThrownValue => None
  end.

Definition fallback_message : jsstring :=
  js "An unexpected error occurred. Please try again.".

Definition handleApiError (eng : Engine) (e : JsError) : jsstring :=
  match message_of eng e with
  | Some m =>
      let message := toLowerCase eng m in
      if includes (js "api key not valid") message then
        js "The Gemini API key is invalid or missing. Please check your configuration."
      else if includes (js "safety") message
              || includes (js "blocked") message then
        js "Your request was blocked due to the safety policy. Please modify your prompt and try again."
      else if includes (js "quota") message then
        js "You have exceeded your API quota. Please check your Google AI Studio account."
      else if includes (js "timeout") message then
        js "The request to the AI model timed out. Please try again in a few moments."
      else if includes (js "failed to fetch") message then
        js "A network error occurred. Please check your internet connection and try again."
      else fallback_message
  | None => fallback_message
  end.

End ErrorHandler.

Import ErrorHandler.

(** ** components/shared/VariationGenerator.tsx *)

Module VariationGenerator.

Record VariationFormState := mkVariationState {
  images : list jsstring;
  error : option jsstring
}.

(** The fields of the submitted form; [None] is the [null] that
    [formData.get] returns for a missing field. *)
Record VariationFormData := mkVariationForm {
  base_image : option jsstring;
  negative_prompt : option jsstring
}.

Definition generateVariationsAction (eng : Engine)
    (previousState : VariationFormState) (formData : VariationFormData)
    : Async VariationFormState :=
  let negativePrompt := default [] (negative_prompt formData) in
  match base_image formData with
  | Some baseImage =>
      if truthy_str baseImage then
        try_catch
          (do results <- GeminiApi.generateVariations baseImage negativePrompt 2;
           if (0 <? Z.of_nat (length results)) then
             ret (mkVariationState results None)
           else
             ret (mkVariationState []
                    (Some (js "The model did not return any variations. Please try again."))))
          (fun e => ret (mkVariationState [] (Some (handleApiError eng e))))
      else
        ret (mkVariationState (images previousState)
               (Some (js "Base image is missing.")))
  | None =>
      ret (mkVariationState (images previousState)
             (Some (js "Base image is missing.")))
  end.

End VariationGenerator.

(** ** components/composition/CompositionMode.tsx *)

Module CompositionMode.

(** [promptUsed] is a fresh object on every success; [pu_ref] is its
    identity, which is what an effect's dependency array compares. *)
Record PromptUsed := mkPromptUsed {
  pu_ref : nat;
  pu_prompt : jsstring;
  pu_timestamp : Z
}.

Record FormState := mkFormState {
  image : option jsstring;
  error : option jsstring;
  promptUsed : option PromptUsed
}.

Definition TemplateFormState := FormState.
Definition FinalImageFormState := FormState.

Definition initialFormState : FormState := mkFormState None None None.

Record TemplateFormData := mkTemplateForm {
  template_prompt : option jsstring;
  template_negative_prompt : option jsstring;
  aspect_ratio : AspectRatio
}.

Record FinalFormData := mkFinalForm {
  subject_prompt : option jsstring;
  final_negative_prompt : option jsstring;
  selected_template : option jsstring;
  style_ref : option File
}.

(** [fresh] is the identity of the object allocated for [promptUsed] and
    [now] the value of [Date.now()]. *)
Definition generateTemplateAction (fresh : nat) (now : Z)
    (previousState : TemplateFormState) (formData : TemplateFormData)
    : Async TemplateFormState :=
  let negativePrompt := default [] (template_negative_prompt formData) in
  if negb (truthy (template_prompt formData)) then
    ret (mkFormState (image previousState)
           (Some (js "Template prompt is required."))
           (promptUsed previousState))
  else
    let prompt := default [] (template_prompt formData) in
    try_catch
      (do result <- GeminiApi.generateTemplateImage prompt negativePrompt
                      (aspect_ratio formData);
       ret (mkFormState (Some result) None
              (Some (mkPromptUsed fresh prompt now))))
      (fun _ =>
         ret (mkFormState None
                (Some (js "Failed to generate template image.")) None)).

Definition generateFinalImageAction (fresh : nat) (now : Z)
    (previousState : FinalImageFormState) (formData : FinalFormData)
    : Async FinalImageFormState :=
  let negativePrompt := default [] (final_negative_prompt formData) in
  if negb (truthy (subject_prompt formData)) then
    ret (mkFormState (image previousState)
           (Some (js "Subject prompt is required."))
           (promptUsed previousState))
  else if negb (truthy (selected_template formData)) then
    ret (mkFormState (image previousState)
           (Some (js "A template must be selected."))
           (promptUsed previousState))
  else
    let subjectPrompt := default [] (subject_prompt formData) in
    let selectedTemplate := default [] (selected_template formData) in
    let generate (styleReferenceImage : option jsstring) :=
      try_catch
        (do result <- GeminiApi.generateFinalImage subjectPrompt
                        selectedTemplate styleReferenceImage negativePrompt;
         if truthy result then
           ret (mkFormState result None
                  (Some (mkPromptUsed fresh subjectPrompt now)))
         else
           ret (mkFormState None
                  (Some (js "The model did not return an image. Try adjusting your prompt."))
                  None))
        (fun _ =>
           ret (mkFormState None
                  (Some (js "Failed to generate final image.")) None)) in
    match style_ref formData with
    | Some styleRefFile =>
        if 0 <? file_size styleRefFile then
          do converted <- attempt (do p <- call_fileToBase64 styleRefFile;
                                   await p);
          match converted with
          | Fulfilled style => generate (Some style)
          | Rejected _ =>
              ret (mkFormState None
                     (Some (js "Could not process the style reference image."))
                     None)
          end
        else generate None
    | None => generate None
    end.

(** *** The component's state *)

Record Component := mkComponent {
  selectedTemplate : option jsstring;
  displayTemplateImage : option jsstring;
  displayFinalImage : option jsstring;
  templateState : TemplateFormState;
  finalImageState : FinalImageFormState;
  recentTemplatePrompts : list jsstring;
  recentSubjectPrompts : list jsstring;
  (* props handed down by App.tsx *)
  props_history : list HistoryItem;
  props_negativePrompt : jsstring;
  props_aspectRatio : AspectRatio
}.

Definition initialComponent (h : list HistoryItem) (neg : jsstring)
    (ar : AspectRatio) (recentT recentS : list jsstring) : Component :=
  mkComponent None None None initialFormState initialFormState
    recentT recentS h neg ar.

Definition setSelectedTemplate (v : option jsstring) (c : Component) :=
  mkComponent v (displayTemplateImage c) (displayFinalImage c)
    (templateState c) (finalImageState c) (recentTemplatePrompts c)
    (recentSubjectPrompts c) (props_history c) (props_negativePrompt c)
    (props_aspectRatio c).

Definition setDisplayTemplateImage (v : option jsstring) (c : Component) :=
  mkComponent (selectedTemplate c) v (displayFinalImage c)
    (templateState c) (finalImageState c) (recentTemplatePrompts c)
    (recentSubjectPrompts c) (props_history c) (props_negativePrompt c)
    (props_aspectRatio c).

Definition setDisplayFinalImage (v : option jsstring) (c : Component) :=
  mkComponent (selectedTemplate c) (displayTemplateImage c) v
    (templateState c) (finalImageState c) (recentTemplatePrompts c)
    (recentSubjectPrompts c) (props_history c) (props_negativePrompt c)
    (props_aspectRatio c).

Definition setTemplateState (v : TemplateFormState) (c : Component) :=
  mkComponent (selectedTemplate c) (displayTemplateImage c)
    (displayFinalImage c) v (finalImageState c) (recentTemplatePrompts c)
    (recentSubjectPrompts c) (props_history c) (props_negativePrompt c)
    (props_aspectRatio c).

Definition setFinalImageState (v : FinalImageFormState) (c : Component) :=
  mkComponent (selectedTemplate c) (displayTemplateImage c)
    (displayFinalImage c) (templateState c) v (recentTemplatePrompts c)
    (recentSubjectPrompts c) (props_history c) (props_negativePrompt c)
    (props_aspectRatio c).

Definition setRecentTemplatePrompts (f : list jsstring -> list jsstring)
    (c : Component) :=
  mkComponent (selectedTemplate c) (displayTemplateImage c)
    (displayFinalImage c) (templateState c) (finalImageState c)
    (f (recentTemplatePrompts c)) (recentSubjectPrompts c)
    (props_history c) (props_negativePrompt c) (props_aspectRatio c).

Definition setRecentSubjectPrompts (f : list jsstring -> list jsstring)
    (c : Component) :=
  mkComponent (selectedTemplate c) (displayTemplateImage c)
    (displayFinalImage c) (templateState c) (finalImageState c)
    (recentTemplatePrompts c) (f (recentSubjectPrompts c))
    (props_history c) (props_negativePrompt c) (props_aspectRatio c).

Definition setHistory (f : list HistoryItem -> list HistoryItem)
    (c : Component) :=
  mkComponent (selectedTemplate c) (displayTemplateImage c)
    (displayFinalImage c) (templateState c) (finalImageState c)
    (recentTemplatePrompts c) (recentSubjectPrompts c)
    (f (props_history c)) (props_negativePrompt c) (props_aspectRatio c).

(** *** Effects *)

(** The updater handed to [setRecentTemplatePrompts] and
    [setRecentSubjectPrompts]. *)
Definition recentPromptsUpdater (currentPrompt : jsstring)
    (prev : list jsstring) : list jsstring :=
  slice 0 5 (currentPrompt :: filter (fun p => p <> currentPrompt) prev).

(** The updater handed to [setHistory]. *)
Definition historyUpdater (newHistoryItem : HistoryItem)
    (prev : list HistoryItem) : list HistoryItem :=
  slice 0 5 (newHistoryItem :: prev).

Definition effect_templatePromptUsed (c : Component) : Component :=
  match promptUsed (templateState c) with
  | Some used => setRecentTemplatePrompts (recentPromptsUpdater (pu_prompt used)) c
  | None => c
  end.

Definition effect_finalPromptUsed (c : Component) : Component :=
  match promptUsed (finalImageState c) with
  | Some used => setRecentSubjectPrompts (recentPromptsUpdater (pu_prompt used)) c
  | None => c
  end.

(** [id_now] and [ts_now] are the two readings of [Date.now()]. *)
Definition effect_templateImage (id_now ts_now : Z) (c : Component)
    : Component :=
  match image (templateState c) with
  | Some img =>
      if truthy_str img then
        let newHistoryItem :=
          mkHistoryItem id_now HTemplate img
            (default [] (pu_prompt <$> promptUsed (templateState c)))
            (props_negativePrompt c) ts_now (props_aspectRatio c) in
        setHistory (historyUpdater newHistoryItem)
          (setDisplayTemplateImage (Some img)
             (setSelectedTemplate (Some img) c))
      else c
  | None => c
  end.

Definition effect_finalImage (id_now ts_now : Z) (c : Component)
    : Component :=
  match image (finalImageState c) with
  | Some img =>
      if truthy_str img then
        let newHistoryItem :=
          mkHistoryItem id_now HFinal img
            (default [] (pu_prompt <$> promptUsed (finalImageState c)))
            (props_negativePrompt c) ts_now (props_aspectRatio c) in
        setHistory (historyUpdater newHistoryItem)
          (setDisplayFinalImage (Some img) c)
      else c
  | None => c
  end.

(** Dependency comparison of an effect ([Object.is]): object identity
    for [promptUsed], value equality for the image string. *)
Definition same_ref (a b : option PromptUsed) : bool :=
  match a, b with
  | None, None => true
  | Some x, Some y => (pu_ref x =? pu_ref y)%nat
  | _, _ => false
  end.

Definition same_image (a b : option jsstring) : bool := bool_decide (a = b).

(** The render that follows the settlement of the template action: the
    new action state is committed and the effects whose dependency
    changed run in declaration order. *)
Definition template_settled (id_now ts_now : Z) (next : TemplateFormState)
    (c : Component) : Component :=
  let old := templateState c in
  let c1 := setTemplateState next c in
  let c2 := if same_ref (promptUsed old) (promptUsed next) then c1
            else effect_templatePromptUsed c1 in
  if same_image (image old) (image next) then c2
  else effect_templateImage id_now ts_now c2.

Definition final_settled (id_now ts_now : Z) (next : FinalImageFormState)
    (c : Component) : Component :=
  let old := finalImageState c in
  let c1 := setFinalImageState next c in
  let c2 := if same_ref (promptUsed old) (promptUsed next) then c1
            else effect_finalPromptUsed c1 in
  if same_image (image old) (image next) then c2
  else effect_finalImage id_now ts_now c2.

(** Submitting the stage-1 form: the action runs on the current
    action state, then the component re-renders. *)
Definition submit_template (fresh : nat) (now id_now ts_now : Z)
    (formData : TemplateFormData) (c : Component) : Async Component :=
  do next <- generateTemplateAction fresh now (templateState c) formData;
  ret (template_settled id_now ts_now next c).

(** The stage-2 form carries the selection in a hidden input:
    [value={selectedTemplate || ''}]. *)
Definition final_form (subject negative : jsstring) (style : option File)
    (c : Component) : FinalFormData :=
  mkFinalForm (Some subject) (Some negative)
    (Some (if truthy (selectedTemplate c)
           then default [] (selectedTemplate c) else []))
    style.

Definition submit_final (fresh : nat) (now id_now ts_now : Z)
    (subject negative : jsstring) (style : option File) (c : Component)
    : Async Component :=
  do next <- generateFinalImageAction fresh now (finalImageState c)
               (final_form subject negative style c);
  ret (final_settled id_now ts_now next c).

(** The "Use This Template" button:
    [onClick={() => setSelectedTemplate(displayTemplateImage)}], disabled
    when nothing is displayed or the displayed template is selected. *)
Definition useThisTemplate_disabled (c : Component) : bool :=
  negb (truthy (displayTemplateImage c))
  || bool_decide (selectedTemplate c = displayTemplateImage c).

Definition click_useThisTemplate (c : Component) : Component :=
  if useThisTemplate_disabled c then c
  else setSelectedTemplate (displayTemplateImage c) c.

End CompositionMode.

(** ** components/direct/DirectGenerationMode.tsx *)

Module DirectGenerationMode.

(** The items built from a batch of images; [clock k] is the [k]-th
    reading of [Date.now()]. *)
Definition newHistoryItems (clock : nat -> Z) (images : list jsstring)
    (usedPrompt negativePrompt : jsstring) (aspectRatio : AspectRatio)
    : list HistoryItem :=
  imap (fun index image =>
          mkHistoryItem (clock (2 * index)%nat + Z.of_nat index) HDirect
            image usedPrompt negativePrompt (clock (2 * index + 1)%nat)
            aspectRatio)
       images.

(** The updater handed to [setHistory]. *)
Definition historyUpdater (newItems prev : list HistoryItem)
    : list HistoryItem :=
  slice 0 5 (newItems ++ prev).

Definition recentPromptsUpdater (currentPrompt : jsstring)
    (prev : list jsstring) : list jsstring :=
  slice 0 5 (currentPrompt :: filter (fun p => p <> currentPrompt) prev).

End DirectGenerationMode.

(** ** The browser's 2D canvas

    Pixels are 8-bit RGBA, compositing follows the Porter-Duff equations
    of the compositing specification, computed exactly and rounded to the
    nearest integer once per channel.  All coordinates the editor passes
    are integers, so no pixel is partially covered. *)

Module Canvas.

Record rgba := mkRgba { red : Z; green : Z; blue : Z; alpha : Z }.

Definition transparent : rgba := mkRgba 0 0 0 0.
Definition white : rgba := mkRgba 255 255 255 255.
Definition black : rgba := mkRgba 0 0 0 255.

Definition rgba_eqb (p q : rgba) : bool :=
  (red p =? red q) && (green p =? green q) && (blue p =? blue q)
  && (alpha p =? alpha q).

Inductive CompositeOp := SourceOver | SourceIn.

(** [n / d] rounded to the nearest integer; [0] when [d] is [0]. *)
Definition round_div (n d : Z) : Z := (2 * n + d) / (2 * d).

(** source-over: [ao = as + ab (1 - as)],
    [co = (cs as + cb ab (1 - as)) / ao]. *)
Definition source_over (s b : rgba) : rgba :=
  let a := alpha s * 255 + alpha b * (255 - alpha s) in
  let ch (cs cb : Z) :=
    round_div (cs * alpha s * 255 + cb * alpha b * (255 - alpha s)) a in
  mkRgba (ch (red s) (red b)) (ch (green s) (green b))
    (ch (blue s) (blue b)) (round_div a 255).

(** source-in: [ao = as ab], [co = cs] wherever [ao] is not zero. *)
Definition source_in (s b : rgba) : rgba :=
  let a := alpha s * alpha b in
  let ch (cs : Z) := round_div (cs * a) a in
  mkRgba (ch (red s)) (ch (green s)) (ch (blue s)) (round_div a 255).

Definition composite (op : CompositeOp) (s b : rgba) : rgba :=
  match op with
  | SourceOver => source_over s b
  | SourceIn => source_in s b
  end.

(** A bitmap: [document.createElement('canvas')] sized by assigning
    [width] and [height] is transparent black; a decoded image is a
    bitmap as well. *)
Record bitmap := mkBitmap {
  width : Z;
  height : Z;
  pixel : Z -> Z -> rgba
}.

Definition createCanvas (w h : Z) : bitmap :=
  mkBitmap w h (fun _ _ => transparent).

Definition inside (x y w h px py : Z) : bool :=
  (Z.min x (x + w) <=? px) && (px <? Z.max x (x + w))
  && (Z.min y (y + h) <=? py) && (py <? Z.max y (y + h)).

Definition in_bounds (c : bitmap) (px py : Z) : bool :=
  (0 <=? px) && (px <? width c) && (0 <=? py) && (py <? height c).

(** The state of a [CanvasRenderingContext2D]. *)
Record Context2D := mkContext {
  target : bitmap;
  fillStyle : rgba;
  globalCompositeOperation : CompositeOp
}.

Definition getContext (c : bitmap) : Context2D :=
  mkContext c (mkRgba 0 0 0 255) SourceOver.

Definition set_fillStyle (style : rgba) (ctx : Context2D) : Context2D :=
  mkContext (target ctx) style (globalCompositeOperation ctx).

Definition set_globalCompositeOperation (op : CompositeOp)
    (ctx : Context2D) : Context2D :=
  mkContext (target ctx) (fillStyle ctx) op.

(** Painting a source that is [src px py] where it is defined and
    transparent elsewhere. *)
Definition paint (src : Z -> Z -> option rgba) (ctx : Context2D)
    : Context2D :=
  let c := target ctx in
  mkContext
    (mkBitmap (width c) (height c)
       (fun px py =>
          composite (globalCompositeOperation ctx)
            (default transparent (src px py)) (pixel c px py)))
    (fillStyle ctx) (globalCompositeOperation ctx).

(** [ctx.fillRect(x, y, w, h)] has no effect when [w] or [h] is zero. *)
Definition fillRect (x y w h : Z) (ctx : Context2D) : Context2D :=
  if (w =? 0) || (h =? 0) then ctx
  else paint (fun px py =>
                if inside x y w h px py then Some (fillStyle ctx) else None)
             ctx.

(** [ctx.drawImage(canvas, dx, dy)] with a canvas as the source: an
    [InvalidStateError] ([None]) when the source has no pixels. *)
Definition drawImage (src : bitmap) (dx dy : Z) (ctx : Context2D)
    : option Context2D :=
  if (width src <=? 0) || (height src <=? 0) then None
  else Some (paint (fun px py =>
                      if inside dx dy (width src) (height src) px py
                      then Some (pixel src (px - dx) (py - dy)) else None)
                   ctx).

(** [ctx.drawImage(img, dx, dy, dw, dh)] with an image element as the
    source: nothing is drawn when the image has no pixels; otherwise it
    is resampled to [dw] by [dh].  How is left to the browser, here
    nearest neighbour, which is the identity when the size is the
    image's own. *)
Definition drawImageScaled (img : bitmap) (dx dy dw dh : Z)
    (ctx : Context2D) : Context2D :=
  if (width img <=? 0) || (height img <=? 0) then ctx
  else paint (fun px py =>
                if inside dx dy dw dh px py
                then Some (pixel img ((px - dx) * width img / dw)
                                     ((py - dy) * height img / dh))
                else None)
             ctx.

(** The brush of the in-paint overlay: [rgba(255, 255, 255, 0.7)], whose
    alpha is 179 in 8 bits. *)
Definition brush : rgba := mkRgba 255 255 255 179.

(** [ctx.arc(x, y, brushSize / 2, 0, 2 * Math.PI); ctx.fill()]: the
    pixels whose centre lies in the disc; the partially covered rim
    pixels, which receive still other alpha values, are not painted. *)
Definition fillDisc (cx cy brushSize : Z) (ctx : Context2D) : Context2D :=
  paint (fun px py =>
           if (2 * px + 1 - 2 * cx) ^ 2 + (2 * py + 1 - 2 * cy) ^ 2
              <=? brushSize ^ 2
           then Some (fillStyle ctx) else None)
        ctx.

End Canvas.

Import Canvas.

(** ** components/shared/AdvancedImageEditor.tsx *)

Module AdvancedImageEditor.

Inductive Mode := Inpaint | Outpaint.

Record Padding := mkPadding { top : Z; right : Z; bottom : Z; left : Z }.

Record Dims := mkDims { dims_width : Z; dims_height : Z }.

(** The value of a hidden form input: a data URL, either the string the
    editor was given or the PNG encoding of a canvas, which is the
    canvas's bitmap. *)
Inductive ImageValue :=
| Url (src : jsstring)
| Png (content : bitmap).

Record FormInputs := mkInputs {
  base_image : option ImageValue;
  mask_image : option ImageValue
}.

(** What [handleSubmit] reads. *)
Record Editor := mkEditor {
  mode : Mode;
  currentImage : jsstring;
  maskCanvasRef : option bitmap;
  originalImageRef : option bitmap;
  originalDims : Dims;
  padding : Padding
}.

(** The [draw] handler of the overlay while the pointer is down, for a
    pointer position that maps to the canvas point [(x, y)]. *)
Definition draw (x y brushSize : Z) (maskCanvas : bitmap) : bitmap :=
  target (fillDisc x y brushSize (set_fillStyle brush (getContext maskCanvas))).

(** The in-paint branch of [handleSubmit] once the overlay canvas is
    at hand; [None] when a canvas call throws. *)
Definition inpaintMask (maskCanvas : bitmap) : option bitmap :=
  (* a solid white shape from the semi-transparent drawing *)
  let tempCanvas := createCanvas (width maskCanvas) (height maskCanvas) in
  let tempCtx := getContext tempCanvas in
  match drawImage maskCanvas 0 0 tempCtx with
  | None => None
  | Some tempCtx =>
      let tempCtx := set_globalCompositeOperation SourceIn tempCtx in
      let tempCtx := set_fillStyle white tempCtx in
      let tempCtx :=
        fillRect 0 0 (width (target tempCtx)) (height (target tempCtx))
          tempCtx in
      (* the final black and white mask *)
      let finalMaskCanvas :=
        createCanvas (width maskCanvas) (height maskCanvas) in
      let finalMaskCtx := getContext finalMaskCanvas in
      let finalMaskCtx := set_fillStyle black finalMaskCtx in
      let finalMaskCtx :=
        fillRect 0 0 (width (target finalMaskCtx))
          (height (target finalMaskCtx)) finalMaskCtx in
      match drawImage (target tempCtx) 0 0 finalMaskCtx with
      | None => None
      | Some finalMaskCtx => Some (target finalMaskCtx)
      end
  end.

Definition outpaintBase (e : Editor) : bitmap :=
  let origW := dims_width (originalDims e) in
  let origH := dims_height (originalDims e) in
  let newWidth := origW + left (padding e) + right (padding e) in
  let newHeight := origH + top (padding e) + bottom (padding e) in
  let baseCanvas := createCanvas newWidth newHeight in
  let baseCtx := getContext baseCanvas in
  let baseCtx := set_fillStyle white baseCtx in
  let baseCtx := fillRect 0 0 newWidth newHeight baseCtx in
  let baseCtx :=
    match originalImageRef e with
    | Some img =>
        drawImageScaled img (left (padding e)) (top (padding e)) origW origH
          baseCtx
    | None => baseCtx
    end in
  target baseCtx.

Definition outpaintMask (e : Editor) : bitmap :=
  let origW := dims_width (originalDims e) in
  let origH := dims_height (originalDims e) in
  let newWidth := origW + left (padding e) + right (padding e) in
  let newHeight := origH + top (padding e) + bottom (padding e) in
  let maskCanvas := createCanvas newWidth newHeight in
  let maskCtx := getContext maskCanvas in
  let maskCtx := set_fillStyle white maskCtx in
  let maskCtx := fillRect 0 0 newWidth newHeight maskCtx in
  let maskCtx := set_fillStyle black maskCtx in
  let maskCtx :=
    fillRect (left (padding e)) (top (padding e)) origW origH maskCtx in
  target maskCtx.

(** [handleSubmit]: the values of the two hidden inputs at the moment
    the form data is handed to the action; [None] when the handler
    throws before it gets there. *)
Definition handleSubmit (e : Editor) (form : FormInputs)
    : option FormInputs :=
  match mode e with
  | Inpaint =>
      match maskCanvasRef e with
      | Some maskCanvas =>
          match inpaintMask maskCanvas with
          | Some mask =>
              Some (mkInputs (Some (Url (currentImage e))) (Some (Png mask)))
          | None => None
          end
      | None => Some (mkInputs (Some (Url (currentImage e))) (mask_image form))
      end
  | Outpaint =>
      Some (mkInputs (Some (Png (outpaintBase e)))
              (Some (Png (outpaintMask e))))
  end.

(** The two colours of a mask. *)
Definition paint_colour : rgba := white.
Definition keep_colour : rgba := black.

End AdvancedImageEditor.

(** ** The recency store as the specification describes it *)

Module RecencySpec.

(** The insertion as the specification words it: remove every
    occurrence of the string, prepend it, truncate to the cap. *)
Fixpoint remove_occurrences (p : jsstring) (l : list jsstring)
    : list jsstring :=
  match l with
  | [] => []
  | q :: rest =>
      if decide (q = p) then remove_occurrences p rest
      else q :: remove_occurrences p rest
  end.

Definition recent_insert_spec (cap : nat) (p : jsstring)
    (l : list jsstring) : list jsstring :=
  take cap (p :: remove_occurrences p l).

(** The data model's recent-prompt list: no string twice, no longer
    than the cap. *)
Definition recent_list (cap : nat) (l : list jsstring) : Prop :=
  NoDup l /\ (length l <= cap)%nat.

(** The lists a slice can hold: it starts empty and changes by insertion
    only. *)
Inductive built_by_inserts (cap : Z) : list jsstring -> Prop :=
| built_nil : built_by_inserts cap []
| built_insert (p : jsstring) (l : list jsstring) :
    built_by_inserts cap l ->
    built_by_inserts cap (slice 0 cap (p :: filter (fun q => q <> p) l)).

End RecencySpec.

Import RecencySpec.

(** ** The requests the API layer sends *)

Module Requests.

(** The request of each closure of [generateVariations]. *)
Definition variation_request (baseImage negativePrompt : jsstring)
    : GenerateContentParameters :=
  mkGenerateContent GeminiApi.image_model
    (ContentParts
       [InlineData (js "image/png") (split comma baseImage !! 1%nat);
        TextPart
          (if truthy_str negativePrompt
           then GeminiApi.avoid
                  (js "Generate a slightly different variation of this image, keeping the same subject and overall style.")
                  negativePrompt
           else js "Generate a slightly different variation of this image, keeping the same subject and overall style.")])
    None None.

(** The request of [generateNegativePrompt]. *)
Definition negative_request (mainPrompt : jsstring)
    : GenerateContentParameters :=
  mkGenerateContent (js "gemini-2.5-flash")
    (ContentText
       (js "Generate a negative prompt for the following main prompt: "
          ++ [quote] ++ mainPrompt ++ [quote]))
    (Some GeminiApi.negative_system_instruction) (Some 60).

(** What [generateNegativePrompt] makes of the model's answer before
    cutting it. *)
Definition cleaned (raw : jsstring) : jsstring :=
  trim (remove_first_ci (js "Negative Prompt: ") (strip_quotes (trim raw))).

(** The request of [generateTemplateImage] for a submitted form. *)
Definition template_request (fd : CompositionMode.TemplateFormData)
    : GenerateImagesParameters :=
  let prompt := default [] (CompositionMode.template_prompt fd) in
  let negativePrompt :=
    default [] (CompositionMode.template_negative_prompt fd) in
  mkGenerateImages (js "imagen-4.0-generate-001")
    (if truthy_str negativePrompt then GeminiApi.avoid prompt negativePrompt
     else prompt)
    1 (CompositionMode.aspect_ratio fd).

End Requests.

Import Requests.

(** ** The aggregator as the specification describes it *)

Module AggregatorSpec.

(** The union of the fulfilled providers' result lists, in provider
    order. *)
Definition fulfilled_lists (results : list (outcome StockValue))
    : list (list UnifiedStockImage) :=
  omap (fun r => match r with
                 | Fulfilled (VArray images) => Some images
                 | _ => None
                 end) results.

Definition fulfilled_union (results : list (outcome StockValue))
    : list UnifiedStockImage :=
  concat (fulfilled_lists results).

Definition failed {A} (r : outcome A) : Prop := is_fulfilled r = false.

End AggregatorSpec.

Import AggregatorSpec.

(** ** Concrete states used to exercise the statements *)

Module Samples.

Definition item_of (i : Z) : HistoryItem :=
  mkHistoryItem i HDirect (js "data:image/png;base64,AA") (js "a logo") []
    i AR_1_1.

Definition store_ab : Store.StoreState :=
  Store.mkStore [item_of 3; item_of 2; item_of 1] [js "a"; js "b"] [] []
    [] [] [].

(** An engine whose [toLowerCase] folds the ASCII letters. *)
Definition ascii_lower (c : code_unit) : code_unit :=
  if ((65 <=? c) && (c <=? 90))%N then (c + 32)%N else c.

Definition ascii_engine : Engine :=
  mkEngine (map ascii_lower) (js "Cannot read properties of undefined")
    (js "Invalid array length").

Definition png_a : jsstring := js "data:image/png;base64,AAAA".

Definition content_with_image (payload : string) : GenerateContentResponse :=
  mkContentResponse
    [Some [TextPart (js "Here you go"); InlineData (js "image/png") (Some (js payload))]]
    None.

Definition content_without_image : GenerateContentResponse :=
  mkContentResponse [Some [TextPart (js "I cannot do that")]] None.

Definition stock_image (ident : string) (pr : StockProvider) : UnifiedStockImage :=
  mkStockImage (js ident) (js "alt") (js "someone") (js "https://example/small")
    (js "https://example/large") pr.

(** The first variation request is rejected (quota), the second returns
    an image; every other collaborator fails. *)
Definition world_one_rejection : World :=
  mkWorld
    (fun _ _ => Rejected (ErrorObj (js "unavailable")))
    (fun n _ => match n with
                | O => Rejected (ErrorObj (js "Quota exceeded"))
                | _ => Fulfilled (content_with_image "BBBB")
                end)
    (fun _ _ => Rejected ThrownValue)
    (fun _ _ _ => Rejected ThrownValue)
    (fun n => n).

(** The first variation request returns text only, the second an image. *)
Definition world_one_without_image : World :=
  mkWorld
    (fun _ _ => Rejected (ErrorObj (js "unavailable")))
    (fun n _ => match n with
                | O => Fulfilled content_without_image
                | _ => Fulfilled (content_with_image "BBBB")
                end)
    (fun _ _ => Rejected ThrownValue)
    (fun _ _ _ => Rejected ThrownValue)
    (fun n => n).

(** Pexels and Unsplash fail, Pixabay answers with two images. *)
Definition world_pixabay_only : World :=
  mkWorld
    (fun _ _ => Rejected (ErrorObj (js "unavailable")))
    (fun _ _ => Rejected (ErrorObj (js "unavailable")))
    (fun _ _ => Rejected ThrownValue)
    (fun _ pr _ => match pr with
                   | Pixabay =>
                       Fulfilled (VArray [stock_image "pixabay-1" Pixabay;
                                          stock_image "pixabay-2" Pixabay])
                   | _ => Rejected (ErrorObj (js "Failed to fetch"))
                   end)
    (fun n => n).

Definition search_cats : SearchParams :=
  mkSearch (js "cats") OrientAny (js "any").

Definition variation_form : VariationGenerator.VariationFormData :=
  VariationGenerator.mkVariationForm (Some png_a) (Some []).

Definition variation_idle : VariationGenerator.VariationFormState :=
  VariationGenerator.mkVariationState [] None.

(** The model answers the suggestion request with a quoted, labelled
    list. *)
Definition world_negative : World :=
  mkWorld
    (fun _ _ => Rejected (ErrorObj (js "unavailable")))
    (fun _ _ =>
       Fulfilled
         (mkContentResponse []
            (Some ([quote] ++ js "Negative prompt: blurry, watermark "
                     ++ [quote]))))
    (fun _ _ => Rejected ThrownValue)
    (fun _ _ _ => Rejected ThrownValue)
    (fun n => n).

(** The image model returns "T1" to the first request and "T2" to every
    later one. *)
Definition world_templates : World :=
  mkWorld
    (fun n _ => match n with
                | O => Fulfilled (mkImagesResponse [Some (js "T1")])
                | _ => Fulfilled (mkImagesResponse [Some (js "T2")])
                end)
    (fun _ _ => Rejected (ErrorObj (js "unavailable")))
    (fun _ _ => Rejected ThrownValue)
    (fun _ _ _ => Rejected ThrownValue)
    (fun n => n).

Definition template_form (p : string) : CompositionMode.TemplateFormData :=
  CompositionMode.mkTemplateForm (Some (js p)) (Some []) AR_16_9.

Definition fresh_component : CompositionMode.Component :=
  CompositionMode.initialComponent [] [] AR_16_9 [] [].

(** The scenario of the specification: submit "P1", do not confirm,
    submit "P2". *)
Definition scenario_P1_P2 : Async CompositionMode.Component :=
  do c1 <- CompositionMode.submit_template 1 1000 1001 1001
             (template_form "P1") fresh_component;
  CompositionMode.submit_template 2 2000 2001 2001 (template_form "P2") c1.

(** One stroke of the default brush in the middle of a two by two
    overlay: every pixel of the overlay lies inside the disc. *)
Definition stroke_overlay : bitmap :=
  AdvancedImageEditor.draw 1 1 40 (createCanvas 2 2).

Definition empty_form : AdvancedImageEditor.FormInputs :=
  AdvancedImageEditor.mkInputs None None.

Definition inpaint_editor : AdvancedImageEditor.Editor :=
  AdvancedImageEditor.mkEditor AdvancedImageEditor.Inpaint png_a
    (Some stroke_overlay) None (AdvancedImageEditor.mkDims 2 2)
    (AdvancedImageEditor.mkPadding 0 0 0 0).

(** An untouched overlay. *)
Definition untouched_editor : AdvancedImageEditor.Editor :=
  AdvancedImageEditor.mkEditor AdvancedImageEditor.Inpaint png_a
    (Some (createCanvas 2 2)) None (AdvancedImageEditor.mkDims 2 2)
    (AdvancedImageEditor.mkPadding 0 0 0 0).

Definition red_image : bitmap :=
  mkBitmap 2 1 (fun _ _ => mkRgba 200 10 10 255).

(** Padding: top 1, right 3, bottom 2, left 4. *)
Definition outpaint_editor : AdvancedImageEditor.Editor :=
  AdvancedImageEditor.mkEditor AdvancedImageEditor.Outpaint png_a None
    (Some red_image) (AdvancedImageEditor.mkDims 2 1)
    (AdvancedImageEditor.mkPadding 1 3 2 4).

Definition batch_987 : list HistoryItem := [item_of 9; item_of 8; item_of 7].
Definition history_321 : list HistoryItem := [item_of 3; item_of 2; item_of 1].

(** A stage-2 form with a subject prompt and no template selected. *)
Definition final_form_no_template : CompositionMode.FinalFormData :=
  CompositionMode.mkFinalForm (Some (js "a red bicycle")) (Some []) (Some [])
    None.

End Samples.

Import Samples.

(** ** lib/gemini-api.ts: the remaining functions *)

Module GeminiApiMore.

(** [editImage]: one request with the base image and the edit prompt. *)
Definition editImage (baseImage editPrompt negativePrompt : jsstring)
    : Async (option jsstring) :=
  let fullPrompt :=
    if truthy_str negativePrompt then GeminiApi.avoid editPrompt negativePrompt
    else editPrompt in
  let parts :=
    [InlineData (js "image/png") (split comma baseImage !! 1%nat);
     TextPart fullPrompt] in
  do p <- call_generateContent
            (mkGenerateContent GeminiApi.image_model (ContentParts parts)
               None None);
  do response <- await p;
  settle (GeminiApi.image_of_response response).

(** [generateDirectImages]: one request for the whole batch.  A response
    without the array of images makes [map] throw, which is what a
    rejection with [TypeError] does to every caller. *)
Definition generateDirectImages (prompt negativePrompt : jsstring)
    (aspectRatio : AspectRatio) (batchSize : Z) : Async (list jsstring) :=
  let fullPrompt :=
    if truthy_str negativePrompt then GeminiApi.avoid prompt negativePrompt
    else prompt in
  do p <- call_generateImages
            (mkGenerateImages (js "imagen-4.0-generate-001") fullPrompt
               batchSize aspectRatio);
  do response <- await p;
  ret (map GeminiApi.data_url (generatedImages response)).

Inductive EnhanceMode := EnhanceTemplate | EnhanceSubject | EnhanceDirect.

(** A template-literal hole filled with [string | null]. *)
Definition interpolate_null (v : option jsstring) : jsstring :=
  default (js "null") v.

Definition enhance_system_instruction (mode : EnhanceMode) : jsstring :=
  match mode with
  | EnhanceTemplate =>
      js "You are an expert AI image generation prompt engineer. Your task is to enhance a user's prompt for a background scene, layout, or environment. Expand on the original concept by adding descriptive keywords related to lighting, composition, mood, and artistic style. Do not add a specific subject. The output should be a single, refined prompt string. Do not output any conversational text."
  | EnhanceSubject =>
      js "You are an expert AI image generation prompt engineer. A user wants to add a subject to an existing scene. Your task is to enhance the user's description of the *subject only*. Make it detailed and specific, describing its appearance, texture, and interaction with the environment's lighting. Do not mention the background scene itself in your output. The output should be a single, refined prompt string describing the subject. Do not output any conversational text."
  | EnhanceDirect =>
      js "You are an expert AI image generation prompt engineer. Your task is to enhance a user's prompt for clarity, detail, and creative potential, following best practices for diffusion models. Expand on the original concept by adding descriptive keywords related to subject, style, medium, lighting, composition, and quality. Do not change the core subject. The output should be a single, refined prompt string. Do not output any conversational text or explanations."
  end.

Definition enhance_contents (mainPrompt : jsstring)
    (contextPrompt : option jsstring) (mode : EnhanceMode) : jsstring :=
  match mode with
  | EnhanceTemplate =>
      js "Enhance this scene prompt: " ++ [quote] ++ mainPrompt ++ [quote]
  | EnhanceSubject =>
      js "The background scene is: " ++ [quote]
        ++ interpolate_null contextPrompt ++ [quote]
        ++ js ". The subject to add is: " ++ [quote] ++ mainPrompt ++ [quote]
        ++ js ". Enhance the description of the subject."
  | EnhanceDirect =>
      js "Enhance this prompt: " ++ [quote] ++ mainPrompt ++ [quote]
  end.

Definition enhance_request (mainPrompt : jsstring)
    (contextPrompt : option jsstring) (mode : EnhanceMode)
    : GenerateContentParameters :=
  mkGenerateContent (js "gemini-2.5-flash")
    (ContentText (enhance_contents mainPrompt contextPrompt mode))
    (Some (enhance_system_instruction mode)) (Some 250).

Definition enhancePrompt (mainPrompt : jsstring)
    (contextPrompt : option jsstring) (mode : EnhanceMode) : Async jsstring :=
  if negb (truthy_str (trim mainPrompt)) then ret []
  else
    do p <- call_generateContent
              (enhance_request mainPrompt contextPrompt mode);
    do response <- await p;
    match text response with
    | None => throw TypeError
    | Some raw => ret (strip_quotes (trim raw))
    end.

End GeminiApiMore.

(** ** The text shown for a caught error *)

Module Caught.

(** [e instanceof Error ? e.message : 'An unknown error occurred.'] *)
Definition error_message (eng : Engine) (e : JsError) : jsstring :=
  default (js "An unknown error occurred.") (message_of eng e).

End Caught.

(** ** components/shared/ImageEditor.tsx *)

Module ImageEditor.

Record EditFormState := mkEditState {
  image : option jsstring;
  error : option jsstring
}.

Record EditFormData := mkEditForm {
  edit_prompt : option jsstring;
  base_image : option jsstring;
  negative_prompt : option jsstring
}.

Definition editImageAction (eng : Engine) (previousState : EditFormState)
    (formData : EditFormData) : Async EditFormState :=
  let negativePrompt := default [] (negative_prompt formData) in
  if negb (truthy (edit_prompt formData)) then
    ret (mkEditState (image previousState)
           (Some (js "An edit description is required.")))
  else if negb (truthy (base_image formData)) then
    ret (mkEditState (image previousState)
           (Some (js "Base image is missing.")))
  else
    let editPrompt := default [] (edit_prompt formData) in
    let baseImage := default [] (base_image formData) in
    try_catch
      (do result <- GeminiApiMore.editImage baseImage editPrompt negativePrompt;
       if truthy result then ret (mkEditState result None)
       else
         ret (mkEditState None
                (Some (js "The model did not return an image. Try a different prompt."))))
      (fun e =>
         ret (mkEditState None
                (Some (js "Failed to edit image: " ++ Caught.error_message eng e)))).

End ImageEditor.

(** ** components/composition/CompositionMode.tsx: the event handlers *)

Module CompositionHandlers.

Inductive ImageKind := KTemplate | KFinal.

(** [{ type: 'template' | 'final'; src: string }] *)
Record Editing := mkEditing { kind : ImageKind; src : jsstring }.

(** The component together with the state of its three dialogs and of
    the stock-image conversion. *)
Record Session := mkSession {
  comp : CompositionMode.Component;
  croppingState : option Editing;
  advancedEditingState : option Editing;
  variationState : option Editing;
  isConvertingStock : bool
}.

Definition initialSession (c : CompositionMode.Component) : Session :=
  mkSession c None None None false.

(** The body the three save handlers share: the displayed image of the
    edited kind is replaced, and the selection follows when the image
    the dialog was opened on is the selected one. *)
Definition save_into (state : option Editing) (newImage : jsstring)
    (c : CompositionMode.Component) : CompositionMode.Component :=
  match state with
  | Some (mkEditing KTemplate opened) =>
      let c1 := CompositionMode.setDisplayTemplateImage (Some newImage) c in
      if bool_decide (CompositionMode.selectedTemplate c = Some opened)
      then CompositionMode.setSelectedTemplate (Some newImage) c1
      else c1
  | Some (mkEditing KFinal _) =>
      CompositionMode.setDisplayFinalImage (Some newImage) c
  | None => c
  end.

Definition handleCropSave (croppedImage : jsstring) (s : Session) : Session :=
  mkSession (save_into (croppingState s) croppedImage (comp s))
    None (advancedEditingState s) (variationState s) (isConvertingStock s).

Definition handleAdvancedEditSave (editedImage : jsstring) (s : Session)
    : Session :=
  mkSession (save_into (advancedEditingState s) editedImage (comp s))
    (croppingState s) None (variationState s) (isConvertingStock s).

Definition handleVariationSave (selectedImage : jsstring) (s : Session)
    : Session :=
  mkSession (save_into (variationState s) selectedImage (comp s))
    (croppingState s) (advancedEditingState s) None (isConvertingStock s).

(** The buttons that open a dialog:
    [displayTemplateImage && setCroppingState({ type, src })]. *)
Definition open_on (k : ImageKind) (c : CompositionMode.Component)
    : option Editing :=
  let shown := match k with
               | KTemplate => CompositionMode.displayTemplateImage c
               | KFinal => CompositionMode.displayFinalImage c
               end in
  match shown with
  | Some img => if truthy_str img then Some (mkEditing k img) else None
  | None => None
  end.

Definition clickCrop (k : ImageKind) (s : Session) : Session :=
  match open_on k (comp s) with
  | Some e => mkSession (comp s) (Some e) (advancedEditingState s)
                (variationState s) (isConvertingStock s)
  | None => s
  end.

Definition clickAdvancedEdit (k : ImageKind) (s : Session) : Session :=
  match open_on k (comp s) with
  | Some e => mkSession (comp s) (croppingState s) (Some e)
                (variationState s) (isConvertingStock s)
  | None => s
  end.

Definition clickVariations (k : ImageKind) (s : Session) : Session :=
  match open_on k (comp s) with
  | Some e => mkSession (comp s) (croppingState s) (advancedEditingState s)
                (Some e) (isConvertingStock s)
  | None => s
  end.

(** [handleStockImageSelect] once [urlToBase64] has settled to
    [converted]; [id_now] and [ts_now] are the readings of
    [Date.now()]. *)
Definition handleStockImageSelect (converted : outcome jsstring)
    (stockQuery : jsstring) (id_now ts_now : Z) (s : Session) : Session :=
  let c0 := CompositionMode.setDisplayTemplateImage None (comp s) in
  let c1 :=
    match converted with
    | Fulfilled base64Image =>
        let newHistoryItem :=
          mkHistoryItem id_now HTemplate base64Image
            (js "Stock image: " ++ stockQuery) [] ts_now
            (CompositionMode.props_aspectRatio c0) in
        CompositionMode.setHistory
          (CompositionMode.historyUpdater newHistoryItem)
          (CompositionMode.setSelectedTemplate (Some base64Image)
             (CompositionMode.setDisplayTemplateImage (Some base64Image) c0))
    | Rejected _ => c0
    end in
  mkSession c1 (croppingState s) (advancedEditingState s) (variationState s)
    false.

(** What can happen to a session. *)
Inductive Event :=
| TemplateSettled (id_now ts_now : Z) (next : CompositionMode.TemplateFormState)
| FinalSettled (id_now ts_now : Z) (next : CompositionMode.FinalImageFormState)
| UseThisTemplate
| OpenCrop (k : ImageKind)
| OpenAdvancedEdit (k : ImageKind)
| OpenVariations (k : ImageKind)
| CropSaved (img : jsstring)
| AdvancedEditSaved (img : jsstring)
| VariationSaved (img : jsstring)
| CloseCrop
| CloseAdvancedEdit
| CloseVariations
| StockImageSelected (converted : outcome jsstring) (stockQuery : jsstring)
    (id_now ts_now : Z).

Definition with_comp (f : CompositionMode.Component -> CompositionMode.Component)
    (s : Session) : Session :=
  mkSession (f (comp s)) (croppingState s) (advancedEditingState s)
    (variationState s) (isConvertingStock s).

Definition step (s : Session) (ev : Event) : Session :=
  match ev with
  | TemplateSettled id_now ts_now next =>
      with_comp (CompositionMode.template_settled id_now ts_now next) s
  | FinalSettled id_now ts_now next =>
      with_comp (CompositionMode.final_settled id_now ts_now next) s
  | UseThisTemplate => with_comp CompositionMode.click_useThisTemplate s
  | OpenCrop k => clickCrop k s
  | OpenAdvancedEdit k => clickAdvancedEdit k s
  | OpenVariations k => clickVariations k s
  | CropSaved img => handleCropSave img s
  | AdvancedEditSaved img => handleAdvancedEditSave img s
  | VariationSaved img => handleVariationSave img s
  | CloseCrop =>
      mkSession (comp s) None (advancedEditingState s) (variationState s)
        (isConvertingStock s)
  | CloseAdvancedEdit =>
      mkSession (comp s) (croppingState s) None (variationState s)
        (isConvertingStock s)
  | CloseVariations =>
      mkSession (comp s) (croppingState s) (advancedEditingState s) None
        (isConvertingStock s)
  | StockImageSelected converted q id_now ts_now =>
      handleStockImageSelect converted q id_now ts_now s
  end.

Definition steps (s : Session) (evs : list Event) : Session :=
  foldl step s evs.

(** The images the dialogs and the converter hand over are never empty:
    [ImageCropper] saves [imageSrc] or a truthy crop, the editors and the
    variation dialog save a truthy result, and a [FileReader] data URL
    starts with "data:". *)
Definition carries_image (ev : Event) : Prop :=
  match ev with
  | CropSaved img | AdvancedEditSaved img | VariationSaved img =>
      truthy_str img = true
  | StockImageSelected (Fulfilled img) _ _ _ => truthy_str img = true
  | _ => True
  end.

(** *** Prompt assistance *)

Record Prompts := mkPrompts {
  templatePrompt : jsstring;
  subjectPrompt : jsstring;
  negativePrompt : jsstring;
  isGeneratingNegative : bool;
  isEnhancingTemplate : bool;
  isEnhancingSubject : bool
}.

Definition handleAutoNegativePrompt (ps : Prompts) : Async Prompts :=
  do suggested <- attempt (GeminiApi.generateNegativePrompt (templatePrompt ps));
  ret (mkPrompts (templatePrompt ps) (subjectPrompt ps)
         match suggested with
         | Fulfilled newNegativePrompt => newNegativePrompt
         | Rejected _ => negativePrompt ps
         end
         false (isEnhancingTemplate ps) (isEnhancingSubject ps)).

Definition handleEnhanceTemplatePrompt (ps : Prompts) : Async Prompts :=
  do enhanced <- attempt (GeminiApiMore.enhancePrompt (templatePrompt ps) None
                            GeminiApiMore.EnhanceTemplate);
  ret (mkPrompts
         match enhanced with
         | Fulfilled newPrompt => newPrompt
         | Rejected _ => templatePrompt ps
         end
         (subjectPrompt ps) (negativePrompt ps) (isGeneratingNegative ps)
         false (isEnhancingSubject ps)).

Definition handleEnhanceSubjectPrompt (ps : Prompts) : Async Prompts :=
  do enhanced <- attempt (GeminiApiMore.enhancePrompt (subjectPrompt ps)
                            (Some (templatePrompt ps))
                            GeminiApiMore.EnhanceSubject);
  ret (mkPrompts (templatePrompt ps)
         match enhanced with
         | Fulfilled newPrompt => newPrompt
         | Rejected _ => subjectPrompt ps
         end
         (negativePrompt ps) (isGeneratingNegative ps)
         (isEnhancingTemplate ps) false).

End CompositionHandlers.

(** ** components/shared/ImageCropper.tsx *)

Module ImageCropper.

(** [handleSaveCrop]: what is handed to [onCropSave], if anything.
    [croppedAreaPixels] is [None] until a crop selection was made;
    [cropped] is what [getCroppedImg] settles to. *)
Definition handleSaveCrop {Area : Type} (imageSrc : jsstring)
    (croppedAreaPixels : option Area) (cropped : outcome (option jsstring))
    : option jsstring :=
  if negb (truthy_str imageSrc) then None
  else match croppedAreaPixels with
       | None => Some imageSrc
       | Some _ =>
           match cropped with
           | Fulfilled (Some croppedImage) =>
               if truthy_str croppedImage then Some croppedImage else None
           | Fulfilled None => None
           | Rejected _ => None
           end
       end.

End ImageCropper.

(** ** components/direct/DirectGenerationMode.tsx: action and effects *)

Module DirectGeneration.

(** [images_ref] is the identity of the [images] array, which is what the
    dependency array of the image effect compares. *)
Record DirectFormState := mkDirectState {
  images : list jsstring;
  images_ref : nat;
  error : option jsstring;
  promptUsed : option CompositionMode.PromptUsed
}.

(** [batch_size] is what [parseInt(..., 10)] makes of the field: [None]
    for [NaN]. *)
Record DirectFormData := mkDirectForm {
  direct_prompt : option jsstring;
  negative_prompt : option jsstring;
  direct_aspect_ratio : AspectRatio;
  batch_size : option Z
}.

(** [parsed || 1]: [NaN] and [0] are falsy. *)
Definition or_one (parsed : option Z) : Z :=
  match parsed with
  | Some n => if n =? 0 then 1 else n
  | None => 1
  end.

(** The change handler of the batch-size input:
    [Math.max(1, Math.min(4, parseInt(value) || 1))]. *)
Definition clampBatchSize (parsed : option Z) : Z :=
  Z.max 1 (Z.min 4 (or_one parsed)).

(** [fresh_obj] and [fresh_arr] are the identities of the object and of the
    array allocated by this run, [now] the reading of [Date.now()]. *)
Definition generateDirectAction (fresh_obj fresh_arr : nat) (now : Z)
    (previousState : DirectFormState) (formData : DirectFormData)
    : Async DirectFormState :=
  let negativePrompt := default [] (negative_prompt formData) in
  let batchSize := or_one (batch_size formData) in
  if negb (truthy (direct_prompt formData)) then
    ret (mkDirectState (images previousState) (images_ref previousState)
           (Some (js "Prompt is required.")) (promptUsed previousState))
  else
    let prompt := default [] (direct_prompt formData) in
    try_catch
      (do urls <- GeminiApiMore.generateDirectImages prompt negativePrompt
                    (direct_aspect_ratio formData) batchSize;
       ret (mkDirectState urls fresh_arr None
              (Some (CompositionMode.mkPromptUsed fresh_obj prompt now))))
      (fun _ =>
         ret (mkDirectState [] fresh_arr
                (Some (js "Failed to generate images.")) None)).

Record Component := mkComponent {
  displayImages : list jsstring;
  directState : DirectFormState;
  recentDirectPrompts : list jsstring;
  (* props handed down by App.tsx *)
  props_history : list HistoryItem;
  props_negativePrompt : jsstring;
  props_aspectRatio : AspectRatio
}.

Definition initialFormState : DirectFormState := mkDirectState [] 0 None None.

Definition effect_promptUsed (c : Component) : Component :=
  match promptUsed (directState c) with
  | Some used =>
      mkComponent (displayImages c) (directState c)
        (DirectGenerationMode.recentPromptsUpdater
           (CompositionMode.pu_prompt used) (recentDirectPrompts c))
        (props_history c) (props_negativePrompt c) (props_aspectRatio c)
  | None => c
  end.

Definition effect_images (clock : nat -> Z) (c : Component) : Component :=
  let shown := images (directState c) in
  let history' :=
    match promptUsed (directState c) with
    | Some used =>
        if 0 <? Z.of_nat (length shown) then
          DirectGenerationMode.historyUpdater
            (DirectGenerationMode.newHistoryItems clock shown
               (CompositionMode.pu_prompt used) (props_negativePrompt c)
               (props_aspectRatio c))
            (props_history c)
        else props_history c
    | None => props_history c
    end in
  mkComponent shown (directState c) (recentDirectPrompts c) history'
    (props_negativePrompt c) (props_aspectRatio c).

(** The render that follows the settlement of the action. *)
Definition direct_settled (clock : nat -> Z) (next : DirectFormState)
    (c : Component) : Component :=
  let old := directState c in
  let c1 := mkComponent (displayImages c) next (recentDirectPrompts c)
              (props_history c) (props_negativePrompt c)
              (props_aspectRatio c) in
  let c2 := if CompositionMode.same_ref (promptUsed old) (promptUsed next)
            then c1 else effect_promptUsed c1 in
  if (images_ref old =? images_ref next)%nat then c2
  else effect_images clock c2.

Definition submit_direct (fresh_obj fresh_arr : nat) (now : Z)
    (clock : nat -> Z) (formData : DirectFormData) (c : Component)
    : Async Component :=
  do next <- generateDirectAction fresh_obj fresh_arr now (directState c)
               formData;
  ret (direct_settled clock next c).

End DirectGeneration.

(** ** App.tsx *)

(** The negative prompt recorded in a history entry. *)
Definition item_negativePrompt (item : HistoryItem) : jsstring :=
  negativePrompt item.

Module App.

Record AppState := mkApp {
  mode : AppMode;
  templatePrompt : jsstring;
  subjectPrompt : jsstring;
  directPrompt : jsstring;
  negativePrompt : jsstring;
  compAspectRatio : AspectRatio;
  directAspectRatio : AspectRatio;
  batchSize : Z;
  history : list HistoryItem;
  isHistoryOpen : bool
}.

Definition handleReuseHistoryItem (item : HistoryItem) (s : AppState)
    : AppState :=
  match type item with
  | HTemplate =>
      mkApp ModeComposition (prompt item) (subjectPrompt s) (directPrompt s)
        (item_negativePrompt item) (aspectRatio item) (directAspectRatio s)
        (batchSize s) (history s) false
  | HFinal =>
      mkApp ModeComposition (templatePrompt s) (prompt item) (directPrompt s)
        (item_negativePrompt item) (aspectRatio item) (directAspectRatio s)
        (batchSize s) (history s) false
  | HDirect =>
      mkApp ModeDirect (templatePrompt s) (subjectPrompt s) (prompt item)
        (item_negativePrompt item) (compAspectRatio s) (aspectRatio item)
        (batchSize s) (history s) false
  end.

Definition handleDeleteHistoryItem (i : Z) (s : AppState) : AppState :=
  mkApp (mode s) (templatePrompt s) (subjectPrompt s) (directPrompt s)
    (negativePrompt s) (compAspectRatio s) (directAspectRatio s)
    (batchSize s) (filter (fun item => id item <> i) (history s))
    (isHistoryOpen s).

Definition handleClearHistory (s : AppState) : AppState :=
  mkApp (mode s) (templatePrompt s) (subjectPrompt s) (directPrompt s)
    (negativePrompt s) (compAspectRatio s) (directAspectRatio s)
    (batchSize s) [] (isHistoryOpen s).

End App.

(** ** hooks/useLocalStorage.ts *)

Module UseLocalStorage.

Section Hook.

(** The stored type with [JSON.stringify] and [JSON.parse] on it;
    [parse] is [None] where [JSON.parse] throws. *)
Variable T : Type.
Variable stringify : T -> jsstring.
Variable parse : jsstring -> option T.

(** The initialiser of [useState], given the items of
    [window.localStorage] and whether reading them throws: the parsed
    item; the initial value when there is no item, when the item is the
    empty string, or when reading or parsing throws. *)
Definition initialise (read_throws : bool) (items : gmap jsstring jsstring)
    (key : jsstring) (initialValue : T) : T :=
  if read_throws then initialValue
  else match items !! key with
       | Some item =>
           if truthy_str item then default initialValue (parse item)
           else initialValue
       | None => initialValue
       end.

(** The hook instance: the React state and the storage. *)
Record Hook := mkHook {
  storedValue : T;
  items : gmap jsstring jsstring
}.

(** [setValue] as created by the render that saw [rendered]: a function
    argument is applied to that value; the state is set before the
    storage is written, and a write that throws is swallowed. *)
Definition setValue (key : jsstring) (rendered : T) (value : T + (T -> T))
    (write_throws : bool) (h : Hook) : Hook :=
  let valueToStore :=
    match value with
    | inl v => v
    | inr f => f rendered
    end in
  mkHook valueToStore
    (if write_throws then items h
     else <[key := stringify valueToStore]> (items h)).

(** A page reload: the state is initialised again from the storage. *)
Definition remount (read_throws : bool) (key : jsstring) (initialValue : T)
    (h : Hook) : Hook :=
  mkHook (initialise read_throws (items h) key initialValue) (items h).

End Hook.

End UseLocalStorage.

(** ** components/shared/StockImageSearcher.tsx *)

Module StockImageSearcher.

Record SearchFormState := mkSearchState {
  images : list StockApi.Element;
  error : option jsstring;
  query : jsstring
}.

Record SearchFormData := mkSearchForm {
  search_query : option jsstring;
  form_orientation : StockImageOrientation;
  form_color : jsstring
}.

(** [shuffle] is what [results.sort(() => Math.random() - 0.5)] leaves in
    the array. *)
Definition searchAction
    (shuffle : list StockApi.Element -> list StockApi.Element)
    (eng : Engine) (previousState : SearchFormState)
    (formData : SearchFormData) : Async SearchFormState :=
  if negb (truthy (search_query formData)) then
    ret (mkSearchState [] None [])
  else
    let q := default [] (search_query formData) in
    try_catch
      (do results <- StockApi.searchAllStockSites
                       (mkSearch q (form_orientation formData)
                          (form_color formData));
       if (Z.of_nat (length results) =? 0) then
         ret (mkSearchState []
                (Some (js "No results found for your search.")) q)
       else ret (mkSearchState (shuffle results) None q))
      (fun e =>
         ret (mkSearchState []
                (Some (js "Failed to search for images: "
                         ++ Caught.error_message eng e)) q)).

End StockImageSearcher.

(** ** Canvas: clearing and cropping *)

Module CanvasMore.

(** [ctx.clearRect(x, y, w, h)]: the pixels of the rectangle become
    transparent black. *)
Definition clearRect (x y w h : Z) (ctx : Context2D) : Context2D :=
  let c := target ctx in
  mkContext
    (mkBitmap (width c) (height c)
       (fun px py => if inside x y w h px py then transparent
                     else pixel c px py))
    (fillStyle ctx) (globalCompositeOperation ctx).

(** [clearMask] of the advanced editor. *)
Definition clearMask (maskCanvasRef : option bitmap) : option bitmap :=
  match maskCanvasRef with
  | Some canvas =>
      Some (target (clearRect 0 0 (width canvas) (height canvas)
                      (getContext canvas)))
  | None => None
  end.

Record PixelCrop := mkCrop {
  crop_x : Z; crop_y : Z; crop_width : Z; crop_height : Z
}.

(** [ctx.drawImage(image, sx, sy, sw, sh, dx, dy, dw, dh)] with
    [sw = dw] and [sh = dh], as [getCroppedImg] calls it: no
    resampling; the part of the source rectangle that lies outside the
    image draws nothing. *)
Definition drawImageRegion (img : bitmap) (sx sy sw sh dx dy : Z)
    (ctx : Context2D) : Context2D :=
  if (width img <=? 0) || (height img <=? 0) || (sw =? 0) || (sh =? 0)
  then ctx
  else paint (fun px py =>
                if inside dx dy sw sh px py
                   && in_bounds img (px - dx + sx) (py - dy + sy)
                then Some (pixel img (px - dx + sx) (py - dy + sy))
                else None)
             ctx.

(** A canvas keeps every pixel premultiplied by its alpha, in 8 bits
    per channel, and [toDataURL] divides the colour by the alpha again.
    Both steps round (to the nearest integer here), so a pixel that is
    neither opaque nor fully transparent does not come back as it was
    drawn, and a fully transparent one comes back without its colour. *)
Definition premultiply (p : rgba) : rgba :=
  mkRgba (round_div (red p * alpha p) 255) (round_div (green p * alpha p) 255)
    (round_div (blue p * alpha p) 255) (alpha p).

Definition unpremultiply (p : rgba) : rgba :=
  if alpha p =? 0 then transparent
  else mkRgba (round_div (red p * 255) (alpha p))
         (round_div (green p * 255) (alpha p))
         (round_div (blue p * 255) (alpha p)) (alpha p).

(** [canvas.toDataURL('image/png')], as the bitmap the PNG holds. *)
Definition toDataURL (canvas : bitmap) : bitmap :=
  mkBitmap (width canvas) (height canvas)
    (fun px py => unpremultiply (premultiply (pixel canvas px py))).

(** [getCroppedImg], once the image has loaded: the image its data URL
    encodes. *)
Definition getCroppedImg (image : bitmap) (crop : PixelCrop) : bitmap :=
  let canvas := createCanvas (crop_width crop) (crop_height crop) in
  let ctx := getContext canvas in
  toDataURL (target (drawImageRegion image (crop_x crop) (crop_y crop)
                       (crop_width crop) (crop_height crop) 0 0 ctx)).

End CanvasMore.

(** ** Sequences of store actions *)

Module StoreRuns.

Inductive Action :=
| AddToHistory (newItem : HistoryItem + list HistoryItem)
| DeleteHistoryItem (i : Z)
| ClearHistory
| AddRecentTemplatePrompt (p : jsstring)
| AddRecentSubjectPrompt (p : jsstring)
| AddRecentDirectPrompt (p : jsstring).

Definition apply (st : Store.StoreState) (a : Action) : Store.StoreState :=
  match a with
  | AddToHistory newItem => Store.addToHistory newItem st
  | DeleteHistoryItem i => Store.deleteHistoryItem i st
  | ClearHistory => Store.clearHistory st
  | AddRecentTemplatePrompt p => Store.addRecentTemplatePrompt p st
  | AddRecentSubjectPrompt p => Store.addRecentSubjectPrompt p st
  | AddRecentDirectPrompt p => Store.addRecentDirectPrompt p st
  end.

Definition run_actions (st : Store.StoreState) (acts : list Action)
    : Store.StoreState :=
  foldl apply st acts.

(** The initial state of the store: empty history and recent lists, the
    default prompts. *)
Definition initialStore : Store.StoreState :=
  Store.mkStore [] [] [] []
    (js "A professional photo scene. A minimalist office desk with a laptop and a coffee cup sits by a window with soft morning light.")
    (js "Add a new smartphone displaying a colorful chart on the desk.")
    (js "A minimalist, flat vector logo of a brain made of circuits, vibrant blue and green gradient, on a clean white background.").

(** The bounds the store keeps. *)
Definition within_caps (st : Store.StoreState) : Prop :=
  (length (Store.history st) <= 50)%nat
  /\ recent_list 10 (Store.recentTemplatePrompts st)
  /\ recent_list 10 (Store.recentSubjectPrompts st)
  /\ recent_list 10 (Store.recentDirectPrompts st).

End StoreRuns.

(** ** Further requests and concrete states *)

Module MoreRequests.

(** The request of [generateDirectImages] for a submitted form. *)
Definition direct_request (fd : DirectGeneration.DirectFormData)
    : GenerateImagesParameters :=
  let prompt := default [] (DirectGeneration.direct_prompt fd) in
  let negativePrompt := default [] (DirectGeneration.negative_prompt fd) in
  mkGenerateImages (js "imagen-4.0-generate-001")
    (if truthy_str negativePrompt then GeminiApi.avoid prompt negativePrompt
     else prompt)
    (DirectGeneration.or_one (DirectGeneration.batch_size fd))
    (DirectGeneration.direct_aspect_ratio fd).

End MoreRequests.

Import MoreRequests.

Module MoreSamples.

Definition style_file : File := mkFile 2048 (js "style.png").

(** A complete stage-2 form with a style reference. *)
Definition final_form_with_style : CompositionMode.FinalFormData :=
  CompositionMode.mkFinalForm (Some (js "a red bicycle")) (Some [])
    (Some png_a) (Some style_file).

Definition edit_form : ImageEditor.EditFormData :=
  ImageEditor.mkEditForm (Some (js "make it blue")) (Some png_a) (Some []).

Definition edit_idle : ImageEditor.EditFormState :=
  ImageEditor.mkEditState None None.

(** A direct form asking for a batch of "0" images. *)
Definition direct_form : DirectGeneration.DirectFormData :=
  DirectGeneration.mkDirectForm (Some (js "a logo")) (Some []) AR_1_1
    (Some 0).

(** A direct form whose negative prompt and aspect ratio are not those
    of [direct_component] below. *)
Definition direct_form_portrait : DirectGeneration.DirectFormData :=
  DirectGeneration.mkDirectForm (Some (js "a logo")) (Some (js "text"))
    AR_9_16 (Some 1).

(** A direct component showing two images of an earlier batch. *)
Definition direct_component : DirectGeneration.Component :=
  DirectGeneration.mkComponent [js "old-1"; js "old-2"]
    (DirectGeneration.mkDirectState [js "old-1"; js "old-2"] 1 None
       (Some (CompositionMode.mkPromptUsed 1 (js "earlier") 1600000000000)))
    [js "earlier"] history_321 [] AR_1_1.

(** The image model answers with an empty batch. *)
Definition world_empty_batch : World :=
  mkWorld
    (fun _ _ => Fulfilled (mkImagesResponse []))
    (fun _ _ => Rejected (ErrorObj (js "unavailable")))
    (fun _ _ => Rejected ThrownValue)
    (fun _ _ _ => Rejected ThrownValue)
    (fun n => n).

(** A session in which the displayed template is the selected one. *)
Definition selected_session : CompositionHandlers.Session :=
  CompositionHandlers.initialSession
    (CompositionMode.mkComponent (Some png_a) (Some png_a) None
       (CompositionMode.mkFormState (Some png_a) None
          (Some (CompositionMode.mkPromptUsed 1 (js "P1") 1000)))
       CompositionMode.initialFormState [js "P1"] [] [] [] AR_16_9).

(** A failed generation, a failed stock conversion, a crop and a final
    image. *)
Definition eventful_run : list CompositionHandlers.Event :=
  [CompositionHandlers.TemplateSettled 2001 2001
     (CompositionMode.mkFormState None
        (Some (js "Failed to generate template image.")) None);
   CompositionHandlers.StockImageSelected (Rejected ThrownValue) (js "cats")
     3001 3001;
   CompositionHandlers.OpenCrop CompositionHandlers.KTemplate;
   CompositionHandlers.CropSaved (js "data:image/png;base64,CROP");
   CompositionHandlers.FinalSettled 4001 4001
     (CompositionMode.mkFormState (Some (js "data:image/png;base64,FINAL"))
        None (Some (CompositionMode.mkPromptUsed 2 (js "a cat") 4000)))].

(** A store whose recent template prompts hold a string twice, and
    whose recent subject prompts hold none twice. *)
Definition store_xyx : Store.StoreState :=
  Store.mkStore [] [js "x"; js "y"; js "x"] [js "a"; js "b"] [] [] [] [].

(** Prompts of white space only, with a negative prompt typed in. *)
Definition blank_prompts : CompositionHandlers.Prompts :=
  CompositionHandlers.mkPrompts (js "  ") (js "   ") (js "blurry") false
    false false.

(** JSON text of a string of plain characters (nothing to escape), and
    its parser. *)
Definition json_of_text (s : jsstring) : jsstring := [quote] ++ s ++ [quote].

Definition text_of_json (t : jsstring) : option jsstring :=
  match t with
  | c :: r =>
      if (c =? quote)%N then
        match rev r with
        | c' :: r' => if (c' =? quote)%N then Some (rev r') else None
        | [] => None
        end
      else None
  | [] => None
  end.

(** A settled stage-2 success. *)
Definition final_success : CompositionMode.FinalImageFormState :=
  CompositionMode.mkFormState (Some (js "data:image/png;base64,FINAL")) None
    (Some (CompositionMode.mkPromptUsed 2 (js "a cat") 4000)).

End MoreSamples.

Import MoreSamples.

(** * Properties *)

(** ** Facts about the JavaScript operations *)

Lemma slice_0 {A} (n : Z) (l : list A) :
  0 <= n -> slice 0 n l = take (Z.to_nat n) l.
Proof.
  intros Hn. unfold slice, rel_index.
  change (0 <? 0) with false. cbn iota.
  destruct (n <? 0) eqn:E; [apply Z.ltb_lt in E; lia|].
  rewrite (Z.min_l 0) by lia. change (Z.to_nat 0) with 0%nat.
  rewrite drop_0, Z.sub_0_r.
  destruct (Z.le_ge_cases n (Z.of_nat (length l))) as [H|H].
  - rewrite Z.min_l by lia. reflexivity.
  - rewrite Z.min_r by lia. rewrite Nat2Z.id.
    rewrite !take_ge by lia. reflexivity.
Qed.

Lemma slice_0_length {A} (n : Z) (l : list A) :
  0 <= n -> Z.of_nat (length (slice 0 n l)) <= n.
Proof.
  intros Hn. rewrite slice_0 by assumption. rewrite length_take. lia.
Qed.

(** ** The monad of asynchronous functions *)

Lemma bind_ret_l {A B} (a : A) (k : A -> Async B) (w : World)
    (log : list Call) :
  bind (ret a) k w log = k a w log.
Proof. reflexivity. Qed.

Lemma bind_ret_r {A} (m : Async A) (w : World) (log : list Call) :
  bind m ret w log = m w log.
Proof. unfold bind, ret. destruct (m w log) as [[a|e] log']; reflexivity. Qed.

Lemma bind_assoc {A B C} (m : Async A) (k : A -> Async B)
    (k' : B -> Async C) (w : World) (log : list Call) :
  bind (bind m k) k' w log = bind m (fun a => bind (k a) k') w log.
Proof. unfold bind. destruct (m w log) as [[a|e] log']; reflexivity. Qed.

(** A rejection skips the rest of the function and dispatches nothing
    further. *)
Lemma bind_throw {A B} (e : JsError) (k : A -> Async B) (w : World)
    (log : list Call) :
  bind (throw e) k w log = (Rejected e, log).
Proof. reflexivity. Qed.

(** ** The recency store *)

Section RecencyStore.

(** *** Recent prompts, for any cap of at least one *)

Variable cap : Z.
Hypothesis cap_pos : 1 <= cap.

(** The expression every slice and component uses. *)
Let recent_insert (p : jsstring) (l : list jsstring) : list jsstring :=
  slice 0 cap (p :: filter (fun q => q <> p) l).

Lemma filter_remove_occurrences (p : jsstring) (l : list jsstring) :
  filter (fun q => q <> p) l = remove_occurrences p l.
Proof.
  induction l as [|q rest IH]; [reflexivity|].
  cbn [remove_occurrences]. destruct (decide (q = p)) as [->|Hne].
  - rewrite filter_cons_False by (intros H; apply H; reflexivity). exact IH.
  - rewrite filter_cons_True by exact Hne. now rewrite IH.
Qed.

Lemma filter_shrinks (p : jsstring) (l : list jsstring) :
  p ∈ l -> (length (filter (fun q => q <> p) l) < length l)%nat.
Proof.
  intros Hin. apply (length_filter_lt (fun q => q <> p) l p Hin).
  intros H. now apply H.
Qed.

Lemma not_in_truncated_filter (n : nat) (p : jsstring) (l : list jsstring) :
  p ∉ take n (filter (fun q => q <> p) l).
Proof.
  intros Hin. apply elem_of_take in Hin as (i & Hi & _).
  apply list_elem_of_lookup_2 in Hi.
  apply list_elem_of_filter in Hi as [Hne _]. now apply Hne.
Qed.

Lemma recent_insert_generic (p : jsstring) (l : list jsstring) :
  recent_insert p l = recent_insert_spec (Z.to_nat cap) p l
  /\ (recent_insert p l !! 0%nat) = Some p
  /\ (p ∉ drop 1 (recent_insert p l))
  /\ (length (recent_insert p l) <= Z.to_nat cap)%nat
  /\ (p ∈ l -> (length (recent_insert p l) <= length l)%nat)
  /\ (NoDup l -> NoDup (recent_insert p l)).
Proof.
  unfold recent_insert. rewrite slice_0 by lia.
  destruct (Z.to_nat cap) as [|n] eqn:En; [lia|].
  cbn [take]. repeat split.
  - unfold recent_insert_spec. cbn [take].
    now rewrite filter_remove_occurrences.
  - cbn [drop]. apply not_in_truncated_filter.
  - cbn [length]. rewrite length_take. lia.
  - intros Hin. cbn [length]. rewrite length_take.
    pose proof (filter_shrinks p l Hin). lia.
  - intros Hnd. apply NoDup_cons_2; [apply not_in_truncated_filter|].
    apply (sublist_NoDup _ (filter (fun q => q <> p) l));
      [now apply list.NoDup_filter | apply sublist_take].
Qed.

(** A re-inserted string pushes nothing off the end. *)
Lemma recent_insert_keeps_others (p : jsstring) (l : list jsstring) :
  p ∈ l -> (length l <= Z.to_nat cap)%nat ->
  recent_insert p l = p :: filter (fun q => q <> p) l.
Proof.
  intros Hin Hlen. unfold recent_insert. rewrite slice_0 by lia.
  apply take_ge. cbn [length]. pose proof (filter_shrinks p l Hin). lia.
Qed.

(** Every list a slice can hold is a recent-prompt list: it starts
    empty and changes by insertion only. *)
Lemma recent_list_nil : recent_list (Z.to_nat cap) [].
Proof. split; [constructor | cbn; lia]. Qed.

Lemma recent_list_insert (p : jsstring) (l : list jsstring) :
  recent_list (Z.to_nat cap) l -> recent_list (Z.to_nat cap) (recent_insert p l).
Proof.
  intros [Hnd _].
  destruct (recent_insert_generic p l) as (_ & _ & _ & Hl & _ & Hn).
  split; [now apply Hn | exact Hl].
Qed.

Lemma built_by_inserts_recent (l : list jsstring) :
  built_by_inserts cap l -> recent_list (Z.to_nat cap) l.
Proof.
  induction 1 as [|p l _ IH].
  - apply recent_list_nil.
  - now apply recent_list_insert.
Qed.

End RecencyStore.

(** C7. Recent-prompt insert ([addRecentTemplatePrompt] and
    [addRecentSubjectPrompt] of the store, cap 10, and the updater the
    composition component hands to [setRecentTemplatePrompts] and
    [setRecentSubjectPrompts], cap 5): removes every occurrence of the
    inserted string, prepends it and truncates to the cap.  Consequently
    the string is at the front and occurs nowhere else; when the list
    already contains the string, the result is no longer than the list;
    and the result has no duplicates provided the list had none before
    (as every list built from the empty one by inserts has): other strings
    that the list held twice are still there twice. *)
Theorem recent_prompt_insert (p : jsstring) (st : Store.StoreState)
    (prev : list jsstring) :
  let t := Store.recentTemplatePrompts st in
  let t' := Store.recentTemplatePrompts (Store.addRecentTemplatePrompt p st) in
  let u := Store.recentSubjectPrompts st in
  let u' := Store.recentSubjectPrompts (Store.addRecentSubjectPrompt p st) in
  let m' := CompositionMode.recentPromptsUpdater p prev in
  (t' = recent_insert_spec 10 p t /\ u' = recent_insert_spec 10 p u
   /\ m' = recent_insert_spec 5 p prev)
  /\ ((t' !! 0%nat) = Some p /\ (p ∉ drop 1 t')
      /\ (u' !! 0%nat) = Some p /\ (p ∉ drop 1 u')
      /\ (m' !! 0%nat) = Some p /\ (p ∉ drop 1 m'))
  /\ (p ∈ t ->
      (length t' <= length t)%nat /\ (t' !! 0%nat) = Some p
      /\ (NoDup t -> NoDup t'))
  /\ (p ∈ u ->
      (length u' <= length u)%nat /\ (u' !! 0%nat) = Some p
      /\ (NoDup u -> NoDup u'))
  /\ (p ∈ prev ->
      (length m' <= length prev)%nat /\ (m' !! 0%nat) = Some p
      /\ (NoDup prev -> NoDup m')).
Proof.
  intros t t' u u' m'.
  destruct (recent_insert_generic 10 ltac:(lia) p t)
    as (Hs & Hh & Ho & _ & Hl & Hn).
  destruct (recent_insert_generic 10 ltac:(lia) p u)
    as (Hs2 & Hh2 & Ho2 & _ & Hl2 & Hn2).
  destruct (recent_insert_generic 5 ltac:(lia) p prev)
    as (Hs' & Hh' & Ho' & _ & Hl' & Hn').
  split; [split; [exact Hs | split; [exact Hs2 | exact Hs']]|].
  split; [repeat split; assumption|].
  split; [|split]; intros Hin.
  - split; [now apply Hl | split; [exact Hh | exact Hn]].
  - split; [now apply Hl2 | split; [exact Hh2 | exact Hn2]].
  - split; [now apply Hl' | split; [exact Hh' | exact Hn']].
Qed.

(** C7 as the specification states it, for every list, fails on a list
    that holds another string twice: inserting "y" into ["x"; "y"; "x"],
    which contains "y", leaves the two "x" in place. *)
Lemma recent_prompt_insert_counterexample :
  js "y" ∈ Store.recentTemplatePrompts store_xyx
  /\ (1 <= length (Store.recentTemplatePrompts store_xyx))%nat
  /\ Store.recentTemplatePrompts
       (Store.addRecentTemplatePrompt (js "y") store_xyx)
     = [js "y"; js "x"; js "x"]
  /\ ~ NoDup (Store.recentTemplatePrompts
                (Store.addRecentTemplatePrompt (js "y") store_xyx))
  /\ CompositionMode.recentPromptsUpdater (js "y") [js "x"; js "y"; js "x"]
     = [js "y"; js "x"; js "x"]
  /\ ~ NoDup (CompositionMode.recentPromptsUpdater (js "y")
                [js "x"; js "y"; js "x"]).
Proof.
  assert (Hdup : ~ NoDup [js "y"; js "x"; js "x"]).
  { intros H. apply NoDup_cons_1_2, NoDup_cons_1_1 in H.
    apply H. apply list_elem_of_here. }
  split; [apply list_elem_of_further, list_elem_of_here|].
  split; [cbn; lia|].
  split; [reflexivity|]. split; [exact Hdup|].
  split; [reflexivity | exact Hdup].
Qed.

(** *** History *)

Lemma filter_all {A} (P : A -> Prop) `{forall x, Decision (P x)}
    (l : list A) :
  (forall x, x ∈ l -> P x) -> filter P l = l.
Proof.
  induction l as [|x l IH]; intros Hall; [reflexivity|].
  rewrite filter_cons_True by (apply Hall; left).
  f_equal. apply IH. intros y Hy. apply Hall. now right.
Qed.

Lemma history_append_generic (cap : Z) (items old : list HistoryItem) :
  0 <= cap ->
  let h' := slice 0 cap (items ++ old) in
  h' = take (Z.to_nat cap) (items ++ old)
  /\ h' `prefix_of` (items ++ old)
  /\ length h' = Nat.min (Z.to_nat cap) (length items + length old)
  /\ (forall i : nat, (i < Z.to_nat cap)%nat -> h' !! i = (items ++ old) !! i)
  /\ (forall (i : nat) e,
        h' !! (length items + i)%nat = Some e -> old !! i = Some e).
Proof.
  intros Hcap h'. subst h'. rewrite slice_0 by assumption.
  split; [reflexivity|]. split; [apply prefix_take|].
  split; [rewrite length_take, length_app; reflexivity|].
  split.
  - intros i Hi. now apply lookup_take_lt.
  - intros i e Hlook. apply lookup_take_Some in Hlook as [Hlook _].
    rewrite lookup_app_r in Hlook by lia.
    now replace (length items + i - length items)%nat with i in Hlook by lia.
Qed.

(** C8. History append ([addToHistory] of the store, cap 50; the updaters
    of the direct and composition components, cap 5): the new entries are
    prepended and the list is cut to the cap, so the result is the longest
    prefix of at most cap entries of "new entries, then old entries", in
    that order; when the cap is below the number of entries (existing plus
    new) the result has exactly cap entries, the most recent ones; every
    old entry that survives is the old entry itself, shifted by the size
    of the batch. *)
Theorem history_append_truncates (st : Store.StoreState)
    (items prev : list HistoryItem) (item : HistoryItem) :
  let old := Store.history st in
  let h' := Store.history (Store.addToHistory (inr items) st) in
  let d' := DirectGenerationMode.historyUpdater items prev in
  (h' = take 50 (items ++ old)
   /\ h' `prefix_of` (items ++ old)
   /\ ((50 < length items + length old)%nat ->
       length h' = 50%nat /\ forall i : nat, (i < 50)%nat -> h' !! i = (items ++ old) !! i)
   /\ (forall (i : nat) e,
         h' !! (length items + i)%nat = Some e -> old !! i = Some e))
  /\ (d' = take 5 (items ++ prev)
      /\ d' `prefix_of` (items ++ prev)
      /\ ((5 < length items + length prev)%nat ->
          length d' = 5%nat /\ forall i : nat, (i < 5)%nat -> d' !! i = (items ++ prev) !! i)
      /\ (forall (i : nat) e,
            d' !! (length items + i)%nat = Some e -> prev !! i = Some e))
  /\ Store.addToHistory (inl item) st = Store.addToHistory (inr [item]) st
  /\ CompositionMode.historyUpdater item prev
     = DirectGenerationMode.historyUpdater [item] prev.
Proof.
  intros old h' d'.
  destruct (history_append_generic 50 items old ltac:(lia))
    as (Ht & Hp & Hl & Hi & Ho).
  destruct (history_append_generic 5 items prev ltac:(lia))
    as (Ht' & Hp' & Hl' & Hi' & Ho').
  split; [|split; [|split; reflexivity]].
  - split; [exact Ht|]. split; [exact Hp|]. split; [|exact Ho].
    intros Hbig. split; [|exact Hi].
    change (length (slice 0 50 (items ++ old)) = 50%nat).
    rewrite Hl. change (Z.to_nat 50) with 50%nat. lia.
  - split; [exact Ht'|]. split; [exact Hp'|]. split; [|exact Ho'].
    intros Hbig. split; [|exact Hi'].
    change (length (slice 0 5 (items ++ prev)) = 5%nat).
    rewrite Hl'. change (Z.to_nat 5) with 5%nat. lia.
Qed.

(** The batch the direct mode prepends holds one entry per generated
    image, in the order of the images. *)
Lemma newHistoryItems_images (clock : nat -> Z) (images : list jsstring)
    (usedPrompt neg : jsstring) (ar : AspectRatio) :
  image <$> DirectGenerationMode.newHistoryItems clock images usedPrompt neg ar
  = images.
Proof.
  unfold DirectGenerationMode.newHistoryItems. apply list_eq. intros i.
  rewrite list_lookup_fmap, list_lookup_imap.
  destruct (images !! i); reflexivity.
Qed.

(** C9. Delete-by-id on a history whose ids are pairwise distinct removes
    the single entry with that id and nothing else, leaving the other
    entries as they are and in their order; with no such entry the history
    is unchanged; clear empties the history whatever it held. *)
Theorem delete_by_id_removes_one (st : Store.StoreState) (i : Z) :
  let h := Store.history st in
  let h' := Store.history (Store.deleteHistoryItem i st) in
  NoDup (id <$> h) ->
  ((forall e, e ∈ h -> id e <> i) -> h' = h)
  /\ (forall e, e ∈ h -> id e = i ->
        exists l1 l2, h = l1 ++ e :: l2 /\ h' = l1 ++ l2)
  /\ Store.history (Store.clearHistory st) = [].
Proof.
  intros h h' Hnd. split; [|split; [|reflexivity]].
  - intros Hno.
    change (filter (fun item => id item <> i) h = h). now apply filter_all.
  - intros e Hin He.
    destruct (list_elem_of_split _ _ Hin) as (l1 & l2 & Hsplit).
    exists l1, l2. split; [exact Hsplit|].
    change (filter (fun item => id item <> i) h = l1 ++ l2).
    rewrite Hsplit in Hnd |- *.
    rewrite fmap_app, fmap_cons in Hnd.
    apply list.NoDup_app in Hnd as (_ & Hl1 & Hnd).
    apply list.NoDup_cons in Hnd as [Hl2 _].
    rewrite list.filter_app, filter_cons_False by (intros H; now apply H).
    rewrite !filter_all; [reflexivity| |].
    + intros x Hx Hid. apply Hl2. rewrite He, <- Hid.
      now apply list_elem_of_fmap_2.
    + intros x Hx Hid. apply (Hl1 (id x)).
      * now apply list_elem_of_fmap_2.
      * rewrite Hid, <- He. left.
Qed.

(** *** The store's claims at concrete states *)

Lemma recent_prompt_insert_witness :
  (js "b" ∈ [js "a"; js "b"] /\ NoDup [js "a"; js "b"])
  /\ Store.recentTemplatePrompts
       (Store.addRecentTemplatePrompt (js "b") store_ab)
     = [js "b"; js "a"]
  /\ NoDup (Store.recentTemplatePrompts
              (Store.addRecentTemplatePrompt (js "b") store_ab))
  /\ Store.recentSubjectPrompts
       (Store.addRecentSubjectPrompt (js "b") store_xyx)
     = [js "b"; js "a"]
  /\ NoDup (Store.recentSubjectPrompts
              (Store.addRecentSubjectPrompt (js "b") store_xyx))
  /\ CompositionMode.recentPromptsUpdater (js "b") [js "a"; js "b"]
     = [js "b"; js "a"]
  /\ NoDup (CompositionMode.recentPromptsUpdater (js "b") [js "a"; js "b"]).
Proof.
  assert (Hin : js "b" ∈ [js "a"; js "b"]) by (right; left).
  assert (Hnd : NoDup [js "a"; js "b"])
    by (apply (bool_decide_unpack _); vm_compute; exact I).
  destruct (recent_prompt_insert (js "b") store_ab [js "a"; js "b"])
    as ((Hstore_eq & _ & Hcomp_eq) & _ & Hstore & _ & Hcomp).
  destruct (recent_prompt_insert (js "b") store_xyx [])
    as ((_ & Hsubject_eq & _) & _ & _ & Hsubject & _).
  destruct (Hstore Hin) as (_ & _ & Hstore_nd).
  destruct (Hsubject Hin) as (_ & _ & Hsubject_nd).
  destruct (Hcomp Hin) as (_ & _ & Hcomp_nd).
  split; [split; assumption|].
  split; [rewrite Hstore_eq; reflexivity|].
  split; [exact (Hstore_nd Hnd)|].
  split; [rewrite Hsubject_eq; reflexivity|].
  split; [exact (Hsubject_nd Hnd)|].
  split; [rewrite Hcomp_eq; reflexivity | exact (Hcomp_nd Hnd)].
Defined.

Lemma history_append_truncates_witness :
  (5 < length batch_987 + length history_321)%nat
  /\ length (DirectGenerationMode.historyUpdater batch_987 history_321) = 5%nat
  /\ DirectGenerationMode.historyUpdater batch_987 history_321
     = [item_of 9; item_of 8; item_of 7; item_of 3; item_of 2].
Proof.
  assert (Hbig : (5 < length batch_987 + length history_321)%nat)
    by (vm_compute; lia).
  destruct (history_append_truncates store_ab batch_987 history_321 (item_of 9))
    as (_ & (Htake & _ & Hcap & _) & _).
  destruct (Hcap Hbig) as [Hlen _].
  split; [exact Hbig|]. split; [exact Hlen|].
  rewrite Htake. reflexivity.
Defined.

Lemma delete_by_id_removes_one_witness :
  NoDup (id <$> Store.history store_ab)
  /\ exists l1 l2,
       Store.history store_ab = l1 ++ item_of 2 :: l2
       /\ Store.history (Store.deleteHistoryItem 2 store_ab) = l1 ++ l2.
Proof.
  assert (Hnd : NoDup (id <$> Store.history store_ab))
    by (apply (bool_decide_unpack _); vm_compute; exact I).
  split; [exact Hnd|].
  destruct (delete_by_id_removes_one store_ab 2 Hnd) as (_ & Hrem & _).
  apply (Hrem (item_of 2)).
  - right; left.
  - reflexivity.
Defined.

(** ** The provider aggregator *)

Lemma flat_map_keep (results : list (outcome StockValue)) :
  flat_map StockApi.value_of (List.filter StockApi.keep results)
  = StockApi.Image <$> fulfilled_union results.
Proof.
  unfold fulfilled_union, fulfilled_lists.
  induction results as [|r rs IH]; [reflexivity|].
  destruct r as [[images|]|e]; cbn [List.filter StockApi.keep]; [|exact IH..].
  cbn [flat_map StockApi.value_of]. rewrite IH.
  change (concat (omap ?f (Fulfilled (VArray images) :: rs)))
    with (images ++ concat (omap f rs)).
  now rewrite fmap_app.
Qed.

Lemma searchAllStockSites_run (w : World) (params : SearchParams)
    (log : list Call) :
  StockApi.searchAllStockSites params w log
  = (Fulfilled
       (StockApi.Image
          <$> fulfilled_union
                [searchProvider w (length log) Pexels params;
                 searchProvider w (S (length log)) Unsplash params;
                 searchProvider w (S (S (length log))) Pixabay params]),
     log ++ [SearchProvider Pexels params; SearchProvider Unsplash params;
             SearchProvider Pixabay params]).
Proof.
  rewrite <- flat_map_keep.
  unfold StockApi.searchAllStockSites, call_searchProvider, dispatch, bind, ret.
  cbv beta iota zeta. rewrite !length_app. cbn [length].
  replace (length log + 1)%nat with (S (length log)) by lia.
  replace (S (length log) + 1)%nat with (S (S (length log))) by lia.
  rewrite <- !app_assoc. reflexivity.
Qed.

Lemma elem_of_fulfilled_union (results : list (outcome StockValue))
    (x : UnifiedStockImage) :
  x ∈ fulfilled_union results
  <-> exists r l, r ∈ results /\ r = Fulfilled (VArray l) /\ x ∈ l.
Proof.
  unfold fulfilled_union. rewrite list_elem_of_In, in_concat. split.
  - intros (l & Hl & Hx). apply list_elem_of_In in Hl.
    unfold fulfilled_lists in Hl.
    apply list_elem_of_omap in Hl as (r & Hr & Hrl).
    exists r, l. split; [exact Hr|]. split; [|now apply list_elem_of_In].
    destruct r as [[images|]|e]; inversion Hrl; reflexivity.
  - intros (r & l & Hr & -> & Hx). exists l.
    split; [|now apply list_elem_of_In]. apply list_elem_of_In.
    unfold fulfilled_lists. apply list_elem_of_omap.
    exists (Fulfilled (VArray l)). split; [exact Hr | reflexivity].
Qed.

(** C3. The aggregate search never fails: whatever the three provider
    requests settle to, it is fulfilled with an array whose elements are
    the images of the union (in provider order) of the result lists of the
    fulfilled providers, and nothing else: a provider that was rejected,
    or fulfilled with something that is not an array, leaves no element
    behind, not even an [undefined] one.  So an image is returned exactly
    when a fulfilled provider returned it; and when two of the three
    providers fail, the result is exactly the third provider's list. *)
Theorem aggregator_tolerates_failures (w : World) (params : SearchParams) :
  let pexels := searchProvider w 0 Pexels params in
  let unsplash := searchProvider w 1 Unsplash params in
  let pixabay := searchProvider w 2 Pixabay params in
  exists elements,
    fst (run (StockApi.searchAllStockSites params) w) = Fulfilled elements
    /\ elements = StockApi.Image <$> fulfilled_union [pexels; unsplash; pixabay]
    /\ (StockApi.Undefined ∉ elements)
    /\ (StockApi.NotAnArray ∉ elements)
    /\ (forall x, StockApi.Image x ∈ elements <->
          exists r l, r ∈ [pexels; unsplash; pixabay]
                      /\ r = Fulfilled (VArray l) /\ x ∈ l)
    /\ (forall l, pexels = Fulfilled (VArray l) -> failed unsplash ->
          failed pixabay -> elements = StockApi.Image <$> l)
    /\ (forall l, failed pexels -> unsplash = Fulfilled (VArray l) ->
          failed pixabay -> elements = StockApi.Image <$> l)
    /\ (forall l, failed pexels -> failed unsplash ->
          pixabay = Fulfilled (VArray l) -> elements = StockApi.Image <$> l).
Proof.
  intros pexels unsplash pixabay.
  exists (StockApi.Image <$> fulfilled_union [pexels; unsplash; pixabay]).
  split; [unfold run; now rewrite searchAllStockSites_run|].
  split; [reflexivity|].
  split; [intros Hin; apply list_elem_of_fmap in Hin as (x & Hx & _);
          discriminate Hx|].
  split; [intros Hin; apply list_elem_of_fmap in Hin as (x & Hx & _);
          discriminate Hx|].
  split.
  - intros x. rewrite <- elem_of_fulfilled_union. split.
    + intros Hin. apply list_elem_of_fmap in Hin as (y & Hy & Hin).
      now injection Hy as ->.
    + intros Hin. apply list_elem_of_fmap. now exists x.
  - unfold failed, fulfilled_union, fulfilled_lists.
    repeat split; intros l.
    + intros -> H2 H3. destruct unsplash, pixabay; try discriminate.
      f_equal. cbn. now rewrite app_nil_r.
    + intros H1 -> H3. destruct pexels, pixabay; try discriminate.
      f_equal. cbn. now rewrite app_nil_r.
    + intros H1 H2 ->. destruct pexels, unsplash; try discriminate.
      f_equal. cbn. now rewrite app_nil_r.
Qed.

Lemma aggregator_tolerates_failures_witness :
  failed (searchProvider world_pixabay_only 0 Pexels search_cats)
  /\ failed (searchProvider world_pixabay_only 1 Unsplash search_cats)
  /\ fst (run (StockApi.searchAllStockSites search_cats) world_pixabay_only)
     = Fulfilled [StockApi.Image (stock_image "pixabay-1" Pixabay);
                  StockApi.Image (stock_image "pixabay-2" Pixabay)].
Proof.
  split; [reflexivity|]. split; [reflexivity|].
  destruct (aggregator_tolerates_failures world_pixabay_only search_cats)
    as (elements & Hrun & _ & _ & _ & _ & _ & _ & Honly).
  rewrite (Honly [stock_image "pixabay-1" Pixabay;
                  stock_image "pixabay-2" Pixabay]) in Hrun
    by reflexivity.
  exact Hrun.
Defined.

(** ** The variation engine *)

(** With a count of two, both requests are dispatched, and the outcome is
    [Promise.all] of the two closures. *)
Lemma generateVariations_two (w : World) (baseImage negativePrompt : jsstring) :
  let req := variation_request baseImage negativePrompt in
  let closure n :=
    and_then (latency w n, generateContent w n req) GeminiApi.image_of_response in
  run (GeminiApi.generateVariations baseImage negativePrompt 2) w
  = (match Promise.all [closure 0%nat; closure 1%nat] with
     | Fulfilled results => Fulfilled (omap (fun r => r) results)
     | Rejected e => Rejected e
     end,
     [GenerateContent req; GenerateContent req]).
Proof.
  intros req closure. unfold run, GeminiApi.generateVariations.
  fold (variation_request baseImage negativePrompt). fold req.
  change (GeminiApi.new_array 2) with (@ret (list unit) [tt; tt]).
  unfold bind, ret, settle, call_generateContent, dispatch.
  cbn -[Promise.all and_then req]. fold (closure 0%nat) (closure 1%nat).
  destruct (Promise.all [closure 0%nat; closure 1%nat]); reflexivity.
Qed.

(** One request is fulfilled without an image, the other with one: the
    result is the single image. *)
Lemma variations_one_without_image (w : World)
    (baseImage negativePrompt : jsstring) (parts0 parts1 : list Part)
    (rest0 rest1 : list (option (list Part))) (t0 t1 : option jsstring)
    (img : jsstring) :
  let req := variation_request baseImage negativePrompt in
  generateContent w 0 req
    = Fulfilled (mkContentResponse (Some parts0 :: rest0) t0) ->
  generateContent w 1 req
    = Fulfilled (mkContentResponse (Some parts1 :: rest1) t1) ->
  (GeminiApi.first_inline parts0 = None
   /\ GeminiApi.first_inline parts1 = Some img)
  \/ (GeminiApi.first_inline parts0 = Some img
      /\ GeminiApi.first_inline parts1 = None) ->
  fst (run (GeminiApi.generateVariations baseImage negativePrompt 2) w)
  = Fulfilled [img].
Proof.
  intros req H0 H1 Hparts. rewrite generateVariations_two. fold req.
  unfold and_then, Promise.all. cbn [fst snd]. rewrite H0, H1.
  cbn. destruct Hparts as [[-> ->]|[-> ->]]; reflexivity.
Qed.

(** [Promise.all] short-circuits: one rejected element rejects the
    join. *)
Lemma first_rejection_found {A} (ps : list (settled A)) :
  (exists p, p ∈ ps /\ is_fulfilled (snd p) = false) ->
  exists t e, first_rejection ps = Some (t, e).
Proof.
  induction ps as [|[t o] ps IH]; intros (p & Hin & Hrej).
  - inversion Hin.
  - destruct o as [v|e]; cbn [first_rejection].
    + apply IH. exists p. split; [|exact Hrej].
      inversion Hin; subst; [discriminate Hrej | assumption].
    + destruct (first_rejection ps) as [[t' e']|];
        [destruct (t' <? t)%nat|]; eauto.
Qed.

Lemma all_rejects {A} (ps : list (settled A)) :
  (exists p, p ∈ ps /\ is_fulfilled (snd p) = false) ->
  exists e, Promise.all ps = Rejected e.
Proof.
  intros H. destruct (first_rejection_found ps H) as (t & e & Hfirst).
  exists e. unfold Promise.all. now rewrite Hfirst.
Qed.

(** A rejected request rejects the whole join, whatever the other
    request returned. *)
Lemma variations_rejection_rejects (w : World)
    (baseImage negativePrompt : jsstring) (e : JsError) :
  let req := variation_request baseImage negativePrompt in
  generateContent w 0 req = Rejected e \/ generateContent w 1 req = Rejected e ->
  exists e',
    fst (run (GeminiApi.generateVariations baseImage negativePrompt 2) w)
    = Rejected e'.
Proof.
  intros req Hrej. rewrite generateVariations_two. fold req. cbn [fst].
  match goal with
  | |- context [Promise.all ?ps] => destruct (all_rejects ps) as [e' He']
  end.
  - destruct Hrej as [H|H].
    + eexists. split; [left|]. unfold and_then. cbn [snd]. now rewrite H.
    + eexists. split; [right; left|]. unfold and_then. cbn [snd]. now rewrite H.
  - exists e'. now rewrite He'.
Qed.

(** C2 (the code departs from the claim). One of the two requests is
    rejected, the other returns an image: the action ends with no image and
    an error message, and the image that was returned is dropped. *)
Theorem variations_partial_rejection_is_error :
  run (VariationGenerator.generateVariationsAction ascii_engine
         variation_idle variation_form) world_one_rejection
  = (Fulfilled
       (VariationGenerator.mkVariationState []
          (Some (js "You have exceeded your API quota. Please check your Google AI Studio account."))),
     [GenerateContent (variation_request png_a []);
      GenerateContent (variation_request png_a [])]).
Proof. vm_compute. reflexivity. Qed.

(** The part of the claim the code keeps: a request that returns no image
    is discarded and the other image is the result. *)
Lemma variations_partial_without_image_is_success :
  run (VariationGenerator.generateVariationsAction ascii_engine
         variation_idle variation_form) world_one_without_image
  = (Fulfilled
       (VariationGenerator.mkVariationState [js "data:image/png;base64,BBBB"]
          None),
     [GenerateContent (variation_request png_a []);
      GenerateContent (variation_request png_a [])]).
Proof. vm_compute. reflexivity. Qed.

(** A rejected request surfaces as an error of the action, with no image
    kept, for every engine, world and form with a base image. *)
Lemma variations_action_rejection (eng : Engine) (w : World)
    (prev : VariationGenerator.VariationFormState)
    (baseImage : jsstring) (neg : option jsstring) (e : JsError) :
  let req := variation_request baseImage (default [] neg) in
  truthy_str baseImage = true ->
  generateContent w 0 req = Rejected e \/ generateContent w 1 req = Rejected e ->
  exists msg,
    fst (run (VariationGenerator.generateVariationsAction eng prev
                (VariationGenerator.mkVariationForm (Some baseImage) neg)) w)
    = Fulfilled (VariationGenerator.mkVariationState [] (Some msg)).
Proof.
  intros req Hbase Hrej.
  destruct (variations_rejection_rejects w baseImage (default [] neg) e Hrej)
    as [e' He'].
  unfold run in *. unfold VariationGenerator.generateVariationsAction.
  cbn [VariationGenerator.base_image VariationGenerator.negative_prompt].
  rewrite Hbase. unfold try_catch, bind.
  destruct (GeminiApi.generateVariations baseImage (default [] neg) 2 w [])
    as [o log'] eqn:Hrun.
  cbn [fst] in He'. subst o. eexists. reflexivity.
Qed.

(** ** Stage 2 of the composition mode *)

(** C6. A stage-2 submission whose subject prompt is empty or whose
    selected template is unset ends at once in a state carrying a
    validation message (the previous image is kept) and dispatches no call;
    the generation capability is called only when the prompt is non-empty
    and a template is selected. *)
Theorem final_submit_validates (fresh : nat) (now : Z)
    (prev : CompositionMode.FinalImageFormState)
    (fd : CompositionMode.FinalFormData) (w : World) :
  let failed_with (msg : jsstring) :=
    (Fulfilled
       (CompositionMode.mkFormState (CompositionMode.image prev)
          (Some msg) (CompositionMode.promptUsed prev)),
     @nil Call) in
  (truthy (CompositionMode.subject_prompt fd) = false ->
   run (CompositionMode.generateFinalImageAction fresh now prev fd) w
   = failed_with (js "Subject prompt is required."))
  /\ (truthy (CompositionMode.subject_prompt fd) = true ->
      truthy (CompositionMode.selected_template fd) = false ->
      run (CompositionMode.generateFinalImageAction fresh now prev fd) w
      = failed_with (js "A template must be selected."))
  /\ (forall c,
        c ∈ snd (run (CompositionMode.generateFinalImageAction fresh now
                        prev fd) w) ->
        is_generation_call c = true ->
        truthy (CompositionMode.subject_prompt fd) = true
        /\ truthy (CompositionMode.selected_template fd) = true).
Proof.
  intros failed_with. unfold run, CompositionMode.generateFinalImageAction.
  split; [|split].
  - intros H. rewrite H. reflexivity.
  - intros H1 H2. rewrite H1, H2. reflexivity.
  - intros c Hin _.
    destruct (truthy (CompositionMode.subject_prompt fd));
      [destruct (truthy (CompositionMode.selected_template fd))|];
      first [split; reflexivity | cbn in Hin; inversion Hin].
Qed.

Lemma final_submit_validates_witness :
  truthy (CompositionMode.subject_prompt final_form_no_template) = true
  /\ truthy (CompositionMode.selected_template final_form_no_template) = false
  /\ run (CompositionMode.generateFinalImageAction 0 1700000000000
            CompositionMode.initialFormState final_form_no_template)
         world_one_rejection
     = (Fulfilled
          (CompositionMode.mkFormState None
             (Some (js "A template must be selected.")) None),
        []).
Proof.
  split; [reflexivity|]. split; [reflexivity|].
  destruct (final_submit_validates 0 1700000000000
              CompositionMode.initialFormState final_form_no_template
              world_one_rejection)
    as (_ & Htemplate & _).
  exact (Htemplate eq_refl eq_refl).
Defined.

(** With no template selected in the component, the stage-2 form carries
    an empty selection, whatever the subject prompt. *)
Lemma final_form_unset (subject negative : jsstring) (style : option File)
    (c : CompositionMode.Component) :
  truthy (CompositionMode.selectedTemplate c) = false ->
  truthy (CompositionMode.selected_template
            (CompositionMode.final_form subject negative style c)) = false.
Proof.
  intros H. unfold CompositionMode.final_form. cbn. now rewrite H.
Qed.

(** ** The negative-prompt suggestion *)

Lemma trimStart_white (s : jsstring) :
  Forall (fun c => is_white_space c = true) s -> trimStart s = [].
Proof.
  induction 1 as [|c s Hc _ IH]; [reflexivity|].
  cbn [trimStart]. now rewrite Hc.
Qed.

Lemma trim_white (s : jsstring) :
  Forall (fun c => is_white_space c = true) s -> trim s = [].
Proof.
  intros H. unfold trim. now rewrite trimStart_white.
Qed.

Lemma str_slice_200 (s : jsstring) : (length (str_slice 0 200 s) <= 200)%nat.
Proof.
  pose proof (slice_0_length 200 s ltac:(lia)) as H.
  unfold str_slice. lia.
Qed.

(** C10. The suggestion is never longer than 200 code units, the limit
    of the negative-prompt field: whenever the operation returns it
    returns such a string, and it does return, with the cleaned answer cut
    to 200, whenever the model answers with a text; for an empty or
    white-space-only prompt it returns the empty string at once and
    dispatches no call. *)
Theorem negative_prompt_bounded (mainPrompt : jsstring) (w : World) :
  (forall s,
     fst (run (GeminiApi.generateNegativePrompt mainPrompt) w) = Fulfilled s ->
     (length s <= 200)%nat)
  /\ (forall response raw,
        truthy_str (trim mainPrompt) = true ->
        generateContent w 0 (negative_request mainPrompt) = Fulfilled response ->
        text response = Some raw ->
        run (GeminiApi.generateNegativePrompt mainPrompt) w
        = (Fulfilled (str_slice 0 200 (cleaned raw)),
           [GenerateContent (negative_request mainPrompt)])
        /\ (length (str_slice 0 200 (cleaned raw)) <= 200)%nat)
  /\ (Forall (fun c => is_white_space c = true) mainPrompt ->
      run (GeminiApi.generateNegativePrompt mainPrompt) w = (Fulfilled [], [])).
Proof.
  unfold run, GeminiApi.generateNegativePrompt.
  fold (negative_request mainPrompt).
  split; [|split].
  - intros s. destruct (truthy_str (trim mainPrompt)); cbn [negb].
    + unfold bind, call_generateContent, dispatch, await, settle, ret, throw.
      cbn [length snd fst app].
      destruct (generateContent w 0 (negative_request mainPrompt))
        as [response|e]; [|discriminate].
      destruct (text response) as [raw|]; [|discriminate].
      cbn [fst]. intros [= <-]. apply str_slice_200.
    + cbn. intros [= <-]. cbn. lia.
  - intros response raw Htrim Hresp Htext. rewrite Htrim. cbn [negb].
    unfold bind, call_generateContent, dispatch, await, settle, ret, throw.
    cbn [length snd fst app]. rewrite Hresp, Htext.
    split; [reflexivity | apply str_slice_200].
  - intros Hws. rewrite (trim_white _ Hws). reflexivity.
Qed.

Lemma negative_prompt_bounded_witness :
  truthy_str (trim (js "a cat")) = true
  /\ Forall (fun c => is_white_space c = true) (js "  ")
  /\ fst (run (GeminiApi.generateNegativePrompt (js "a cat")) world_negative)
     = Fulfilled (js "blurry, watermark")
  /\ run (GeminiApi.generateNegativePrompt (js "  ")) world_negative
     = (Fulfilled [], []).
Proof.
  assert (Hws : Forall (fun c => is_white_space c = true) (js "  "))
    by (repeat constructor).
  destruct (negative_prompt_bounded (js "a cat") world_negative)
    as (_ & Hanswer & _).
  destruct (negative_prompt_bounded (js "  ") world_negative)
    as (_ & _ & Hempty).
  destruct (Hanswer _ _ eq_refl eq_refl eq_refl) as [Hrun _].
  split; [reflexivity|]. split; [exact Hws|].
  split; [rewrite Hrun; reflexivity | exact (Hempty Hws)].
Defined.

(** ** Stage 1 of the composition mode *)

Lemma data_url_truthy (payload : option jsstring) :
  truthy_str (GeminiApi.data_url payload) = true.
Proof. reflexivity. Qed.

(** What a stage-1 submission with a non-empty prompt does when the image
    model answers with at least one image. *)
Lemma generateTemplateAction_success (fresh : nat) (now : Z)
    (prev : CompositionMode.TemplateFormState)
    (fd : CompositionMode.TemplateFormData) (w : World)
    (response : GenerateImagesResponse) (bytes : option jsstring)
    (rest : list (option jsstring)) :
  truthy (CompositionMode.template_prompt fd) = true ->
  generateImages w 0 (template_request fd) = Fulfilled response ->
  generatedImages response = bytes :: rest ->
  run (CompositionMode.generateTemplateAction fresh now prev fd) w
  = (Fulfilled
       (CompositionMode.mkFormState (Some (GeminiApi.data_url bytes)) None
          (Some (CompositionMode.mkPromptUsed fresh
                   (default [] (CompositionMode.template_prompt fd)) now))),
     [GenerateImages (template_request fd)]).
Proof.
  intros Hprompt Hresp Himgs.
  unfold run, CompositionMode.generateTemplateAction. rewrite Hprompt.
  cbn [negb]. unfold try_catch, bind, GeminiApi.generateTemplateImage.
  fold (template_request fd).
  unfold bind, call_generateImages, dispatch, await, settle, ret, throw.
  cbn [length snd fst app]. rewrite Hresp, Himgs. reflexivity.
Qed.

(** The "Use This Template" action. *)
Lemma click_useThisTemplate_selects (c : CompositionMode.Component) :
  truthy (CompositionMode.displayTemplateImage c) = true ->
  CompositionMode.selectedTemplate (CompositionMode.click_useThisTemplate c)
  = CompositionMode.displayTemplateImage c
  /\ CompositionMode.displayTemplateImage
       (CompositionMode.click_useThisTemplate c)
     = CompositionMode.displayTemplateImage c.
Proof.
  intros Hshown. unfold CompositionMode.click_useThisTemplate,
    CompositionMode.useThisTemplate_disabled.
  rewrite Hshown. cbn [negb orb].
  destruct (bool_decide_reflect
              (CompositionMode.selectedTemplate c
               = CompositionMode.displayTemplateImage c)) as [Heq|Hne].
  - split; [exact Heq | reflexivity].
  - split; reflexivity.
Qed.

(** The commit of a new action state and the prompt effect leave the
    template pointers alone. *)
Lemma prompt_effect_frame (next : CompositionMode.TemplateFormState)
    (c : CompositionMode.Component) (b : bool) :
  let c1 := CompositionMode.setTemplateState next c in
  let c2 := if b then c1 else CompositionMode.effect_templatePromptUsed c1 in
  CompositionMode.selectedTemplate c2 = CompositionMode.selectedTemplate c
  /\ CompositionMode.displayTemplateImage c2
     = CompositionMode.displayTemplateImage c
  /\ CompositionMode.templateState c2 = next.
Proof.
  intros c1 c2. subst c1 c2. destruct b; [cbn; auto|].
  unfold CompositionMode.effect_templatePromptUsed. cbn.
  destruct (CompositionMode.promptUsed next); cbn; auto.
Qed.

(** The image effect on a truthy image. *)
Lemma image_effect_selects (id_now ts_now : Z) (img : jsstring)
    (c : CompositionMode.Component) :
  CompositionMode.image (CompositionMode.templateState c) = Some img ->
  truthy_str img = true ->
  let c' := CompositionMode.effect_templateImage id_now ts_now c in
  CompositionMode.selectedTemplate c' = Some img
  /\ CompositionMode.displayTemplateImage c' = Some img
  /\ CompositionMode.templateState c' = CompositionMode.templateState c.
Proof.
  intros Himg Htruthy. unfold CompositionMode.effect_templateImage.
  rewrite Himg, Htruthy. cbn. auto.
Qed.

(** C1 (as the code has it). A successful stage-1 generation itself
    selects the generated template: when its image differs from the image
    of the previous action state, both [selectedTemplate] and
    [displayTemplateImage] become the generated image, whatever the
    selection was; when the model returns the very same image string
    again, the image effect does not run and both stay as they were.  The
    "Use This Template" action sets [selectedTemplate] to the displayed
    template and touches nothing else. *)
Theorem stage1_success_selects (fresh : nat) (now id_now ts_now : Z)
    (fd : CompositionMode.TemplateFormData) (c : CompositionMode.Component)
    (w : World) (response : GenerateImagesResponse) (bytes : option jsstring)
    (rest : list (option jsstring)) :
  let result := GeminiApi.data_url bytes in
  truthy (CompositionMode.template_prompt fd) = true ->
  generateImages w 0 (template_request fd) = Fulfilled response ->
  generatedImages response = bytes :: rest ->
  exists c',
    fst (run (CompositionMode.submit_template fresh now id_now ts_now fd c) w)
    = Fulfilled c'
    /\ CompositionMode.image (CompositionMode.templateState c') = Some result
    /\ (CompositionMode.image (CompositionMode.templateState c) <> Some result ->
        CompositionMode.selectedTemplate c' = Some result
        /\ CompositionMode.displayTemplateImage c' = Some result)
    /\ (CompositionMode.image (CompositionMode.templateState c) = Some result ->
        CompositionMode.selectedTemplate c' = CompositionMode.selectedTemplate c
        /\ CompositionMode.displayTemplateImage c'
           = CompositionMode.displayTemplateImage c)
    /\ (truthy (CompositionMode.displayTemplateImage c') = true ->
        CompositionMode.selectedTemplate (CompositionMode.click_useThisTemplate c')
        = CompositionMode.displayTemplateImage c'
        /\ CompositionMode.displayTemplateImage
             (CompositionMode.click_useThisTemplate c')
           = CompositionMode.displayTemplateImage c').
Proof.
  intros result Hprompt Hresp Himgs.
  pose proof (generateTemplateAction_success fresh now
                (CompositionMode.templateState c) fd w response bytes rest
                Hprompt Hresp Himgs) as Hact.
  unfold run in *. unfold CompositionMode.submit_template, bind.
  rewrite Hact. cbn [ret fst]. eexists. split; [reflexivity|].
  unfold CompositionMode.template_settled, CompositionMode.same_image.
  cbn [CompositionMode.image]. fold result.
  match goal with
  | |- context [CompositionMode.setTemplateState ?next c] =>
      match goal with
      | |- context [if ?b then CompositionMode.setTemplateState next c
                    else _] =>
          destruct (prompt_effect_frame next c b) as (Hsel & Hdisp & Hst);
          cbv zeta in Hsel, Hdisp, Hst;
          set (c2 := if b then CompositionMode.setTemplateState next c
                     else CompositionMode.effect_templatePromptUsed
                            (CompositionMode.setTemplateState next c)) in *
      end
  end.
  destruct (bool_decide_reflect
              (CompositionMode.image (CompositionMode.templateState c)
               = Some result)) as [Hsame|Hdiff].
  - rewrite Hst. cbn [CompositionMode.image].
    split; [reflexivity|]. split; [intros H; now destruct H|].
    split; [intros _; split; assumption|].
    apply click_useThisTemplate_selects.
  - destruct (image_effect_selects id_now ts_now result c2)
      as (Hsel' & Hdisp' & Hst'); [now rewrite Hst | reflexivity |].
    cbv zeta in Hsel', Hdisp', Hst'.
    rewrite Hst', Hst. cbn [CompositionMode.image].
    split; [reflexivity|]. split; [intros _; split; assumption|].
    split; [intros H; now destruct Hdiff|].
    apply click_useThisTemplate_selects.
Qed.

Lemma stage1_success_selects_witness :
  exists c',
    fst (run (CompositionMode.submit_template 1 1000 1001 1001
                (template_form "P1") fresh_component) world_templates)
    = Fulfilled c'
    /\ CompositionMode.selectedTemplate c'
       = Some (js "data:image/png;base64,T1")
    /\ CompositionMode.displayTemplateImage c'
       = Some (js "data:image/png;base64,T1").
Proof.
  destruct (stage1_success_selects 1 1000 1001 1001 (template_form "P1")
              fresh_component world_templates
              (mkImagesResponse [Some (js "T1")]) (Some (js "T1")) []
              eq_refl eq_refl eq_refl)
    as (c' & Hrun & _ & Hnew & _).
  exists c'. split; [exact Hrun|]. apply Hnew. discriminate.
Defined.

(** C1 as the specification states it fails on the specification's own
    scenario: after "P1" and "P2" succeed with no confirmation in between,
    the selection, unset at the start, is the result of "P2". *)
Lemma stage1_selection_counterexample :
  CompositionMode.selectedTemplate fresh_component = None
  /\ exists c2,
       fst (run scenario_P1_P2 world_templates) = Fulfilled c2
       /\ CompositionMode.displayTemplateImage c2
          = Some (js "data:image/png;base64,T2")
       /\ CompositionMode.selectedTemplate c2
          = Some (js "data:image/png;base64,T2")
       /\ CompositionMode.selectedTemplate c2
          <> CompositionMode.selectedTemplate fresh_component.
Proof.
  split; [reflexivity|]. eexists. split; [vm_compute; reflexivity|].
  split; [reflexivity|]. split; [reflexivity | discriminate].
Qed.

(** ** Mask synthesis *)

Lemma round_div_exact (k d : Z) : 0 < d -> round_div (k * d) d = k.
Proof.
  intros Hd. unfold round_div. symmetry.
  apply (Z.div_unique _ _ k d); lia.
Qed.

Lemma round_div_zero (d : Z) : round_div 0 d = 0.
Proof.
  unfold round_div. destruct (Z.eq_dec d 0) as [->|Hd]; [reflexivity|].
  destruct (Z.lt_ge_cases 0 d).
  - apply Z.div_small. lia.
  - replace (2 * 0 + d) with (-(-d)) by lia.
    replace (2 * d) with (-(2 * -d)) by lia.
    rewrite Z.div_opp_opp by lia. apply Z.div_small. lia.
Qed.

(** The chain of compositing steps a pixel of the overlay goes through:
    onto the transparent temporary canvas, source-in with white, then onto
    the black background. *)
Lemma inpaint_pixel_chain (p : rgba) :
  0 <= alpha p <= 255 ->
  source_over (source_in white (source_over p transparent))
    (source_over black transparent)
  = mkRgba (alpha p) (alpha p) (alpha p) 255.
Proof.
  destruct p as [r g b a]. cbn [alpha]. intros Ha.
  change (source_over black transparent) with black.
  unfold source_over at 2. cbn [alpha red green blue transparent].
  replace (a * 255 + 0 * (255 - a)) with (a * 255) by lia.
  rewrite (round_div_exact a 255) by lia.
  unfold source_in. cbn [alpha red green blue white].
  replace (255 * a) with (a * 255) by lia.
  rewrite (round_div_exact a 255) by lia.
  destruct (Z.eq_dec a 0) as [->|Hne].
  - reflexivity.
  - rewrite (round_div_exact 255 (a * 255)) by lia.
    unfold source_over. cbn [alpha red green blue black].
    replace (a * 255 + 255 * (255 - a)) with 65025 by lia.
    replace (255 * a * 255 + 0 * 255 * (255 - a)) with (a * 65025) by lia.
    rewrite (round_div_exact a 65025) by lia. reflexivity.
Qed.

Lemma inside_rect (x0 y0 w h x y : Z) :
  0 <= w -> 0 <= h ->
  inside x0 y0 w h x y
  = (x0 <=? x) && (x <? x0 + w) && (y0 <=? y) && (y <? y0 + h).
Proof.
  intros Hw Hh. unfold inside.
  rewrite (Z.min_l x0), (Z.max_r x0), (Z.min_l y0), (Z.max_r y0) by lia.
  reflexivity.
Qed.

Lemma inside_canvas (c : bitmap) (x y : Z) :
  0 <= width c -> 0 <= height c ->
  inside 0 0 (width c) (height c) x y = in_bounds c x y.
Proof.
  intros Hw Hh. rewrite inside_rect by assumption. reflexivity.
Qed.

(** The in-paint mask, pixel by pixel: the grey level of a mask pixel is
    the alpha of the overlay pixel. *)
Lemma inpaintMask_pixel (overlay : bitmap) :
  0 < width overlay -> 0 < height overlay ->
  exists m,
    AdvancedImageEditor.inpaintMask overlay = Some m
    /\ width m = width overlay /\ height m = height overlay
    /\ forall x y,
         in_bounds overlay x y = true ->
         0 <= alpha (pixel overlay x y) <= 255 ->
         pixel m x y
         = mkRgba (alpha (pixel overlay x y)) (alpha (pixel overlay x y))
             (alpha (pixel overlay x y)) 255.
Proof.
  intros Hw Hh.
  assert (Ew : (width overlay <=? 0) = false) by (apply Z.leb_gt; lia).
  assert (Eh : (height overlay <=? 0) = false) by (apply Z.leb_gt; lia).
  assert (Ew0 : (width overlay =? 0) = false) by (apply Z.eqb_neq; lia).
  assert (Eh0 : (height overlay =? 0) = false) by (apply Z.eqb_neq; lia).
  unfold AdvancedImageEditor.inpaintMask, drawImage, fillRect.
  cbn [createCanvas getContext set_fillStyle set_globalCompositeOperation
       paint target width height fillStyle globalCompositeOperation].
  repeat (progress
            (rewrite ?Ew, ?Eh, ?Ew0, ?Eh0;
             cbn [orb createCanvas getContext set_fillStyle
                  set_globalCompositeOperation paint target width height
                  fillStyle globalCompositeOperation])).
  eexists. split; [reflexivity|]. split; [reflexivity|]. split; [reflexivity|].
  intros x y Hin Ha. cbn [pixel target paint composite createCanvas].
  assert (Hins : inside 0 0 (width overlay) (height overlay) x y = true)
    by (rewrite inside_canvas by lia; exact Hin).
  repeat (progress
            (rewrite ?Hins, ?Z.sub_0_r;
             cbv [default from_option Datatypes.id];
             cbn [pixel target paint composite createCanvas width height])).
  now apply inpaint_pixel_chain.
Qed.

Lemma source_over_opaque (s b : rgba) :
  alpha s = 255 ->
  source_over s b = mkRgba (red s) (green s) (blue s) 255.
Proof.
  intros Ha. unfold source_over. rewrite Ha.
  replace (255 * 255 + alpha b * (255 - 255)) with 65025 by lia.
  assert (Hch : forall cs cb,
            round_div (cs * 255 * 255 + cb * alpha b * (255 - 255)) 65025 = cs).
  { intros cs cb.
    replace (cs * 255 * 255 + cb * alpha b * (255 - 255)) with (cs * 65025)
      by lia.
    apply round_div_exact. lia. }
  rewrite !Hch. reflexivity.
Qed.

Lemma source_over_nothing (b : rgba) :
  alpha b = 255 ->
  source_over transparent b = mkRgba (red b) (green b) (blue b) 255.
Proof.
  intros Ha. unfold source_over. cbn [alpha red green blue transparent].
  rewrite Ha.
  replace (0 * 255 + 255 * (255 - 0)) with 65025 by lia.
  assert (Hch : forall cb, round_div (0 * 0 * 255 + cb * 255 * (255 - 0)) 65025 = cb).
  { intros cb. replace (0 * 0 * 255 + cb * 255 * (255 - 0)) with (cb * 65025) by lia.
    apply round_div_exact. lia. }
  rewrite !Hch. reflexivity.
Qed.

Lemma fill_white_on_new_canvas :
  source_over white transparent = white.
Proof. reflexivity. Qed.

Lemma in_bounds_inv (c : bitmap) (x y : Z) :
  in_bounds c x y = true -> 0 <= x < width c /\ 0 <= y < height c.
Proof.
  unfold in_bounds. rewrite !andb_true_iff.
  intros [[[H1 H2] H3] H4].
  apply Z.leb_le in H1, H3. apply Z.ltb_lt in H2, H4. lia.
Qed.

Section OutpaintPixels.

(** The editor at the moment of an out-paint submission, with
    non-negative sizes and padding. *)
Variable e : AdvancedImageEditor.Editor.

Let w := AdvancedImageEditor.dims_width (AdvancedImageEditor.originalDims e).
Let h := AdvancedImageEditor.dims_height (AdvancedImageEditor.originalDims e).
Let t := AdvancedImageEditor.top (AdvancedImageEditor.padding e).
Let r := AdvancedImageEditor.right (AdvancedImageEditor.padding e).
Let b := AdvancedImageEditor.bottom (AdvancedImageEditor.padding e).
Let l := AdvancedImageEditor.left (AdvancedImageEditor.padding e).

Hypothesis Hw : 0 <= w.
Hypothesis Hh : 0 <= h.
Hypothesis Ht : 0 <= t.
Hypothesis Hr : 0 <= r.
Hypothesis Hb : 0 <= b.
Hypothesis Hl : 0 <= l.

Let rect (x y : Z) : bool :=
  (l <=? x) && (x <? l + w) && (t <=? y) && (y <? t + h).

Lemma on_new_canvas (x y : Z) :
  0 <= x < w + l + r -> 0 <= y < h + t + b ->
  inside 0 0 (w + l + r) (h + t + b) x y = true.
Proof using Hw Hh Ht Hr Hb Hl.
  intros Hx Hy. rewrite inside_rect by lia.
  rewrite !andb_true_iff, !Z.leb_le, !Z.ltb_lt. lia.
Qed.

Lemma rect_empty (x y : Z) : w <= 0 \/ h <= 0 -> rect x y = false.
Proof using Hw Hh.
  intros Hempty. apply not_true_is_false. unfold rect.
  rewrite !andb_true_iff, !Z.leb_le, !Z.ltb_lt. lia.
Qed.

(** The out-paint mask, pixel by pixel. *)
Lemma outpaintMask_pixel (x y : Z) :
  let mask := AdvancedImageEditor.outpaintMask e in
  width mask = w + l + r /\ height mask = h + t + b
  /\ (in_bounds mask x y = true ->
      pixel mask x y
      = if rect x y then AdvancedImageEditor.keep_colour
        else AdvancedImageEditor.paint_colour).
Proof using Hw Hh Ht Hr Hb Hl.
  intros mask. unfold mask, AdvancedImageEditor.outpaintMask.
  fold w h t r b l. unfold fillRect.
  cbn [createCanvas getContext set_fillStyle paint target width height
       fillStyle globalCompositeOperation].
  destruct ((w + l + r =? 0) || (h + t + b =? 0)) eqn:Eempty;
    cbn [createCanvas getContext set_fillStyle paint target width height
         fillStyle globalCompositeOperation];
    destruct ((w =? 0) || (h =? 0)) eqn:Erect;
    cbn [createCanvas getContext set_fillStyle paint target width height
         fillStyle globalCompositeOperation pixel];
    (split; [reflexivity|]); (split; [reflexivity|]);
    intros Hin; apply in_bounds_inv in Hin;
    cbn [width height createCanvas] in Hin;
    apply orb_prop in Eempty || apply orb_false_elim in Eempty;
    try (destruct Eempty as [E|E]; apply Z.eqb_eq in E; lia).
  - (* nothing to keep: the rectangle is empty *)
    rewrite rect_empty
      by (apply orb_prop in Erect as [E|E]; apply Z.eqb_eq in E; lia).
    rewrite on_new_canvas by lia. reflexivity.
  - rewrite on_new_canvas by lia. rewrite inside_rect by lia. fold (rect x y).
    destruct (rect x y); reflexivity.
Qed.

(** The expanded base image of out-painting, pixel by pixel. *)
Lemma outpaintBase_pixel (img : bitmap) (x y : Z) :
  let base := AdvancedImageEditor.outpaintBase e in
  AdvancedImageEditor.originalImageRef e = Some img ->
  width img = w -> height img = h ->
  width base = w + l + r /\ height base = h + t + b
  /\ (in_bounds base x y = true ->
      pixel base x y
      = if rect x y then source_over (pixel img (x - l) (y - t)) white
        else white).
Proof using Hw Hh Ht Hr Hb Hl.
  intros base Href Himw Himh.
  unfold base, AdvancedImageEditor.outpaintBase.
  fold w h t r b l. rewrite Href. unfold fillRect, drawImageScaled.
  rewrite Himw, Himh.
  cbn [createCanvas getContext set_fillStyle paint target width height
       fillStyle globalCompositeOperation].
  destruct ((w + l + r =? 0) || (h + t + b =? 0)) eqn:Eempty;
    cbn [createCanvas getContext set_fillStyle paint target width height
         fillStyle globalCompositeOperation];
    destruct ((w <=? 0) || (h <=? 0)) eqn:Erect;
    cbn [createCanvas getContext set_fillStyle paint target width height
         fillStyle globalCompositeOperation pixel];
    (split; [reflexivity|]); (split; [reflexivity|]);
    intros Hin; apply in_bounds_inv in Hin;
    cbn [width height createCanvas] in Hin;
    apply orb_prop in Eempty || apply orb_false_elim in Eempty;
    try (destruct Eempty as [E|E]; apply Z.eqb_eq in E; lia).
  - (* the image has no pixels: the rectangle is empty *)
    rewrite rect_empty
      by (apply orb_prop in Erect as [E|E]; apply Z.leb_le in E; lia).
    rewrite on_new_canvas by lia. reflexivity.
  - apply orb_false_elim in Erect as [Ew Eh].
    apply Z.leb_gt in Ew, Eh.
    rewrite on_new_canvas by lia. rewrite inside_rect by lia. fold (rect x y).
    rewrite !Z.div_mul by lia.
    destruct (rect x y); reflexivity.
Qed.

End OutpaintPixels.

(** C5. Out-painting with non-negative padding [(t, r, b, l)] on an image
    of size [(w, h)]: the expanded canvas and its mask both have size
    [(w + l + r, h + t + b)]; the canvas shows the image at offset
    [(l, t)] over white, exactly the image's pixels where the image is
    opaque; the mask is "keep" on the rectangle [(l, t, w, h)] and "paint"
    everywhere else; with all-zero padding the submission still goes
    through and the mask is "keep" all over. *)
Theorem outpaint_canvas_and_mask (e : AdvancedImageEditor.Editor)
    (form : AdvancedImageEditor.FormInputs) (img : bitmap) :
  let w := AdvancedImageEditor.dims_width (AdvancedImageEditor.originalDims e) in
  let h := AdvancedImageEditor.dims_height (AdvancedImageEditor.originalDims e) in
  let t := AdvancedImageEditor.top (AdvancedImageEditor.padding e) in
  let r := AdvancedImageEditor.right (AdvancedImageEditor.padding e) in
  let b := AdvancedImageEditor.bottom (AdvancedImageEditor.padding e) in
  let l := AdvancedImageEditor.left (AdvancedImageEditor.padding e) in
  let rect x y := (l <=? x) && (x <? l + w) && (t <=? y) && (y <? t + h) in
  AdvancedImageEditor.mode e = AdvancedImageEditor.Outpaint ->
  AdvancedImageEditor.originalImageRef e = Some img ->
  width img = w -> height img = h ->
  0 <= w -> 0 <= h -> 0 <= t -> 0 <= r -> 0 <= b -> 0 <= l ->
  exists base mask,
    AdvancedImageEditor.handleSubmit e form
    = Some (AdvancedImageEditor.mkInputs
              (Some (AdvancedImageEditor.Png base))
              (Some (AdvancedImageEditor.Png mask)))
    /\ (width base = w + l + r /\ height base = h + t + b)
    /\ (width mask = w + l + r /\ height mask = h + t + b)
    /\ (forall x y, in_bounds base x y = true ->
          pixel base x y
          = if rect x y then source_over (pixel img (x - l) (y - t)) white
            else white)
    /\ (forall x y, in_bounds base x y = true -> rect x y = true ->
          alpha (pixel img (x - l) (y - t)) = 255 ->
          pixel base x y = pixel img (x - l) (y - t))
    /\ (forall x y, in_bounds mask x y = true ->
          pixel mask x y
          = if rect x y then AdvancedImageEditor.keep_colour
            else AdvancedImageEditor.paint_colour)
    /\ (t = 0 -> r = 0 -> b = 0 -> l = 0 ->
        forall x y, in_bounds mask x y = true ->
          pixel mask x y = AdvancedImageEditor.keep_colour).
Proof.
  intros w h t r b l rect Hmode Href Himw Himh Hw Hh Ht Hr Hb Hl.
  exists (AdvancedImageEditor.outpaintBase e),
         (AdvancedImageEditor.outpaintMask e).
  split; [unfold AdvancedImageEditor.handleSubmit; now rewrite Hmode|].
  assert (Hbase := fun x y =>
            outpaintBase_pixel e Hw Hh Ht Hr Hb Hl img x y Href Himw Himh).
  assert (Hmask := fun x y => outpaintMask_pixel e Hw Hh Ht Hr Hb Hl x y).
  cbv zeta in Hbase, Hmask. fold w h t r b l in Hbase, Hmask.
  split; [destruct (Hbase 0 0) as (H1 & H2 & _); split; assumption|].
  split; [destruct (Hmask 0 0) as (H1 & H2 & _); split; assumption|].
  split; [intros x y Hin; destruct (Hbase x y) as (_ & _ & Hp); now apply Hp|].
  split.
  - intros x y Hin Hrect Hopaque.
    destruct (Hbase x y) as (_ & _ & Hp). rewrite (Hp Hin).
    unfold rect in Hrect. rewrite Hrect.
    rewrite source_over_opaque by assumption.
    destruct (pixel img (x - l) (y - t)) as [pr pg pb pa].
    cbn in *. now subst pa.
  - split.
    + intros x y Hin. destruct (Hmask x y) as (_ & _ & Hp). now apply Hp.
    + intros Zt Zr Zb Zl x y Hin.
      destruct (Hmask x y) as (Wm & Hm & Hp). rewrite (Hp Hin).
      apply in_bounds_inv in Hin. rewrite Wm, Hm in Hin.
      replace ((l <=? x) && (x <? l + w) && (t <=? y) && (y <? t + h))
        with true; [reflexivity|].
      symmetry. rewrite !andb_true_iff, !Z.leb_le, !Z.ltb_lt. lia.
Qed.

(** Where the in-paint mask is binary and where it is not. *)
Lemma inpaintMask_levels (overlay m : bitmap) (x y : Z) :
  0 < width overlay -> 0 < height overlay ->
  AdvancedImageEditor.inpaintMask overlay = Some m ->
  in_bounds overlay x y = true ->
  let a := alpha (pixel overlay x y) in
  (a = 0 -> pixel m x y = AdvancedImageEditor.keep_colour)
  /\ (a = 255 -> pixel m x y = AdvancedImageEditor.paint_colour)
  /\ (0 < a < 255 ->
      pixel m x y <> AdvancedImageEditor.paint_colour
      /\ pixel m x y <> AdvancedImageEditor.keep_colour).
Proof.
  intros Hw Hh Hm Hin a.
  destruct (inpaintMask_pixel overlay Hw Hh) as (m' & Hm' & _ & _ & Hpix).
  rewrite Hm in Hm'. injection Hm' as <-.
  specialize (Hpix x y Hin). fold a in Hpix.
  split; [|split].
  - intros Ha. rewrite Hpix by lia. now rewrite Ha.
  - intros Ha. rewrite Hpix by lia. now rewrite Ha.
  - intros Ha. rewrite Hpix by lia.
    split; intros Heq; injection Heq; lia.
Qed.

(** An untouched overlay gives a mask that is "keep" everywhere. *)
Lemma inpaint_untouched_overlay (w h : Z) :
  0 < w -> 0 < h ->
  exists m,
    AdvancedImageEditor.inpaintMask (createCanvas w h) = Some m
    /\ width m = w /\ height m = h
    /\ forall x y, in_bounds m x y = true ->
         pixel m x y = AdvancedImageEditor.keep_colour.
Proof.
  intros Hw Hh.
  destruct (inpaintMask_pixel (createCanvas w h) Hw Hh)
    as (m & Hm & Wm & Hgt & Hpix).
  exists m. split; [exact Hm|]. split; [exact Wm|]. split; [exact Hgt|].
  intros x y Hin. rewrite Hpix; [reflexivity| |cbn; lia].
  unfold in_bounds in *. now rewrite Wm, Hgt in Hin.
Qed.

(** C4 (the code departs from the claim). After one stroke of the brush,
    whose alpha is 179, the synthesized mask is grey (179, 179, 179) under
    the stroke: neither the "paint" colour nor the "keep" colour.  The
    base image is handed over as it is. *)
Theorem inpaint_mask_keeps_stroke_alpha :
  alpha (pixel stroke_overlay 0 0) = 179
  /\ exists mask,
       AdvancedImageEditor.handleSubmit inpaint_editor empty_form
       = Some (AdvancedImageEditor.mkInputs
                 (Some (AdvancedImageEditor.Url png_a))
                 (Some (AdvancedImageEditor.Png mask)))
       /\ pixel mask 0 0 = mkRgba 179 179 179 255
       /\ pixel mask 0 0 <> AdvancedImageEditor.paint_colour
       /\ pixel mask 0 0 <> AdvancedImageEditor.keep_colour.
Proof.
  assert (Ha : alpha (pixel stroke_overlay 0 0) = 179)
    by (vm_compute; reflexivity).
  split; [exact Ha|].
  destruct (inpaintMask_pixel stroke_overlay) as (m & Hm & _ & _ & Hpix);
    [reflexivity | reflexivity |].
  exists m. split.
  - unfold AdvancedImageEditor.handleSubmit.
    cbn [AdvancedImageEditor.mode inpaint_editor
         AdvancedImageEditor.maskCanvasRef AdvancedImageEditor.currentImage].
    now rewrite Hm.
  - rewrite (Hpix 0 0) by (try reflexivity; rewrite Ha; lia).
    rewrite Ha. repeat split; discriminate.
Qed.

Lemma outpaint_canvas_and_mask_witness :
  exists base mask,
    AdvancedImageEditor.handleSubmit outpaint_editor empty_form
    = Some (AdvancedImageEditor.mkInputs
              (Some (AdvancedImageEditor.Png base))
              (Some (AdvancedImageEditor.Png mask)))
    /\ (width mask = 9 /\ height mask = 4)
    /\ pixel mask 4 1 = AdvancedImageEditor.keep_colour
    /\ pixel mask 3 1 = AdvancedImageEditor.paint_colour
    /\ pixel base 5 1 = mkRgba 200 10 10 255.
Proof.
  destruct (outpaint_canvas_and_mask outpaint_editor empty_form red_image)
    as (base & mask & Hsub & [Wb Hb] & [Wm Hm] & _ & Hbase & Hmask & _);
    try reflexivity; try (cbn; lia).
  exists base, mask. split; [exact Hsub|].
  split; [split; [exact Wm | exact Hm]|].
  assert (Hin : forall c x y, width c = 9 -> height c = 4 ->
                  0 <= x < 9 -> 0 <= y < 4 -> in_bounds c x y = true).
  { intros c x y Hwc Hhc Hx Hy. unfold in_bounds. rewrite Hwc, Hhc.
    rewrite !andb_true_iff, !Z.leb_le, !Z.ltb_lt. lia. }
  split; [rewrite Hmask by (apply Hin; [exact Wm | exact Hm | lia | lia]);
          reflexivity|].
  split; [rewrite Hmask by (apply Hin; [exact Wm | exact Hm | lia | lia]);
          reflexivity|].
  rewrite Hbase; [reflexivity | apply Hin; [exact Wb | exact Hb | lia | lia]
                  | reflexivity | reflexivity].
Defined.

(** * Further properties of the code *)

(** ** The store beyond single operations *)

Section RecentInsertTwice.

Variable cap : Z.
Hypothesis cap_pos : 1 <= cap.

Let put (p : jsstring) (l : list jsstring) : list jsstring :=
  slice 0 cap (p :: filter (fun q => q <> p) l).

Lemma put_unfold (p : jsstring) (l : list jsstring) :
  put p l = p :: take (Z.to_nat cap - 1) (filter (fun q => q <> p) l).
Proof using cap_pos.
  unfold put. rewrite slice_0 by lia.
  destruct (Z.to_nat cap) as [|n] eqn:En; [lia|].
  cbn [take]. now replace (S n - 1)%nat with n by lia.
Qed.

Lemma put_idempotent (p : jsstring) (l : list jsstring) :
  put p (put p l) = put p l.
Proof using cap_pos.
  rewrite !put_unfold. rewrite filter_cons_False by (intros H; now apply H).
  rewrite filter_all.
  - now rewrite take_take, Nat.min_id.
  - intros x Hx. apply elem_of_take in Hx as (i & Hi & _).
    apply list_elem_of_lookup_2 in Hi.
    now apply list_elem_of_filter in Hi as [Hne _].
Qed.

Lemma put_most_recent_first (p q : jsstring) (l : list jsstring) :
  2 <= cap -> p <> q ->
  (put q (put p l) !! 0%nat) = Some q /\ (put q (put p l) !! 1%nat) = Some p.
Proof using cap_pos.
  intros Hcap Hne. rewrite (put_unfold q), (put_unfold p).
  split; [reflexivity|].
  rewrite filter_cons_True by exact Hne.
  destruct (Z.to_nat cap - 1)%nat as [|n] eqn:En; [lia|]. reflexivity.
Qed.

End RecentInsertTwice.

(** X1. Inserting the same prompt twice in a row is the same as inserting
    it once, in the store (cap 10) and in the components (cap 5). *)
Theorem recent_insert_idempotent (p : jsstring) (st : Store.StoreState)
    (prev : list jsstring) :
  Store.addRecentTemplatePrompt p (Store.addRecentTemplatePrompt p st)
  = Store.addRecentTemplatePrompt p st
  /\ CompositionMode.recentPromptsUpdater p
       (CompositionMode.recentPromptsUpdater p prev)
     = CompositionMode.recentPromptsUpdater p prev
  /\ DirectGenerationMode.recentPromptsUpdater p
       (DirectGenerationMode.recentPromptsUpdater p prev)
     = DirectGenerationMode.recentPromptsUpdater p prev.
Proof.
  split; [|split].
  - unfold Store.addRecentTemplatePrompt, Store.set_recentTemplatePrompts.
    cbn [Store.history Store.recentTemplatePrompts Store.recentSubjectPrompts
         Store.recentDirectPrompts Store.templatePrompt Store.subjectPrompt
         Store.directPrompt].
    f_equal. apply (put_idempotent 10). lia.
  - apply (put_idempotent 5). lia.
  - apply (put_idempotent 5). lia.
Qed.

(** X2. Most-recently-used order: after inserting [p] and then a different
    prompt [q], the list starts with [q], then [p], in the store and in
    the components. *)
Theorem recent_insert_orders_by_recency (p q : jsstring)
    (st : Store.StoreState) (prev : list jsstring) :
  p <> q ->
  let l := Store.recentTemplatePrompts
             (Store.addRecentTemplatePrompt q
                (Store.addRecentTemplatePrompt p st)) in
  let m := CompositionMode.recentPromptsUpdater q
             (CompositionMode.recentPromptsUpdater p prev) in
  ((l !! 0%nat) = Some q /\ (l !! 1%nat) = Some p)
  /\ ((m !! 0%nat) = Some q /\ (m !! 1%nat) = Some p).
Proof.
  intros Hne l m. split.
  - apply (put_most_recent_first 10); [lia | lia | exact Hne].
  - apply (put_most_recent_first 5); [lia | lia | exact Hne].
Qed.

Lemma recent_insert_orders_by_recency_witness :
  js "a" <> js "b"
  /\ Store.recentTemplatePrompts
       (Store.addRecentTemplatePrompt (js "b")
          (Store.addRecentTemplatePrompt (js "a") store_ab)) !! 1%nat
     = Some (js "a").
Proof.
  assert (Hne : js "a" <> js "b") by discriminate.
  split; [exact Hne|].
  destruct (recent_insert_orders_by_recency (js "a") (js "b") store_ab [] Hne)
    as [[_ H] _].
  exact H.
Defined.

Lemma take_app_take {A} (n : nat) (b l : list A) :
  take n (b ++ take n l) = take n (b ++ l).
Proof.
  rewrite !take_app. f_equal. rewrite take_take. f_equal. lia.
Qed.

(** X3. History batches compose: adding a batch [a] and then a batch [b]
    leaves the store as adding the single batch [b ++ a] does; nothing is
    lost in between that the cap would not drop anyway. *)
Theorem addToHistory_batches_compose (a b : list HistoryItem)
    (st : Store.StoreState) (prev : list HistoryItem) :
  Store.addToHistory (inr b) (Store.addToHistory (inr a) st)
  = Store.addToHistory (inr (b ++ a)) st
  /\ DirectGenerationMode.historyUpdater b
       (DirectGenerationMode.historyUpdater a prev)
     = DirectGenerationMode.historyUpdater (b ++ a) prev.
Proof.
  split.
  - unfold Store.addToHistory, Store.set_history.
    cbn [Store.history Store.recentTemplatePrompts Store.recentSubjectPrompts
         Store.recentDirectPrompts Store.templatePrompt Store.subjectPrompt
         Store.directPrompt].
    f_equal. rewrite !slice_0 by lia. rewrite take_app_take.
    now rewrite app_assoc.
  - unfold DirectGenerationMode.historyUpdater.
    rewrite !slice_0 by lia. rewrite take_app_take. now rewrite app_assoc.
Qed.

Lemma set_history_same (st : Store.StoreState) :
  Store.set_history (Store.history st) st = st.
Proof. destruct st; reflexivity. Qed.

Lemma set_history_twice (h1 h2 : list HistoryItem) (st : Store.StoreState) :
  Store.set_history h2 (Store.set_history h1 st) = Store.set_history h2 st.
Proof. reflexivity. Qed.

(** X4. Deleting an entry right after it was added gives the store back,
    provided its id is not used by an older entry and the history was
    below its cap. *)
Theorem add_then_delete_restores (item : HistoryItem)
    (st : Store.StoreState) :
  (forall e, e ∈ Store.history st -> id e <> id item) ->
  (length (Store.history st) < 50)%nat ->
  Store.deleteHistoryItem (id item) (Store.addToHistory (inl item) st) = st.
Proof.
  intros Hfresh Hlen.
  unfold Store.deleteHistoryItem, Store.addToHistory.
  rewrite set_history_twice. cbn [Store.history Store.set_history].
  rewrite slice_0 by lia. rewrite take_ge by (cbn [app length]; lia).
  cbn [app]. rewrite filter_cons_False by (intros H; now apply H).
  rewrite filter_all by exact Hfresh. apply set_history_same.
Qed.

Lemma add_then_delete_restores_witness :
  (length (Store.history store_ab) < 50)%nat
  /\ Store.deleteHistoryItem 7 (Store.addToHistory (inl (item_of 7)) store_ab)
     = store_ab.
Proof.
  split; [vm_compute; lia|].
  apply (add_then_delete_restores (item_of 7) store_ab).
  - intros e He.
    repeat (apply elem_of_cons in He as [->|He]; [discriminate|]).
    inversion He.
  - vm_compute. lia.
Defined.

(** X5. Delete-by-id without any assumption on the ids: the entries that
    remain are exactly those with another id (every entry carrying the id
    goes, also when ids collide), their order is kept, deleting twice is
    deleting once and deletions commute; [handleDeleteHistoryItem] of
    App.tsx computes the same history. *)
Theorem delete_by_id_general (i j : Z) (st : Store.StoreState)
    (app : App.AppState) :
  let h := Store.history st in
  let h' := Store.history (Store.deleteHistoryItem i st) in
  (forall e, e ∈ h' <-> e ∈ h /\ id e <> i)
  /\ h' `sublist_of` h
  /\ Store.deleteHistoryItem i (Store.deleteHistoryItem i st)
     = Store.deleteHistoryItem i st
  /\ Store.deleteHistoryItem i (Store.deleteHistoryItem j st)
     = Store.deleteHistoryItem j (Store.deleteHistoryItem i st)
  /\ (App.history app = h ->
      App.history (App.handleDeleteHistoryItem i app) = h').
Proof.
  intros h h'. split; [|split; [|split; [|split]]].
  - intros e. unfold h', Store.deleteHistoryItem. cbn [Store.history Store.set_history].
    rewrite list_elem_of_filter. tauto.
  - apply sublist_filter.
  - unfold Store.deleteHistoryItem. rewrite set_history_twice.
    cbn [Store.history Store.set_history]. f_equal.
    apply filter_all. intros x Hx. now apply list_elem_of_filter in Hx as [? _].
  - unfold Store.deleteHistoryItem. rewrite !set_history_twice.
    cbn [Store.history Store.set_history]. f_equal.
    rewrite !list_filter_filter. apply list_filter_iff. tauto.
  - intros Happ. cbn [App.handleDeleteHistoryItem App.history].
    now rewrite Happ.
Qed.

Lemma delete_by_id_general_witness :
  App.history (App.handleDeleteHistoryItem 2
                 (App.mkApp ModeDirect [] [] [] [] AR_1_1 AR_1_1 1
                    (Store.history store_ab) false))
  = [item_of 3; item_of 1].
Proof.
  destruct (delete_by_id_general 2 2 store_ab
              (App.mkApp ModeDirect [] [] [] [] AR_1_1 AR_1_1 1
                 (Store.history store_ab) false))
    as (_ & _ & _ & _ & Happ).
  rewrite (Happ eq_refl). reflexivity.
Defined.

(** The store keeps its bounds under every action. *)
Lemma apply_within_caps (st : Store.StoreState) (a : StoreRuns.Action) :
  StoreRuns.within_caps st -> StoreRuns.within_caps (StoreRuns.apply st a).
Proof.
  intros (Hh & Ht & Hs & Hd).
  destruct a as [newItem|i| |p|p|p]; cbn [StoreRuns.apply];
    unfold StoreRuns.within_caps.
  - split; [|auto]. unfold Store.addToHistory. cbn [Store.history Store.set_history].
    pose proof (slice_0_length 50
                  (match newItem with inl item => [item] | inr items => items end
                   ++ Store.history st) ltac:(lia)). lia.
  - split; [|auto]. unfold Store.deleteHistoryItem. cbn [Store.history Store.set_history].
    pose proof (length_filter (fun item => id item <> i) (Store.history st)). lia.
  - split; [cbn; lia | auto].
  - split; [exact Hh|]. split; [|auto].
    apply (recent_list_insert 10 ltac:(lia)). exact Ht.
  - split; [exact Hh|]. split; [exact Ht|]. split; [|exact Hd].
    apply (recent_list_insert 10 ltac:(lia)). exact Hs.
  - split; [exact Hh|]. split; [exact Ht|]. split; [exact Hs|].
    apply (recent_list_insert 10 ltac:(lia)). exact Hd.
Qed.

(** X6. Whatever sequence of store actions runs from the initial state,
    the history never holds more than 50 entries and each recent-prompt
    list never holds more than 10 prompts nor the same prompt twice. *)
Theorem store_stays_within_caps (acts : list StoreRuns.Action) :
  StoreRuns.within_caps (StoreRuns.run_actions StoreRuns.initialStore acts).
Proof.
  assert (Hinit : StoreRuns.within_caps StoreRuns.initialStore).
  { unfold StoreRuns.within_caps, recent_list. cbn.
    repeat split; try constructor; lia. }
  revert Hinit. generalize StoreRuns.initialStore.
  unfold StoreRuns.run_actions.
  induction acts as [|a acts IH]; intros st Hst; [exact Hst|].
  cbn [foldl]. apply IH. now apply apply_within_caps.
Qed.

(** X7. The entries built from one direct batch: one per image, in the
    order of the images, each with the submitted prompt; their ids are
    pairwise distinct as long as the clock does not run backwards. *)
Theorem direct_batch_ids_distinct (clock : nat -> Z) (images : list jsstring)
    (usedPrompt neg : jsstring) (ar : AspectRatio) :
  (forall i j : nat, (i <= j)%nat -> clock i <= clock j) ->
  let items := DirectGenerationMode.newHistoryItems clock images usedPrompt
                 neg ar in
  NoDup (id <$> items)
  /\ image <$> items = images
  /\ Forall (fun item => prompt item = usedPrompt /\ type item = HDirect) items.
Proof.
  intros Hmono items. split; [|split].
  - apply NoDup_alt. intros i j x Hi Hj.
    unfold items, DirectGenerationMode.newHistoryItems in Hi, Hj.
    rewrite list_lookup_fmap, list_lookup_imap in Hi, Hj.
    destruct (images !! i) as [a|]; [|discriminate].
    destruct (images !! j) as [b|]; [|discriminate].
    cbn [fmap option_fmap option_map id] in Hi, Hj.
    injection Hi as Hi. injection Hj as Hj.
    destruct (Nat.lt_trichotomy i j) as [Hlt|[Heq|Hgt]]; [|exact Heq|].
    + pose proof (Hmono (i + (i + 0))%nat (j + (j + 0))%nat ltac:(lia)). lia.
    + pose proof (Hmono (j + (j + 0))%nat (i + (i + 0))%nat ltac:(lia)). lia.
  - apply newHistoryItems_images.
  - apply Forall_forall. intros item Hin.
    unfold items, DirectGenerationMode.newHistoryItems in Hin.
    apply list_elem_of_lookup in Hin as [i Hi].
    rewrite list_lookup_imap in Hi.
    destruct (images !! i); [|discriminate].
    injection Hi as <-. split; reflexivity.
Qed.

Lemma direct_batch_ids_distinct_witness :
  NoDup (id <$> DirectGenerationMode.newHistoryItems
                  (fun k => 1700000000000 + Z.of_nat k)
                  [js "one"; js "two"; js "three"] (js "a logo") [] AR_1_1).
Proof.
  destruct (direct_batch_ids_distinct
              (fun k => 1700000000000 + Z.of_nat k)
              [js "one"; js "two"; js "three"] (js "a logo") [] AR_1_1)
    as [H _]; [intros i j Hij; lia | exact H].
Defined.

(** ** The API functions for every input *)

Lemma map_async_dispatch {A B} (req : GenerateContentParameters)
    (k : GenerateContentResponse -> outcome B) (slots : list A) (w : World)
    (log : list Call) :
  exists ps : list (settled B),
    GeminiApi.map_async
      (fun _ => do p <- call_generateContent req; ret (and_then p k))
      slots w log
    = (Fulfilled ps, log ++ replicate (length slots) (GenerateContent req))
    /\ length ps = length slots.
Proof.
  revert log. induction slots as [|x slots IH]; intros log.
  - exists []. cbn. now rewrite app_nil_r.
  - destruct (IH (log ++ [GenerateContent req])) as (ps & Hps & Hlen).
    eexists (_ :: ps). split.
    + cbn [GeminiApi.map_async].
      unfold bind, call_generateContent, dispatch, ret in *.
      cbn beta iota zeta. rewrite Hps.
      cbn [length replicate]. rewrite <- app_assoc. reflexivity.
    + cbn [length]. now rewrite Hlen.
Qed.

Lemma values_length {A} (ps : list (settled A)) :
  (length (values ps) <= length ps)%nat.
Proof.
  unfold values. induction ps as [|[t [v|e]] ps IH]; cbn; lia.
Qed.

Lemma omap_length_le {A B} (f : A -> option B) (l : list A) :
  (length (omap f l) <= length l)%nat.
Proof. induction l as [|a l IH]; cbn; [lia|]. destruct (f a); cbn; lia. Qed.

Lemma generateVariations_run (b neg : jsstring) (n : Z) (w : World) :
  0 <= n <= 4294967295 ->
  exists ps : list (settled (option jsstring)),
    length ps = Z.to_nat n
    /\ run (GeminiApi.generateVariations b neg n) w
       = (match Promise.all ps with
          | Fulfilled results =>
              Fulfilled (omap (fun result => result) results)
          | Rejected e => Rejected e
          end,
          replicate (Z.to_nat n) (GenerateContent (variation_request b neg))).
Proof.
  intros Hn. unfold run, GeminiApi.generateVariations.
  fold (variation_request b neg).
  unfold bind at 1. unfold GeminiApi.new_array.
  change (2 ^ 32 - 1) with 4294967295.
  destruct (n <? 0) eqn:E1; [lia|].
  destruct (4294967295 <? n) eqn:E2; [lia|].
  cbn [orb]. unfold ret at 1. unfold bind at 1.
  destruct (map_async_dispatch (variation_request b neg)
              GeminiApi.image_of_response (replicate (Z.to_nat n) tt) w [])
    as (ps & Hps & Hlen).
  exists ps. rewrite length_replicate in *. split; [exact Hlen|].
  unfold variation_request in Hps. unfold variation_request.
  rewrite Hps. cbn [app]. unfold bind, settle, ret.
  destruct (Promise.all ps); reflexivity.
Qed.

(** X8. [generateVariations] for any requested number [n]: a valid array
    length dispatches exactly [n] copies of the same request, whatever the
    model answers, and a fulfilled result never holds more than [n]
    images; a negative [n] rejects with a [RangeError] before any call. *)
Theorem generateVariations_dispatches_n (b neg : jsstring) (n : Z)
    (w : World) :
  (0 <= n <= 4294967295 ->
   snd (run (GeminiApi.generateVariations b neg n) w)
   = replicate (Z.to_nat n) (GenerateContent (variation_request b neg))
   /\ forall imgs,
        fst (run (GeminiApi.generateVariations b neg n) w) = Fulfilled imgs ->
        Z.of_nat (length imgs) <= n)
  /\ (n < 0 ->
      run (GeminiApi.generateVariations b neg n) w = (Rejected RangeError, [])).
Proof.
  split.
  - intros Hn. destruct (generateVariations_run b neg n w Hn)
      as (ps & Hlen & ->). cbn [fst snd].
    split; [reflexivity|]. intros imgs Himgs.
    unfold Promise.all in Himgs.
    destruct (first_rejection ps) as [[t e]|]; [discriminate|].
    injection Himgs as <-.
    pose proof (omap_length_le (fun result : option jsstring => result)
                  (values ps)).
    pose proof (values_length ps). lia.
  - intros Hn. unfold run, GeminiApi.generateVariations.
    unfold bind at 1. unfold GeminiApi.new_array.
    destruct (n <? 0) eqn:E1; [|lia]. reflexivity.
Qed.

Lemma generateVariations_dispatches_n_witness :
  snd (run (GeminiApi.generateVariations png_a [] 3) world_one_rejection)
  = replicate 3 (GenerateContent (variation_request png_a [])).
Proof.
  destruct (generateVariations_dispatches_n png_a [] 3 world_one_rejection)
    as [H _].
  destruct (H ltac:(lia)) as [Hlog _]. exact Hlog.
Defined.

Lemma run_bind {A B} (m : Async A) (k : A -> Async B) (w : World) :
  run (bind m k) w
  = match run m w with
    | (Fulfilled a, log) => k a w log
    | (Rejected e, log) => (Rejected e, log)
    end.
Proof. reflexivity. Qed.

Lemma run_try_catch {A} (m : Async A) (h : JsError -> Async A) (w : World) :
  run (try_catch m h) w
  = match run m w with
    | (Fulfilled a, log) => (Fulfilled a, log)
    | (Rejected e, log) => h e w log
    end.
Proof. reflexivity. Qed.

(** X9. The variation action always settles to a state, never to a
    rejection; it dispatches either nothing or exactly two copies of the
    variation request; without a base image it keeps the previous images
    and calls nothing; and a state without an error always shows at least
    one image, while an error after a dispatched run shows none. *)
Theorem variations_action_total (eng : Engine)
    (prev : VariationGenerator.VariationFormState)
    (fd : VariationGenerator.VariationFormData) (w : World) :
  exists st,
    run (VariationGenerator.generateVariationsAction eng prev fd) w
    = (Fulfilled st,
       if truthy (VariationGenerator.base_image fd)
       then replicate 2
              (GenerateContent
                 (variation_request
                    (default [] (VariationGenerator.base_image fd))
                    (default [] (VariationGenerator.negative_prompt fd))))
       else [])
    /\ (truthy (VariationGenerator.base_image fd) = false ->
        st = VariationGenerator.mkVariationState
               (VariationGenerator.images prev)
               (Some (js "Base image is missing.")))
    /\ (truthy (VariationGenerator.base_image fd) = true ->
        (VariationGenerator.error st = None
         /\ VariationGenerator.images st <> [])
        \/ (VariationGenerator.error st <> None
            /\ VariationGenerator.images st = [])).
Proof.
  unfold VariationGenerator.generateVariationsAction.
  destruct (VariationGenerator.base_image fd) as [b|] eqn:Eb; cbn [truthy].
  2:{ eexists. split; [reflexivity|]. split; [reflexivity|discriminate]. }
  destruct (truthy_str b) eqn:Et.
  2:{ eexists. split; [reflexivity|]. split; [reflexivity|discriminate]. }
  rewrite run_try_catch, run_bind.
  destruct (generateVariations_run b
              (default [] (VariationGenerator.negative_prompt fd)) 2 w
              ltac:(lia)) as (ps & Hlen & ->).
  cbn [default from_option].
  destruct (Promise.all ps) as [results|e].
  - destruct (omap (fun result => result) results) as [|img imgs] eqn:Er.
    + eexists. split; [reflexivity|]. split; [discriminate|].
      intros _. right. split; [discriminate|reflexivity].
    + eexists. split; [reflexivity|]. split; [discriminate|].
      intros _. left. split; [reflexivity|discriminate].
  - eexists. split; [reflexivity|]. split; [discriminate|].
    intros _. right. split; [discriminate|reflexivity].
Qed.

Lemma variations_action_total_witness :
  truthy (VariationGenerator.base_image variation_form) = true
  /\ exists st,
       fst (run (VariationGenerator.generateVariationsAction ascii_engine
                   variation_idle variation_form) world_one_rejection)
       = Fulfilled st.
Proof.
  split; [reflexivity|].
  destruct (variations_action_total ascii_engine variation_idle
              variation_form world_one_rejection) as (st & Hrun & _).
  exists st. now rewrite Hrun.
Defined.

(** X10. [handleApiError] never shows the text of the error it received:
    whatever was thrown, and whatever the engine's case folding does, the
    result is one of six fixed messages; a thrown value that is not an
    [Error] gets the generic one. *)
Theorem handleApiError_fixed_messages (eng : Engine) (e : JsError) :
  handleApiError eng e ∈
    [js "The Gemini API key is invalid or missing. Please check your configuration.";
     js "Your request was blocked due to the safety policy. Please modify your prompt and try again.";
     js "You have exceeded your API quota. Please check your Google AI Studio account.";
     js "The request to the AI model timed out. Please try again in a few moments.";
     js "A network error occurred. Please check your internet connection and try again.";
     js "An unexpected error occurred. Please try again."]
  /\ handleApiError eng ThrownValue
     = js "An unexpected error occurred. Please try again.".
Proof.
  split; [|reflexivity].
  unfold handleApiError.
  destruct (message_of eng e) as [m|].
  - destruct (includes (js "api key not valid") _);
      [apply list_elem_of_here|].
    destruct (includes (js "safety") _ || includes (js "blocked") _);
      [apply list_elem_of_further, list_elem_of_here|].
    destruct (includes (js "quota") _);
      [do 2 apply list_elem_of_further; apply list_elem_of_here|].
    destruct (includes (js "timeout") _);
      [do 3 apply list_elem_of_further; apply list_elem_of_here|].
    destruct (includes (js "failed to fetch") _);
      [do 4 apply list_elem_of_further; apply list_elem_of_here|].
    do 5 apply list_elem_of_further. apply list_elem_of_here.
  - do 5 apply list_elem_of_further. apply list_elem_of_here.
Qed.

Lemma split_aux_no_sep (sep : code_unit) (cur s : jsstring) :
  sep ∉ s -> split_aux sep cur s = [rev cur ++ s].
Proof.
  revert cur. induction s as [|c s IH]; intros cur Hs; cbn [split_aux].
  - now rewrite app_nil_r.
  - apply not_elem_of_cons in Hs as [Hc Hs].
    destruct (N.eqb_spec c sep) as [->|_]; [now contradiction Hc|].
    rewrite IH by exact Hs. cbn [rev]. now rewrite <- app_assoc.
Qed.

Lemma split_data_url (payload : jsstring) :
  split comma (GeminiApi.data_url (Some payload))
  = js "data:image/png;base64" :: split comma payload.
Proof. reflexivity. Qed.

(** X11. The data URL built by the generation functions and the
    [split(',')[1]] of the functions that send an image back to the model
    are inverse to each other: when the bytes of a generated template hold
    no comma (base64 has none), [generateFinalImage] called on its data URL
    sends exactly those bytes, in a single request. *)
Theorem data_url_payload_round_trip (payload subject neg : jsstring)
    (w : World) :
  comma ∉ payload ->
  split comma (GeminiApi.data_url (Some payload)) !! 1%nat = Some payload
  /\ snd (run (GeminiApi.generateFinalImage subject
                 (GeminiApi.data_url (Some payload)) None neg) w)
     = [GenerateContent
          (mkGenerateContent GeminiApi.image_model
             (ContentParts
                [InlineData (js "image/png") (Some payload);
                 TextPart (if truthy_str neg then GeminiApi.avoid subject neg
                           else subject)])
             None None)].
Proof.
  intros Hfree.
  assert (Hsplit : split comma (GeminiApi.data_url (Some payload)) !! 1%nat
                   = Some payload).
  { rewrite split_data_url. cbn [lookup list_lookup].
    unfold split. now rewrite split_aux_no_sep. }
  split; [exact Hsplit|].
  unfold run, GeminiApi.generateFinalImage. rewrite Hsplit.
  unfold bind, call_generateContent, dispatch, await, settle.
  cbn [length app fst snd].
  destruct (generateContent w 0%nat _); reflexivity.
Qed.

Lemma data_url_payload_round_trip_witness :
  split comma (GeminiApi.data_url (Some (js "iVBORw0KGgo="))) !! 1%nat
  = Some (js "iVBORw0KGgo=").
Proof.
  apply (data_url_payload_round_trip (js "iVBORw0KGgo=") (js "a cat") []
           world_one_rejection).
  intros Hin. vm_compute in Hin.
  repeat (apply elem_of_cons in Hin as [Hin|Hin]; [discriminate|]).
  inversion Hin.
Defined.

(** X12. The stage-1 action always settles to a state; it dispatches one
    image request exactly when the prompt is non-empty; a rejected
    validation keeps the previous image and prompt record; and a dispatched
    run ends either in the failure state without an image or in a state
    with a non-empty image, no error, and the submitted prompt on record. *)
Theorem template_action_total (fresh : nat) (now : Z)
    (prev : CompositionMode.TemplateFormState)
    (fd : CompositionMode.TemplateFormData) (w : World) :
  exists st,
    run (CompositionMode.generateTemplateAction fresh now prev fd) w
    = (Fulfilled st,
       if truthy (CompositionMode.template_prompt fd)
       then [GenerateImages (template_request fd)] else [])
    /\ (truthy (CompositionMode.template_prompt fd) = false ->
        st = CompositionMode.mkFormState (CompositionMode.image prev)
               (Some (js "Template prompt is required."))
               (CompositionMode.promptUsed prev))
    /\ (truthy (CompositionMode.template_prompt fd) = true ->
        st = CompositionMode.mkFormState None
               (Some (js "Failed to generate template image.")) None
        \/ exists img,
             truthy_str img = true
             /\ st = CompositionMode.mkFormState (Some img) None
                       (Some (CompositionMode.mkPromptUsed fresh
                                (default [] (CompositionMode.template_prompt fd))
                                now))).
Proof.
  unfold run, CompositionMode.generateTemplateAction.
  destruct (truthy (CompositionMode.template_prompt fd)) eqn:Hp; cbn [negb].
  2:{ eexists. split; [reflexivity|]. split; [reflexivity|discriminate]. }
  unfold try_catch, bind, GeminiApi.generateTemplateImage.
  fold (template_request fd).
  unfold bind, call_generateImages, dispatch, await, settle, ret, throw.
  cbn [length snd fst app].
  destruct (generateImages w 0%nat (template_request fd)) as [response|e].
  - destruct (generatedImages response) as [|bytes rest].
    + eexists. split; [reflexivity|]. split; [discriminate|]. now left.
    + eexists. split; [reflexivity|]. split; [discriminate|].
      intros _. right. eexists. split; [|reflexivity]. reflexivity.
  - eexists. split; [reflexivity|]. split; [discriminate|]. now left.
Qed.

Lemma template_action_total_witness :
  truthy (CompositionMode.template_prompt (template_form "P1")) = true
  /\ exists st,
       fst (run (CompositionMode.generateTemplateAction 1 1700000000000
                   CompositionMode.initialFormState (template_form "P1"))
              world_templates)
       = Fulfilled st.
Proof.
  split; [reflexivity|].
  destruct (template_action_total 1 1700000000000
              CompositionMode.initialFormState (template_form "P1") world_templates)
    as (st & Hrun & _).
  exists st. now rewrite Hrun.
Defined.

Lemma generateFinalImage_one_call (subject template : jsstring)
    (style : option jsstring) (neg : jsstring) (w : World)
    (log0 : list Call) :
  exists o req,
    GeminiApi.generateFinalImage subject template style neg w log0
    = (o, log0 ++ [GenerateContent req]).
Proof.
  unfold GeminiApi.generateFinalImage.
  destruct style as [s|]; [destruct (truthy_str s)|];
    unfold bind, call_generateContent, dispatch, await, settle;
    cbn [fst snd];
    match goal with
    | |- context [generateContent w ?n ?r] =>
        destruct (generateContent w n r); do 2 eexists; reflexivity
    end.
Qed.

Lemma one_generation_call (pre : list Call) (req : GenerateContentParameters) :
  Forall (fun c => is_generation_call c = false) pre ->
  (length (filter (fun c => is_generation_call c = true)
             (pre ++ [GenerateContent req])) <= 1)%nat.
Proof.
  induction 1 as [|c pre Hc _ IH].
  { cbn [app]. rewrite filter_cons_True by reflexivity.
    rewrite filter_nil. cbn [length]. lia. }
  cbn [app]. rewrite filter_cons_False by congruence. exact IH.
Qed.

(** X13. The stage-2 action always settles to a state and dispatches at
    most one generation call; when the style reference cannot be
    converted, the run ends with the message about the style reference and
    the model is not called at all; and a state without an error holds a
    non-empty image together with the submitted subject prompt. *)
Theorem final_action_total (fresh : nat) (now : Z)
    (prev : CompositionMode.FinalImageFormState)
    (fd : CompositionMode.FinalFormData) (w : World) :
  exists st log,
    run (CompositionMode.generateFinalImageAction fresh now prev fd) w
    = (Fulfilled st, log)
    /\ (length (filter (fun c => is_generation_call c = true) log) <= 1)%nat
    /\ (forall f e,
          truthy (CompositionMode.subject_prompt fd) = true ->
          truthy (CompositionMode.selected_template fd) = true ->
          CompositionMode.style_ref fd = Some f -> 0 < file_size f ->
          fileToBase64 w 0%nat f = Rejected e ->
          st = CompositionMode.mkFormState None
                 (Some (js "Could not process the style reference image."))
                 None
          /\ log = [FileToBase64 f])
    /\ (CompositionMode.error st = None ->
        truthy (CompositionMode.image st) = true
        /\ CompositionMode.promptUsed st
           = Some (CompositionMode.mkPromptUsed fresh
                     (default [] (CompositionMode.subject_prompt fd)) now)).
Proof.
  unfold run, CompositionMode.generateFinalImageAction.
  destruct (truthy (CompositionMode.subject_prompt fd)) eqn:Hs; cbn [negb].
  2:{ do 2 eexists. split; [reflexivity|]. cbn.
      split; [lia|]. split; discriminate. }
  destruct (truthy (CompositionMode.selected_template fd)) eqn:Ht; cbn [negb].
  2:{ do 2 eexists. split; [reflexivity|]. cbn.
      split; [lia|]. split; discriminate. }
  cbv zeta.
  destruct (CompositionMode.style_ref fd) as [f|] eqn:Hf;
    [destruct (0 <? file_size f) eqn:Hsize|].
  - unfold bind at 1, attempt, bind at 1, call_fileToBase64, dispatch, await,
      settle.
    cbn [length app fst snd].
    destruct (fileToBase64 w 0%nat f) as [style|e0] eqn:Hconv.
    + unfold try_catch, bind.
      match goal with
      | |- context [GeminiApi.generateFinalImage ?a ?b ?c ?d ?w ?l] =>
          destruct (generateFinalImage_one_call a b c d w l)
            as (o & req & ->)
      end.
      destruct o as [[img|]|e1]; [destruct (truthy_str img) eqn:Himg| |];
        cbn [truthy]; rewrite ?Himg; unfold ret;
        do 2 eexists; (split; [reflexivity|]);
        (split; [apply (one_generation_call [FileToBase64 f]);
                 apply Forall_cons_2; [reflexivity|apply Forall_nil_2]|]);
        (split; [intros f' e' _ _ [= <-] _ Hrej; rewrite Hconv in Hrej;
                 discriminate Hrej|]);
        cbn [CompositionMode.error CompositionMode.image
             CompositionMode.promptUsed truthy];
        first [discriminate | intros _; split; [exact Himg|reflexivity]].
    + unfold ret. do 2 eexists. split; [reflexivity|].
      split; [rewrite filter_cons_False by (cbn; discriminate);
              rewrite filter_nil; cbn [length]; lia|].
      split; [|discriminate].
      intros f' e' _ _ [= <-] _ _. split; reflexivity.
  - unfold try_catch, bind.
    match goal with
    | |- context [GeminiApi.generateFinalImage ?a ?b ?c ?d ?w ?l] =>
        destruct (generateFinalImage_one_call a b c d w l)
          as (o & req & ->)
    end.
    apply Z.ltb_ge in Hsize.
    destruct o as [[img|]|e1]; [destruct (truthy_str img) eqn:Himg| |];
      cbn [truthy]; rewrite ?Himg; unfold ret;
      do 2 eexists; (split; [reflexivity|]);
      (split; [apply (one_generation_call []); apply Forall_nil_2|]);
      (split; [intros f' e' _ _ [= <-] Hpos _; lia|]);
      cbn [CompositionMode.error CompositionMode.image
           CompositionMode.promptUsed truthy];
      first [discriminate | intros _; split; [exact Himg|reflexivity]].
  - unfold try_catch, bind.
    match goal with
    | |- context [GeminiApi.generateFinalImage ?a ?b ?c ?d ?w ?l] =>
        destruct (generateFinalImage_one_call a b c d w l)
          as (o & req & ->)
    end.
    destruct o as [[img|]|e1]; [destruct (truthy_str img) eqn:Himg| |];
      cbn [truthy]; rewrite ?Himg; unfold ret;
      do 2 eexists; (split; [reflexivity|]);
      (split; [apply (one_generation_call []); apply Forall_nil_2|]);
      (split; [intros f' e' _ _ [=]|]);
      cbn [CompositionMode.error CompositionMode.image
           CompositionMode.promptUsed truthy];
      first [discriminate | intros _; split; [exact Himg|reflexivity]].
Qed.

Lemma final_action_total_witness :
  run (CompositionMode.generateFinalImageAction 0 1700000000000
         CompositionMode.initialFormState final_form_with_style)
      world_one_rejection
  = (Fulfilled
       (CompositionMode.mkFormState None
          (Some (js "Could not process the style reference image.")) None),
     [FileToBase64 style_file]).
Proof.
  destruct (final_action_total 0 1700000000000
              CompositionMode.initialFormState final_form_with_style
              world_one_rejection)
    as (st & log & Hrun & _ & Hconv & _).
  rewrite Hrun.
  destruct (Hconv style_file ThrownValue eq_refl eq_refl eq_refl
              ltac:(cbn; lia) eq_refl) as [-> ->].
  reflexivity.
Defined.

Lemma editImage_one_call (baseImage editPrompt neg : jsstring) (w : World)
    (log0 : list Call) :
  exists o req,
    GeminiApiMore.editImage baseImage editPrompt neg w log0
    = (o, log0 ++ [GenerateContent req])
    /\ (forall e, generateContent w (length log0) req = Rejected e ->
        o = Rejected e).
Proof.
  unfold GeminiApiMore.editImage.
  unfold bind, call_generateContent, dispatch, await, settle.
  cbn [fst snd].
  match goal with
  | |- context [generateContent w ?n ?r] =>
      destruct (generateContent w n r) eqn:E; do 2 eexists;
        (split; [reflexivity|]); intros e' He'; rewrite E in He';
        first [discriminate He' | now injection He' as ->]
  end.
Qed.

(** X14. The edit action of the simple editor always settles to a state;
    both validations come before any call and keep the previous image; a
    dispatched run makes exactly one call and ends with an image and no
    error, or with an error and no image; when the model call itself
    rejects with an [Error], its message is shown to the user behind
    "Failed to edit image: ". *)
Theorem editImageAction_total (eng : Engine)
    (prev : ImageEditor.EditFormState) (fd : ImageEditor.EditFormData)
    (w : World) :
  exists st log,
    run (ImageEditor.editImageAction eng prev fd) w = (Fulfilled st, log)
    /\ (truthy (ImageEditor.edit_prompt fd)
        && truthy (ImageEditor.base_image fd) = false ->
        log = [] /\ ImageEditor.image st = ImageEditor.image prev
        /\ ImageEditor.error st <> None)
    /\ (truthy (ImageEditor.edit_prompt fd)
        && truthy (ImageEditor.base_image fd) = true ->
        (exists req,
           log = [GenerateContent req]
           /\ forall m, generateContent w 0%nat req = Rejected (ErrorObj m) ->
                ImageEditor.error st = Some (js "Failed to edit image: " ++ m))
        /\ (truthy (ImageEditor.image st) = true
            /\ ImageEditor.error st = None
            \/ ImageEditor.image st = None
               /\ ImageEditor.error st <> None)).
Proof.
  unfold run, ImageEditor.editImageAction.
  destruct (truthy (ImageEditor.edit_prompt fd)) eqn:Hp; cbn [negb andb].
  2:{ do 2 eexists. split; [reflexivity|]. split; [|discriminate].
      intros _. split; [reflexivity|]. split; [reflexivity|discriminate]. }
  destruct (truthy (ImageEditor.base_image fd)) eqn:Hb; cbn [negb].
  2:{ do 2 eexists. split; [reflexivity|]. split; [|discriminate].
      intros _. split; [reflexivity|]. split; [reflexivity|discriminate]. }
  unfold try_catch, bind.
  match goal with
  | |- context [GeminiApiMore.editImage ?a ?b ?c ?w ?l] =>
      destruct (editImage_one_call a b c w l) as (o & req & -> & Hrej)
  end.
  cbn [length] in Hrej.
  destruct o as [[img|]|e1]; [destruct (truthy_str img) eqn:Himg| |];
    cbn [truthy]; rewrite ?Himg; unfold ret;
    do 2 eexists; (split; [reflexivity|]); (split; [discriminate|]);
    intros _; cbn [app ImageEditor.image ImageEditor.error truthy];
    (split;
     [exists req; split; [reflexivity|]; intros m Hm;
      specialize (Hrej _ Hm); first [discriminate Hrej | idtac]
     |first [left; split; [exact Himg|reflexivity]
            |right; split; [reflexivity|discriminate]]]).
  injection Hrej as ->. reflexivity.
Qed.

Lemma editImageAction_total_witness :
  exists st,
    fst (run (ImageEditor.editImageAction ascii_engine edit_idle edit_form)
           world_one_rejection)
    = Fulfilled st
    /\ ImageEditor.error st
       = Some (js "Failed to edit image: Quota exceeded").
Proof.
  destruct (editImageAction_total ascii_engine edit_idle edit_form
              world_one_rejection) as (st & log & Hrun & _ & Hgo).
  exists st. rewrite Hrun. split; [reflexivity|].
  destruct (Hgo eq_refl) as [(req & Hlog & Hmsg) _].
  assert (Hreq : req = mkGenerateContent GeminiApi.image_model
                         (ContentParts
                            [InlineData (js "image/png") (Some (js "AAAA"));
                             TextPart (js "make it blue")])
                         None None).
  { subst log. injection Hrun as _ Hr. symmetry. exact Hr. }
  subst req. exact (Hmsg (js "Quota exceeded") eq_refl).
Defined.

(** ** Direct generation *)

(** X15. The direct action always settles to a state; it dispatches one
    request exactly when the prompt is non-empty, and that request never
    asks for zero images (a batch size that parses to [NaN] or to 0
    becomes 1); a rejected validation keeps the previous images; a
    dispatched run ends in a new array of images with the submitted prompt
    on record, or in the failure state with no image at all. *)
Theorem direct_action_total (fresh_obj fresh_arr : nat) (now : Z)
    (prev : DirectGeneration.DirectFormState)
    (fd : DirectGeneration.DirectFormData) (w : World) :
  exists st,
    run (DirectGeneration.generateDirectAction fresh_obj fresh_arr now prev fd)
        w
    = (Fulfilled st,
       if truthy (DirectGeneration.direct_prompt fd)
       then [GenerateImages (direct_request fd)] else [])
    /\ gi_numberOfImages (direct_request fd) <> 0
    /\ (truthy (DirectGeneration.direct_prompt fd) = false ->
        st = DirectGeneration.mkDirectState (DirectGeneration.images prev)
               (DirectGeneration.images_ref prev)
               (Some (js "Prompt is required."))
               (DirectGeneration.promptUsed prev))
    /\ (truthy (DirectGeneration.direct_prompt fd) = true ->
        (exists urls,
           st = DirectGeneration.mkDirectState urls fresh_arr None
                  (Some (CompositionMode.mkPromptUsed fresh_obj
                           (default [] (DirectGeneration.direct_prompt fd))
                           now))
           /\ Forall (fun url => truthy_str url = true) urls)
        \/ st = DirectGeneration.mkDirectState [] fresh_arr
                  (Some (js "Failed to generate images.")) None).
Proof.
  assert (Hone : gi_numberOfImages (direct_request fd) <> 0).
  { unfold direct_request, DirectGeneration.or_one. cbn [gi_numberOfImages].
    destruct (DirectGeneration.batch_size fd) as [n|]; [|discriminate].
    destruct (Z.eqb_spec n 0); [discriminate|assumption]. }
  unfold run, DirectGeneration.generateDirectAction.
  destruct (truthy (DirectGeneration.direct_prompt fd)) eqn:Hp; cbn [negb].
  2:{ eexists. split; [reflexivity|]. split; [exact Hone|].
      split; [reflexivity|discriminate]. }
  unfold try_catch, bind, GeminiApiMore.generateDirectImages.
  fold (direct_request fd).
  unfold bind, call_generateImages, dispatch, await, settle, ret.
  cbn [length snd fst app].
  destruct (generateImages w 0%nat (direct_request fd)) as [response|e].
  - eexists. split; [reflexivity|]. split; [exact Hone|].
    split; [discriminate|]. intros _. left. eexists. split; [reflexivity|].
    apply Forall_forall. intros url Hurl.
    apply list_elem_of_fmap in Hurl as (bytes & -> & _). reflexivity.
  - eexists. split; [reflexivity|]. split; [exact Hone|].
    split; [discriminate|]. intros _. now right.
Qed.

Lemma direct_action_total_witness :
  truthy (DirectGeneration.direct_prompt direct_form) = true
  /\ snd (run (DirectGeneration.generateDirectAction 2 2 1700000000000
                 DirectGeneration.initialFormState direct_form)
            world_empty_batch)
     = [GenerateImages
          (mkGenerateImages (js "imagen-4.0-generate-001") (js "a logo") 1
             AR_1_1)].
Proof.
  split; [reflexivity|].
  destruct (direct_action_total 2 2 1700000000000
              DirectGeneration.initialFormState direct_form world_empty_batch)
    as (st & Hrun & _).
  rewrite Hrun. reflexivity.
Defined.

(** X16. What a direct submission does to the component when no image
    comes back.  If the model call fails, the images on display are
    cleared, while history and recent prompts stay as they were; if the
    model answers with an empty batch, nothing is displayed and no error is
    reported, the prompt still enters the recent list and the history is
    not touched. *)
Theorem direct_submission_without_images (fresh_obj fresh_arr : nat)
    (now : Z) (clock : nat -> Z) (fd : DirectGeneration.DirectFormData)
    (c : DirectGeneration.Component) (w : World) :
  truthy (DirectGeneration.direct_prompt fd) = true ->
  fresh_arr <> DirectGeneration.images_ref (DirectGeneration.directState c) ->
  (forall e,
     generateImages w 0%nat (direct_request fd) = Rejected e ->
     exists c',
       fst (run (DirectGeneration.submit_direct fresh_obj fresh_arr now clock
                   fd c) w) = Fulfilled c'
       /\ DirectGeneration.displayImages c' = []
       /\ DirectGeneration.error (DirectGeneration.directState c')
          = Some (js "Failed to generate images.")
       /\ DirectGeneration.props_history c' = DirectGeneration.props_history c
       /\ DirectGeneration.recentDirectPrompts c'
          = DirectGeneration.recentDirectPrompts c)
  /\ (generateImages w 0%nat (direct_request fd)
      = Fulfilled (mkImagesResponse []) ->
      CompositionMode.same_ref
        (DirectGeneration.promptUsed (DirectGeneration.directState c))
        (Some (CompositionMode.mkPromptUsed fresh_obj
                 (default [] (DirectGeneration.direct_prompt fd)) now))
      = false ->
      exists c',
        fst (run (DirectGeneration.submit_direct fresh_obj fresh_arr now clock
                    fd c) w) = Fulfilled c'
        /\ DirectGeneration.displayImages c' = []
        /\ DirectGeneration.error (DirectGeneration.directState c') = None
        /\ DirectGeneration.props_history c'
           = DirectGeneration.props_history c
        /\ DirectGeneration.recentDirectPrompts c'
           = DirectGenerationMode.recentPromptsUpdater
               (default [] (DirectGeneration.direct_prompt fd))
               (DirectGeneration.recentDirectPrompts c)).
Proof.
  intros Hp Hfresh.
  apply Nat.eqb_neq in Hfresh. rewrite Nat.eqb_sym in Hfresh.
  assert (Hrun : forall o,
    generateImages w 0%nat (direct_request fd) = o ->
    run (DirectGeneration.generateDirectAction fresh_obj fresh_arr now
           (DirectGeneration.directState c) fd) w
    = (Fulfilled
         match o with
         | Fulfilled response =>
             DirectGeneration.mkDirectState
               (map GeminiApi.data_url (generatedImages response)) fresh_arr
               None
               (Some (CompositionMode.mkPromptUsed fresh_obj
                        (default [] (DirectGeneration.direct_prompt fd)) now))
         | Rejected _ =>
             DirectGeneration.mkDirectState [] fresh_arr
               (Some (js "Failed to generate images.")) None
         end,
       [GenerateImages (direct_request fd)])).
  { intros o Ho. unfold run, DirectGeneration.generateDirectAction.
    rewrite Hp. cbn [negb].
    unfold try_catch, bind, GeminiApiMore.generateDirectImages.
    fold (direct_request fd).
    unfold bind, call_generateImages, dispatch, await, settle, ret.
    cbn [length snd fst app]. rewrite Ho. destruct o; reflexivity. }
  split.
  - intros e He. eexists. split.
    { unfold DirectGeneration.submit_direct. rewrite run_bind.
      rewrite (Hrun _ He). reflexivity. }
    unfold DirectGeneration.direct_settled.
    cbn [DirectGeneration.images_ref DirectGeneration.promptUsed].
    rewrite Hfresh.
    destruct (DirectGeneration.promptUsed (DirectGeneration.directState c));
      cbn [CompositionMode.same_ref];
      unfold DirectGeneration.effect_promptUsed, DirectGeneration.effect_images;
      cbn; repeat split; reflexivity.
  - intros Hresp Href. eexists. split.
    { unfold DirectGeneration.submit_direct. rewrite run_bind.
      rewrite (Hrun _ Hresp). reflexivity. }
    unfold DirectGeneration.direct_settled.
    cbn [DirectGeneration.images_ref DirectGeneration.promptUsed
         generatedImages map].
    rewrite Hfresh, Href.
    unfold DirectGeneration.effect_promptUsed, DirectGeneration.effect_images.
    cbn [DirectGeneration.directState DirectGeneration.promptUsed
         DirectGeneration.images DirectGeneration.displayImages
         DirectGeneration.error DirectGeneration.props_history
         DirectGeneration.recentDirectPrompts
         DirectGeneration.props_negativePrompt
         DirectGeneration.props_aspectRatio CompositionMode.pu_prompt length].
    change (0 <? Z.of_nat 0) with false. cbn iota.
    repeat split; reflexivity.
Qed.

Lemma direct_submission_without_images_witness :
  exists c',
    fst (run (DirectGeneration.submit_direct 2 2 1700000000000
                (fun k => 1700000000000 + Z.of_nat k) direct_form
                direct_component) world_empty_batch) = Fulfilled c'
    /\ DirectGeneration.displayImages c' = []
    /\ DirectGeneration.error (DirectGeneration.directState c') = None
    /\ DirectGeneration.props_history c' = history_321
    /\ DirectGeneration.recentDirectPrompts c' = [js "a logo"; js "earlier"].
Proof.
  destruct (direct_submission_without_images 2 2 1700000000000
              (fun k => 1700000000000 + Z.of_nat k) direct_form
              direct_component world_empty_batch eq_refl ltac:(discriminate))
    as [_ Hempty].
  destruct (Hempty eq_refl eq_refl) as (c' & Hrun & Hd & He & Hh & Hr).
  exists c'. repeat split; assumption.
Defined.

(** ** Stage 1 when generation fails *)

Lemma generateTemplateAction_failure (fresh : nat) (now : Z)
    (prev : CompositionMode.TemplateFormState)
    (fd : CompositionMode.TemplateFormData) (w : World) :
  truthy (CompositionMode.template_prompt fd) = true ->
  (forall response,
     generateImages w 0%nat (template_request fd) = Fulfilled response ->
     generatedImages response = []) ->
  run (CompositionMode.generateTemplateAction fresh now prev fd) w
  = (Fulfilled
       (CompositionMode.mkFormState None
          (Some (js "Failed to generate template image.")) None),
     [GenerateImages (template_request fd)]).
Proof.
  intros Hp Hfail. unfold run, CompositionMode.generateTemplateAction.
  rewrite Hp. cbn [negb].
  unfold try_catch, bind, GeminiApi.generateTemplateImage.
  fold (template_request fd).
  unfold bind, call_generateImages, dispatch, await, settle, ret, throw.
  cbn [length snd fst app].
  destruct (generateImages w 0%nat (template_request fd))
    as [response|e] eqn:Hresp; [|reflexivity].
  now rewrite (Hfail response eq_refl).
Qed.

(** X17. A stage-1 submission whose model call is rejected, or answered
    without any image, changes nothing in the component but the action
    state: the selected template, the displayed images, the history and
    the recent prompts are those from before, and the action state holds
    the failure message. *)
Theorem stage1_failure_keeps_component (fresh : nat)
    (now id_now ts_now : Z) (fd : CompositionMode.TemplateFormData)
    (c : CompositionMode.Component) (w : World) :
  truthy (CompositionMode.template_prompt fd) = true ->
  (forall response,
     generateImages w 0%nat (template_request fd) = Fulfilled response ->
     generatedImages response = []) ->
  fst (run (CompositionMode.submit_template fresh now id_now ts_now fd c) w)
  = Fulfilled
      (CompositionMode.setTemplateState
         (CompositionMode.mkFormState None
            (Some (js "Failed to generate template image.")) None)
         c).
Proof.
  intros Hp Hfail.
  unfold CompositionMode.submit_template. rewrite run_bind.
  rewrite (generateTemplateAction_failure fresh now _ fd w Hp Hfail).
  unfold ret. cbn [fst]. f_equal.
  unfold CompositionMode.template_settled.
  cbn [CompositionMode.promptUsed CompositionMode.image].
  assert (Hprompt : forall c1,
    CompositionMode.promptUsed (CompositionMode.templateState c1) = None ->
    CompositionMode.effect_templatePromptUsed c1 = c1).
  { intros c1 H1. unfold CompositionMode.effect_templatePromptUsed.
    now rewrite H1. }
  assert (Himage : forall c1,
    CompositionMode.image (CompositionMode.templateState c1) = None ->
    CompositionMode.effect_templateImage id_now ts_now c1 = c1).
  { intros c1 H1. unfold CompositionMode.effect_templateImage.
    now rewrite H1. }
  destruct (CompositionMode.same_ref _ _), (CompositionMode.same_image _ _);
    rewrite ?Himage, ?Hprompt; reflexivity.
Qed.

Lemma stage1_failure_keeps_component_witness :
  fst (run (CompositionMode.submit_template 1 1000 1001 1001
              (template_form "P1") fresh_component) world_one_rejection)
  = Fulfilled
      (CompositionMode.setTemplateState
         (CompositionMode.mkFormState None
            (Some (js "Failed to generate template image.")) None)
         fresh_component).
Proof.
  apply (stage1_failure_keeps_component 1 1000 1001 1001 (template_form "P1")
           fresh_component world_one_rejection eq_refl).
  intros response Hresp. discriminate Hresp.
Defined.

(** ** The composition session *)

Lemma effect_templatePromptUsed_selected (c : CompositionMode.Component) :
  CompositionMode.selectedTemplate (CompositionMode.effect_templatePromptUsed c)
  = CompositionMode.selectedTemplate c.
Proof.
  unfold CompositionMode.effect_templatePromptUsed.
  destruct (CompositionMode.promptUsed _); reflexivity.
Qed.

Lemma template_settled_keeps_selection (id_now ts_now : Z)
    (next : CompositionMode.TemplateFormState)
    (c : CompositionMode.Component) :
  truthy (CompositionMode.selectedTemplate c) = true ->
  truthy (CompositionMode.selectedTemplate
            (CompositionMode.template_settled id_now ts_now next c)) = true.
Proof.
  intros Hsel. unfold CompositionMode.template_settled.
  assert (H2 : truthy (CompositionMode.selectedTemplate
                         (if CompositionMode.same_ref
                               (CompositionMode.promptUsed
                                  (CompositionMode.templateState c))
                               (CompositionMode.promptUsed next)
                          then CompositionMode.setTemplateState next c
                          else CompositionMode.effect_templatePromptUsed
                                 (CompositionMode.setTemplateState next c)))
               = true).
  { destruct (CompositionMode.same_ref _ _);
      rewrite ?effect_templatePromptUsed_selected; exact Hsel. }
  destruct (CompositionMode.same_image _ _); [exact H2|].
  unfold CompositionMode.effect_templateImage.
  destruct (CompositionMode.image _) as [img|]; [|exact H2].
  destruct (truthy_str img) eqn:Himg; [|exact H2]. exact Himg.
Qed.

Lemma final_settled_selection (id_now ts_now : Z)
    (next : CompositionMode.FinalImageFormState)
    (c : CompositionMode.Component) :
  CompositionMode.selectedTemplate
    (CompositionMode.final_settled id_now ts_now next c)
  = CompositionMode.selectedTemplate c
  /\ CompositionMode.displayTemplateImage
       (CompositionMode.final_settled id_now ts_now next c)
     = CompositionMode.displayTemplateImage c.
Proof.
  unfold CompositionMode.final_settled, CompositionMode.effect_finalImage,
    CompositionMode.effect_finalPromptUsed.
  destruct (CompositionMode.same_ref _ _), (CompositionMode.same_image _ _);
    cbn [CompositionMode.finalImageState CompositionMode.setFinalImageState
         CompositionMode.promptUsed CompositionMode.image];
    repeat match goal with
           | |- context [match ?x with _ => _ end] => destruct x
           end; split; reflexivity.
Qed.

Lemma save_into_keeps_selection (state : option CompositionHandlers.Editing)
    (img : jsstring) (c : CompositionMode.Component) :
  truthy_str img = true ->
  truthy (CompositionMode.selectedTemplate c) = true ->
  truthy (CompositionMode.selectedTemplate
            (CompositionHandlers.save_into state img c)) = true.
Proof.
  intros Himg Hsel. unfold CompositionHandlers.save_into.
  destruct state as [[[|] opened]|]; [|exact Hsel|exact Hsel].
  destruct (bool_decide _); [exact Himg|exact Hsel].
Qed.

Lemma step_keeps_selection (s : CompositionHandlers.Session)
    (ev : CompositionHandlers.Event) :
  CompositionHandlers.carries_image ev ->
  truthy (CompositionMode.selectedTemplate (CompositionHandlers.comp s))
  = true ->
  truthy (CompositionMode.selectedTemplate
            (CompositionHandlers.comp (CompositionHandlers.step s ev)))
  = true.
Proof.
  intros Hev Hsel.
  destruct ev as [i t next|i t next| |k|k|k|img|img|img| | | |conv q i t];
    cbn [CompositionHandlers.step CompositionHandlers.with_comp
         CompositionHandlers.comp CompositionHandlers.carries_image] in *.
  - now apply template_settled_keeps_selection.
  - now rewrite (proj1 (final_settled_selection i t next _)).
  - unfold CompositionMode.click_useThisTemplate,
      CompositionMode.useThisTemplate_disabled.
    destruct (truthy (CompositionMode.displayTemplateImage _)) eqn:Hd;
      cbn [negb orb]; [|exact Hsel].
    destruct (bool_decide _); [exact Hsel|exact Hd].
  - unfold CompositionHandlers.clickCrop.
    destruct (CompositionHandlers.open_on _ _); exact Hsel.
  - unfold CompositionHandlers.clickAdvancedEdit.
    destruct (CompositionHandlers.open_on _ _); exact Hsel.
  - unfold CompositionHandlers.clickVariations.
    destruct (CompositionHandlers.open_on _ _); exact Hsel.
  - now apply save_into_keeps_selection.
  - now apply save_into_keeps_selection.
  - now apply save_into_keeps_selection.
  - exact Hsel.
  - exact Hsel.
  - exact Hsel.
  - unfold CompositionHandlers.handleStockImageSelect.
    cbn [CompositionHandlers.comp].
    destruct conv as [base64|e]; [exact Hev|exact Hsel].
Qed.

(** X18. Once a template is selected, stage 2 never loses it: whatever
    sequence of settlements, button clicks, dialog saves and closes, and
    stock-image selections follows, a template stays selected, as long as
    the dialogs and the converter hand over non-empty images.  A failed
    generation or conversion in particular leaves the selection in
    place. *)
Theorem selection_never_lost (s : CompositionHandlers.Session)
    (evs : list CompositionHandlers.Event) :
  Forall CompositionHandlers.carries_image evs ->
  truthy (CompositionMode.selectedTemplate (CompositionHandlers.comp s))
  = true ->
  truthy (CompositionMode.selectedTemplate
            (CompositionHandlers.comp (CompositionHandlers.steps s evs)))
  = true.
Proof.
  intros Hevs. revert s. unfold CompositionHandlers.steps.
  induction Hevs as [|ev evs Hev _ IH]; intros s Hsel; [exact Hsel|].
  cbn [foldl]. apply IH. now apply step_keeps_selection.
Qed.

Lemma selection_never_lost_witness :
  truthy (CompositionMode.selectedTemplate
            (CompositionHandlers.comp
               (CompositionHandlers.steps selected_session eventful_run)))
  = true.
Proof.
  apply (selection_never_lost selected_session eventful_run).
  - unfold eventful_run. repeat apply Forall_cons_2; try apply Forall_nil_2;
      cbn [CompositionHandlers.carries_image]; first [exact I | reflexivity].
  - reflexivity.
Defined.

(** X19. The three dialogs (crop, advanced edit, variations) save in the
    same way.  Opened on the displayed template and saved with an image,
    each replaces the displayed template and closes; the selection follows
    exactly when the template it was opened on was the selected one, and is
    left alone otherwise.  Opened on the final image, a save replaces the
    displayed final image and touches neither the selected nor the
    displayed template. *)
Theorem dialog_save_coupling (c : CompositionMode.Component)
    (img : jsstring) :
  Forall
    (fun '(open, save) =>
       let s := CompositionHandlers.initialSession c in
       (truthy (CompositionMode.displayTemplateImage c) = true ->
        let c' := CompositionHandlers.comp
                    (save img (open CompositionHandlers.KTemplate s)) in
        CompositionMode.displayTemplateImage c' = Some img
        /\ CompositionMode.displayFinalImage c'
           = CompositionMode.displayFinalImage c
        /\ CompositionMode.selectedTemplate c'
           = (if bool_decide (CompositionMode.selectedTemplate c
                              = CompositionMode.displayTemplateImage c)
              then Some img else CompositionMode.selectedTemplate c)
        /\ save img (open CompositionHandlers.KTemplate s)
           = CompositionHandlers.initialSession c')
       /\ (truthy (CompositionMode.displayFinalImage c) = true ->
           let c' := CompositionHandlers.comp
                       (save img (open CompositionHandlers.KFinal s)) in
           CompositionMode.displayFinalImage c' = Some img
           /\ CompositionMode.displayTemplateImage c'
              = CompositionMode.displayTemplateImage c
           /\ CompositionMode.selectedTemplate c'
              = CompositionMode.selectedTemplate c))
    [(CompositionHandlers.clickCrop, CompositionHandlers.handleCropSave);
     (CompositionHandlers.clickAdvancedEdit,
      CompositionHandlers.handleAdvancedEditSave);
     (CompositionHandlers.clickVariations,
      CompositionHandlers.handleVariationSave)].
Proof.
  repeat apply Forall_cons_2; try apply Forall_nil_2; cbv zeta; split.
  all: intros Hshown.
  all: unfold CompositionHandlers.clickCrop,
         CompositionHandlers.clickAdvancedEdit,
         CompositionHandlers.clickVariations, CompositionHandlers.open_on,
         CompositionHandlers.initialSession; cbn [CompositionHandlers.comp].
  all: match type of Hshown with
       | truthy ?d = true =>
           destruct d as [shown|] eqn:Hd; [|discriminate Hshown];
           cbn [truthy] in Hshown; rewrite Hshown
       end.
  all: unfold CompositionHandlers.handleCropSave,
         CompositionHandlers.handleAdvancedEditSave,
         CompositionHandlers.handleVariationSave,
         CompositionHandlers.save_into;
       cbn [CompositionHandlers.comp CompositionHandlers.croppingState
            CompositionHandlers.advancedEditingState
            CompositionHandlers.variationState
            CompositionHandlers.isConvertingStock].
  all: try (rewrite Hd; split; [reflexivity|split; reflexivity]).
  all: destruct (bool_decide (CompositionMode.selectedTemplate c = Some shown));
       repeat split; reflexivity.
Qed.

Lemma dialog_save_coupling_witness :
  truthy (CompositionMode.displayTemplateImage
            (CompositionHandlers.comp selected_session)) = true
  /\ CompositionMode.selectedTemplate
       (CompositionHandlers.comp
          (CompositionHandlers.handleCropSave (js "data:image/png;base64,CROP")
             (CompositionHandlers.clickCrop CompositionHandlers.KTemplate
                selected_session)))
     = Some (js "data:image/png;base64,CROP").
Proof.
  split; [reflexivity|].
  pose proof (dialog_save_coupling (CompositionHandlers.comp selected_session)
                (js "data:image/png;base64,CROP")) as H.
  apply List.Forall_inv in H. destruct H as [H _].
  destruct (H eq_refl) as (_ & _ & Hsel & _). exact Hsel.
Defined.

(** X20. The crop dialog from opening to saving.  [ImageCropper] hands
    over either nothing (the crop failed or produced no image: the
    component is then left as it is) or a non-empty image: the opened
    image itself when no crop area was chosen, the cropped one otherwise.
    So after the dialog the template on display is still non-empty, and a
    selection that pointed at the displayed template still does. *)
Theorem crop_dialog_flow {Area : Type} (c : CompositionMode.Component)
    (shown : jsstring) (area : option Area)
    (cropped : outcome (option jsstring)) :
  CompositionMode.displayTemplateImage c = Some shown ->
  truthy_str shown = true ->
  let opened := CompositionHandlers.clickCrop CompositionHandlers.KTemplate
                  (CompositionHandlers.initialSession c) in
  CompositionHandlers.croppingState opened
  = Some (CompositionHandlers.mkEditing CompositionHandlers.KTemplate shown)
  /\ match ImageCropper.handleSaveCrop shown area cropped with
     | None =>
         area <> None
         /\ forall croppedImage, cropped = Fulfilled (Some croppedImage) ->
                                 croppedImage = []
     | Some img =>
         truthy_str img = true
         /\ (area = None -> img = shown)
         /\ (area <> None -> cropped = Fulfilled (Some img))
         /\ truthy (CompositionMode.displayTemplateImage
                      (CompositionHandlers.comp
                         (CompositionHandlers.handleCropSave img opened)))
            = true
         /\ (CompositionMode.selectedTemplate c = Some shown ->
             CompositionMode.selectedTemplate
               (CompositionHandlers.comp
                  (CompositionHandlers.handleCropSave img opened))
             = CompositionMode.displayTemplateImage
                 (CompositionHandlers.comp
                    (CompositionHandlers.handleCropSave img opened)))
     end.
Proof.
  intros Hd Hshown opened.
  assert (Hopened : opened
                    = CompositionHandlers.mkSession c
                        (Some (CompositionHandlers.mkEditing
                                 CompositionHandlers.KTemplate shown))
                        None None false).
  { unfold opened, CompositionHandlers.clickCrop, CompositionHandlers.open_on,
      CompositionHandlers.initialSession. cbn [CompositionHandlers.comp].
    rewrite Hd, Hshown. reflexivity. }
  rewrite Hopened. split; [reflexivity|].
  assert (Hsave : forall img,
    truthy_str img = true ->
    truthy (CompositionMode.displayTemplateImage
              (CompositionHandlers.comp
                 (CompositionHandlers.handleCropSave img
                    (CompositionHandlers.mkSession c
                       (Some (CompositionHandlers.mkEditing
                                CompositionHandlers.KTemplate shown))
                       None None false)))) = true
    /\ (CompositionMode.selectedTemplate c = Some shown ->
        CompositionMode.selectedTemplate
          (CompositionHandlers.comp
             (CompositionHandlers.handleCropSave img
                (CompositionHandlers.mkSession c
                   (Some (CompositionHandlers.mkEditing
                            CompositionHandlers.KTemplate shown))
                   None None false)))
        = CompositionMode.displayTemplateImage
            (CompositionHandlers.comp
               (CompositionHandlers.handleCropSave img
                  (CompositionHandlers.mkSession c
                     (Some (CompositionHandlers.mkEditing
                              CompositionHandlers.KTemplate shown))
                     None None false))))).
  { intros img Himg.
    unfold CompositionHandlers.handleCropSave, CompositionHandlers.save_into.
    cbn [CompositionHandlers.comp CompositionHandlers.croppingState].
    destruct (bool_decide_reflect
                (CompositionMode.selectedTemplate c = Some shown)) as [He|Hne].
    - split; [exact Himg|reflexivity].
    - split; [exact Himg|]. intros He. now contradiction Hne. }
  unfold ImageCropper.handleSaveCrop. rewrite Hshown. cbn [negb].
  destruct area as [a|].
  - destruct cropped as [[croppedImage|]|e].
    + destruct (truthy_str croppedImage) eqn:Hc.
      * split; [exact Hc|]. split; [discriminate|].
        split; [reflexivity|]. now apply Hsave.
      * split; [discriminate|]. intros ? [= <-].
        now destruct croppedImage.
    + split; [discriminate|]. intros ? [=].
    + split; [discriminate|]. intros ? [=].
  - split; [exact Hshown|]. split; [reflexivity|].
    split; [intros H; now contradiction H|]. now apply Hsave.
Qed.

Lemma crop_dialog_flow_witness :
  CompositionMode.selectedTemplate
    (CompositionHandlers.comp
       (CompositionHandlers.handleCropSave (js "data:image/png;base64,CROP")
          (CompositionHandlers.clickCrop CompositionHandlers.KTemplate
             selected_session)))
  = CompositionMode.displayTemplateImage
      (CompositionHandlers.comp
         (CompositionHandlers.handleCropSave (js "data:image/png;base64,CROP")
            (CompositionHandlers.clickCrop CompositionHandlers.KTemplate
               selected_session))).
Proof.
  destruct (crop_dialog_flow (CompositionHandlers.comp selected_session) png_a
              (Some tt)
              (Fulfilled (Some (js "data:image/png;base64,CROP")))
              eq_refl eq_refl) as [_ H].
  destruct H as (_ & _ & _ & _ & Hsel). exact (Hsel eq_refl).
Defined.

(** ** Prompt assistance *)

Lemma generateNegativePrompt_run (mainPrompt : jsstring) (w : World) :
  run (GeminiApi.generateNegativePrompt mainPrompt) w
  = if truthy_str (trim mainPrompt) then
      (match generateContent w 0%nat (negative_request mainPrompt) with
       | Fulfilled response =>
           match text response with
           | Some raw => Fulfilled (str_slice 0 200 (cleaned raw))
           | None => Rejected TypeError
           end
       | Rejected e => Rejected e
       end,
       [GenerateContent (negative_request mainPrompt)])
    else (Fulfilled [], []).
Proof.
  unfold run, GeminiApi.generateNegativePrompt.
  fold (negative_request mainPrompt).
  destruct (truthy_str (trim mainPrompt)); cbn [negb]; [|reflexivity].
  unfold bind, call_generateContent, dispatch, await, settle, ret, throw.
  cbn [length snd fst app].
  destruct (generateContent w 0%nat (negative_request mainPrompt))
    as [response|e]; [|reflexivity].
  destruct (text response); reflexivity.
Qed.

Lemma enhancePrompt_run (mainPrompt : jsstring) (ctx : option jsstring)
    (mode : GeminiApiMore.EnhanceMode) (w : World) :
  run (GeminiApiMore.enhancePrompt mainPrompt ctx mode) w
  = if truthy_str (trim mainPrompt) then
      (match generateContent w 0%nat
               (GeminiApiMore.enhance_request mainPrompt ctx mode) with
       | Fulfilled response =>
           match text response with
           | Some raw => Fulfilled (strip_quotes (trim raw))
           | None => Rejected TypeError
           end
       | Rejected e => Rejected e
       end,
       [GenerateContent (GeminiApiMore.enhance_request mainPrompt ctx mode)])
    else (Fulfilled [], []).
Proof.
  unfold run, GeminiApiMore.enhancePrompt.
  destruct (truthy_str (trim mainPrompt)); cbn [negb]; [|reflexivity].
  unfold bind, call_generateContent, dispatch, await, settle, ret, throw.
  cbn [length snd fst app].
  destruct (generateContent w 0%nat _) as [response|e]; [|reflexivity].
  destruct (text response); reflexivity.
Qed.

Lemma run_attempt {A} (m : Async A) (w : World) :
  run (attempt m) w = (Fulfilled (fst (run m w)), snd (run m w)).
Proof. unfold run, attempt. now destruct (m w []). Qed.

(** X21. The "auto negative prompt" handler never fails and always
    clears its busy flag; it leaves the template and subject prompts
    alone; the negative prompt after it is either the one from before or
    a text of at most 200 code units.  If the call to the model is rejected,
    or the answer has no text, the negative prompt is kept; but if the
    template prompt consists of white space only, the negative prompt is
    erased without any call. *)
Theorem auto_negative_prompt_handler (ps : CompositionHandlers.Prompts)
    (w : World) :
  exists ps' log,
    run (CompositionHandlers.handleAutoNegativePrompt ps) w
    = (Fulfilled ps', log)
    /\ CompositionHandlers.isGeneratingNegative ps' = false
    /\ CompositionHandlers.templatePrompt ps'
       = CompositionHandlers.templatePrompt ps
    /\ CompositionHandlers.subjectPrompt ps'
       = CompositionHandlers.subjectPrompt ps
    /\ (CompositionHandlers.negativePrompt ps'
        = CompositionHandlers.negativePrompt ps
        \/ (length (CompositionHandlers.negativePrompt ps') <= 200)%nat)
    /\ (Forall (fun c => is_white_space c = true)
          (CompositionHandlers.templatePrompt ps) ->
        CompositionHandlers.negativePrompt ps' = [] /\ log = [])
    /\ (truthy_str (trim (CompositionHandlers.templatePrompt ps)) = true ->
        (forall response,
           generateContent w 0%nat
             (negative_request (CompositionHandlers.templatePrompt ps))
           = Fulfilled response -> text response = None) ->
        CompositionHandlers.negativePrompt ps'
        = CompositionHandlers.negativePrompt ps).
Proof.
  unfold CompositionHandlers.handleAutoNegativePrompt.
  rewrite run_bind, run_attempt, generateNegativePrompt_run.
  destruct (truthy_str (trim (CompositionHandlers.templatePrompt ps)))
    eqn:Htrim.
  - cbn [fst snd]. unfold ret. do 2 eexists. split; [reflexivity|].
    cbn [CompositionHandlers.isGeneratingNegative
         CompositionHandlers.templatePrompt CompositionHandlers.subjectPrompt
         CompositionHandlers.negativePrompt].
    split; [reflexivity|]. split; [reflexivity|]. split; [reflexivity|].
    split; [|split].
    + destruct (generateContent w 0%nat _) as [response|e]; [|now left].
      destruct (text response) as [raw|]; [|now left].
      right. apply str_slice_200.
    + intros Hws. rewrite (trim_white _ Hws) in Htrim. discriminate Htrim.
    + intros _ Hnone.
      destruct (generateContent w 0%nat _) as [response|e]; [|reflexivity].
      now rewrite (Hnone response eq_refl).
  - cbn [fst snd]. unfold ret. do 2 eexists. split; [reflexivity|].
    cbn [CompositionHandlers.isGeneratingNegative
         CompositionHandlers.templatePrompt CompositionHandlers.subjectPrompt
         CompositionHandlers.negativePrompt].
    split; [reflexivity|]. split; [reflexivity|]. split; [reflexivity|].
    split; [right; cbn; lia|]. split; [intros _; split; reflexivity|].
    discriminate.
Qed.

(** X22. The two "enhance" handlers of the composition mode never fail
    and clear their busy flag; each changes at most its own prompt; a
    rejected call, or an answer without text, leaves the prompt as typed;
    a prompt of white space only is replaced by the empty string without
    any call; and the subject handler sends the template prompt along as
    context. *)
Theorem enhance_handlers (ps : CompositionHandlers.Prompts) (w : World) :
  (exists ps' log,
     run (CompositionHandlers.handleEnhanceTemplatePrompt ps) w
     = (Fulfilled ps', log)
     /\ CompositionHandlers.isEnhancingTemplate ps' = false
     /\ CompositionHandlers.subjectPrompt ps'
        = CompositionHandlers.subjectPrompt ps
     /\ CompositionHandlers.negativePrompt ps'
        = CompositionHandlers.negativePrompt ps
     /\ (Forall (fun c => is_white_space c = true)
           (CompositionHandlers.templatePrompt ps) ->
         CompositionHandlers.templatePrompt ps' = [] /\ log = [])
     /\ (truthy_str (trim (CompositionHandlers.templatePrompt ps)) = true ->
         log = [GenerateContent
                  (GeminiApiMore.enhance_request
                     (CompositionHandlers.templatePrompt ps) None
                     GeminiApiMore.EnhanceTemplate)]
         /\ ((forall response,
                generateContent w 0%nat
                  (GeminiApiMore.enhance_request
                     (CompositionHandlers.templatePrompt ps) None
                     GeminiApiMore.EnhanceTemplate)
                = Fulfilled response -> text response = None) ->
             CompositionHandlers.templatePrompt ps'
             = CompositionHandlers.templatePrompt ps)))
  /\ (exists ps' log,
        run (CompositionHandlers.handleEnhanceSubjectPrompt ps) w
        = (Fulfilled ps', log)
        /\ CompositionHandlers.isEnhancingSubject ps' = false
        /\ CompositionHandlers.templatePrompt ps'
           = CompositionHandlers.templatePrompt ps
        /\ CompositionHandlers.negativePrompt ps'
           = CompositionHandlers.negativePrompt ps
        /\ (Forall (fun c => is_white_space c = true)
              (CompositionHandlers.subjectPrompt ps) ->
            CompositionHandlers.subjectPrompt ps' = [] /\ log = [])
        /\ (truthy_str (trim (CompositionHandlers.subjectPrompt ps)) = true ->
            log = [GenerateContent
                     (GeminiApiMore.enhance_request
                        (CompositionHandlers.subjectPrompt ps)
                        (Some (CompositionHandlers.templatePrompt ps))
                        GeminiApiMore.EnhanceSubject)]
            /\ ((forall response,
                   generateContent w 0%nat
                     (GeminiApiMore.enhance_request
                        (CompositionHandlers.subjectPrompt ps)
                        (Some (CompositionHandlers.templatePrompt ps))
                        GeminiApiMore.EnhanceSubject)
                   = Fulfilled response -> text response = None) ->
                CompositionHandlers.subjectPrompt ps'
                = CompositionHandlers.subjectPrompt ps))).
Proof.
  split.
  - unfold CompositionHandlers.handleEnhanceTemplatePrompt.
    rewrite run_bind, run_attempt, enhancePrompt_run.
    destruct (truthy_str (trim (CompositionHandlers.templatePrompt ps)))
      eqn:Htrim; cbn [fst snd]; unfold ret; do 2 eexists;
      (split; [reflexivity|]);
      cbn [CompositionHandlers.isEnhancingTemplate
           CompositionHandlers.templatePrompt
           CompositionHandlers.subjectPrompt
           CompositionHandlers.negativePrompt];
      (split; [reflexivity|]); (split; [reflexivity|]);
      (split; [reflexivity|]); split.
    + intros Hws. rewrite (trim_white _ Hws) in Htrim. discriminate Htrim.
    + intros _. split; [reflexivity|]. intros Hnone.
      destruct (generateContent w 0%nat _) as [response|e]; [|reflexivity].
      now rewrite (Hnone response eq_refl).
    + intros _. split; reflexivity.
    + discriminate.
  - unfold CompositionHandlers.handleEnhanceSubjectPrompt.
    rewrite run_bind, run_attempt, enhancePrompt_run.
    destruct (truthy_str (trim (CompositionHandlers.subjectPrompt ps)))
      eqn:Htrim; cbn [fst snd]; unfold ret; do 2 eexists;
      (split; [reflexivity|]);
      cbn [CompositionHandlers.isEnhancingSubject
           CompositionHandlers.templatePrompt
           CompositionHandlers.subjectPrompt
           CompositionHandlers.negativePrompt];
      (split; [reflexivity|]); (split; [reflexivity|]);
      (split; [reflexivity|]); split.
    + intros Hws. rewrite (trim_white _ Hws) in Htrim. discriminate Htrim.
    + intros _. split; [reflexivity|]. intros Hnone.
      destruct (generateContent w 0%nat _) as [response|e]; [|reflexivity].
      now rewrite (Hnone response eq_refl).
    + intros _. split; reflexivity.
    + discriminate.
Qed.

Lemma auto_negative_prompt_handler_witness :
  Forall (fun c => is_white_space c = true)
    (CompositionHandlers.templatePrompt blank_prompts)
  /\ exists ps',
       run (CompositionHandlers.handleAutoNegativePrompt blank_prompts)
           world_negative
       = (Fulfilled ps', [])
       /\ CompositionHandlers.negativePrompt ps' = [].
Proof.
  assert (Hws : Forall (fun c => is_white_space c = true)
                  (CompositionHandlers.templatePrompt blank_prompts))
    by (repeat apply Forall_cons_2; try apply Forall_nil_2; reflexivity).
  split; [exact Hws|].
  destruct (auto_negative_prompt_handler blank_prompts world_negative)
    as (ps' & log & Hrun & _ & _ & _ & _ & Hblank & _).
  destruct (Hblank Hws) as [Hneg ->].
  exists ps'. split; [exact Hrun|exact Hneg].
Defined.

Lemma enhance_handlers_witness :
  Forall (fun c => is_white_space c = true)
    (CompositionHandlers.subjectPrompt blank_prompts)
  /\ exists ps',
       run (CompositionHandlers.handleEnhanceSubjectPrompt blank_prompts)
           world_negative
       = (Fulfilled ps', [])
       /\ CompositionHandlers.subjectPrompt ps' = [].
Proof.
  assert (Hws : Forall (fun c => is_white_space c = true)
                  (CompositionHandlers.subjectPrompt blank_prompts))
    by (repeat apply Forall_cons_2; try apply Forall_nil_2; reflexivity).
  split; [exact Hws|].
  destruct (enhance_handlers blank_prompts world_negative)
    as [_ (ps' & log & Hrun & _ & _ & _ & Hblank & _)].
  destruct (Hblank Hws) as [Hsub ->].
  exists ps'. split; [exact Hrun|exact Hsub].
Defined.

(** ** Reusing a history entry *)

(** X23. Reusing a history entry never changes the history, always closes
    the drawer and takes over the entry's negative prompt.  For the entries
    of a direct batch this gives back the prompt that was submitted, but
    not the rest of the form: the image effect builds the entries from the
    prompt on record and from the negative prompt and aspect ratio the
    component holds as props in the render that follows the settlement
    ([c] below), whatever the submitted form said.  So reusing such an
    entry, whichever image of the batch is picked, switches to direct mode
    with the submitted prompt and with the negative prompt and aspect ratio
    of that render, and leaves the composition prompts and the composition
    aspect ratio as they are. *)
Theorem reuse_after_direct_submission (fresh_obj fresh_arr : nat) (now : Z)
    (clock : nat -> Z) (fd : DirectGeneration.DirectFormData)
    (c : DirectGeneration.Component) (w : World)
    (response : GenerateImagesResponse) (s : App.AppState) :
  (forall item,
     App.history (App.handleReuseHistoryItem item s) = App.history s
     /\ App.isHistoryOpen (App.handleReuseHistoryItem item s) = false
     /\ App.negativePrompt (App.handleReuseHistoryItem item s)
        = item_negativePrompt item)
  /\ (truthy (DirectGeneration.direct_prompt fd) = true ->
      generateImages w 0%nat (direct_request fd) = Fulfilled response ->
      generatedImages response <> [] ->
      fresh_arr
      <> DirectGeneration.images_ref (DirectGeneration.directState c) ->
      exists c' items,
        fst (run (DirectGeneration.submit_direct fresh_obj fresh_arr now clock
                    fd c) w) = Fulfilled c'
        /\ items
           = DirectGenerationMode.newHistoryItems clock
               (map GeminiApi.data_url (generatedImages response))
               (default [] (DirectGeneration.direct_prompt fd))
               (DirectGeneration.props_negativePrompt c)
               (DirectGeneration.props_aspectRatio c)
        /\ DirectGeneration.props_history c'
           = DirectGenerationMode.historyUpdater items
               (DirectGeneration.props_history c)
        /\ forall item, item ∈ items ->
             App.handleReuseHistoryItem item s
             = App.mkApp ModeDirect (App.templatePrompt s)
                 (App.subjectPrompt s)
                 (default [] (DirectGeneration.direct_prompt fd))
                 (DirectGeneration.props_negativePrompt c)
                 (App.compAspectRatio s)
                 (DirectGeneration.props_aspectRatio c) (App.batchSize s)
                 (App.history s) false).
Proof.
  split.
  - intros item. unfold App.handleReuseHistoryItem. destruct (type item);
      repeat split; reflexivity.
  - intros Hp Hresp Hsome Hfresh.
    apply Nat.eqb_neq in Hfresh. rewrite Nat.eqb_sym in Hfresh.
    do 2 eexists. split; [|split; [reflexivity|split]].
    + unfold DirectGeneration.submit_direct. rewrite run_bind.
      unfold run, DirectGeneration.generateDirectAction.
      rewrite Hp. cbn [negb].
      unfold try_catch, bind, GeminiApiMore.generateDirectImages.
      fold (direct_request fd).
      unfold bind, call_generateImages, dispatch, await, settle, ret.
      cbn [length snd fst app]. rewrite Hresp. reflexivity.
    + unfold DirectGeneration.direct_settled.
      cbn [DirectGeneration.images_ref DirectGeneration.promptUsed].
      rewrite Hfresh.
      assert (Hlen : (0 <? Z.of_nat
                             (length (map GeminiApi.data_url
                                        (generatedImages response)))) = true).
      { destruct (generatedImages response); [now contradiction Hsome|].
        apply Z.ltb_lt. cbn [map length]. lia. }
      destruct (CompositionMode.same_ref _ _);
        unfold DirectGeneration.effect_promptUsed,
          DirectGeneration.effect_images;
        cbn [DirectGeneration.directState DirectGeneration.promptUsed
             DirectGeneration.images DirectGeneration.props_history
             DirectGeneration.props_negativePrompt
             DirectGeneration.props_aspectRatio CompositionMode.pu_prompt];
        rewrite Hlen; reflexivity.
    + intros item Hin. unfold DirectGenerationMode.newHistoryItems in Hin.
      apply list_elem_of_lookup in Hin as [i Hi].
      rewrite list_lookup_imap in Hi.
      destruct (map GeminiApi.data_url (generatedImages response) !! i);
        [|discriminate].
      injection Hi as <-. reflexivity.
Qed.

Lemma reuse_after_direct_submission_witness :
  DirectGeneration.negative_prompt direct_form_portrait = Some (js "text")
  /\ App.handleReuseHistoryItem
       (mkHistoryItem 1700000000000 HDirect (js "data:image/png;base64,T1")
          (js "a logo") [] 1700000000001 AR_1_1)
       (App.mkApp ModeComposition [] [] [] (js "blurry") AR_16_9 AR_4_3 1
          history_321 true)
     = App.mkApp ModeDirect [] [] (js "a logo") [] AR_16_9 AR_1_1 1
         history_321 false.
Proof.
  split; [reflexivity|].
  destruct (reuse_after_direct_submission 2 2 1700000000000
              (fun k => 1700000000000 + Z.of_nat k) direct_form_portrait
              direct_component world_templates
              (mkImagesResponse [Some (js "T1")])
              (App.mkApp ModeComposition [] [] [] (js "blurry") AR_16_9
                 AR_4_3 1 history_321 true)) as [_ H].
  destruct (H eq_refl eq_refl ltac:(discriminate) ltac:(discriminate))
    as (c' & items & _ & -> & _ & Hreuse).
  rewrite Hreuse; [reflexivity|]. apply list_elem_of_here.
Defined.

(** ** Persistence through [useLocalStorage] *)

(** X24. What is set is what a reload brings back: after [setValue] with
    a value whose JSON text parses back to it, re-initialising the hook
    from the storage yields that value, whatever was stored or rendered
    before and whether a plain value or an updater function was given;
    the items under other keys are not touched. *)
Theorem local_storage_round_trip (T : Type) (stringify : T -> jsstring)
    (parse : jsstring -> option T) (key : jsstring)
    (rendered initialValue : T) (value : T + (T -> T))
    (h : UseLocalStorage.Hook T) :
  let v := match value with inl v => v | inr f => f rendered end in
  parse (stringify v) = Some v ->
  stringify v <> [] ->
  let h' := UseLocalStorage.setValue T stringify key rendered value false h in
  UseLocalStorage.storedValue T h' = v
  /\ UseLocalStorage.storedValue T
       (UseLocalStorage.remount T parse false key initialValue h') = v
  /\ forall other, other <> key ->
       UseLocalStorage.items T h' !! other = UseLocalStorage.items T h !! other.
Proof.
  intros v Hparse Hne h'. split; [reflexivity|]. split.
  - unfold UseLocalStorage.remount, UseLocalStorage.initialise, h',
      UseLocalStorage.setValue.
    cbn [UseLocalStorage.storedValue UseLocalStorage.items].
    rewrite lookup_insert_eq. fold v.
    assert (Ht : truthy_str (stringify v) = true)
      by (destruct (stringify v); [now contradiction Hne|reflexivity]).
    rewrite Ht, Hparse. reflexivity.
  - intros other Hother. unfold h', UseLocalStorage.setValue.
    cbn [UseLocalStorage.items]. now rewrite lookup_insert_ne.
Qed.

(** X25. Two ways in which the hook loses an update.  A write that
    throws (quota, private mode) is swallowed after the state was set: the
    value is shown, yet a reload brings back what the storage held before.
    And two functional updates issued by handlers of the same render both
    start from the value of that render, so the first one is overwritten,
    in the state and in the storage. *)
Theorem local_storage_lost_updates (T : Type) (stringify : T -> jsstring)
    (parse : jsstring -> option T) (key : jsstring)
    (rendered initialValue : T) (value : T + (T -> T)) (f g : T -> T)
    (h : UseLocalStorage.Hook T) :
  (let h' := UseLocalStorage.setValue T stringify key rendered value true h in
   UseLocalStorage.storedValue T h'
   = match value with inl v => v | inr u => u rendered end
   /\ UseLocalStorage.remount T parse false key initialValue h'
      = UseLocalStorage.remount T parse false key initialValue h)
  /\ UseLocalStorage.setValue T stringify key rendered (inr g) false
       (UseLocalStorage.setValue T stringify key rendered (inr f) false h)
     = UseLocalStorage.setValue T stringify key rendered (inr g) false h.
Proof.
  split; [split; reflexivity|].
  unfold UseLocalStorage.setValue. cbn [UseLocalStorage.items].
  now rewrite insert_insert_eq.
Qed.

Lemma local_storage_round_trip_witness :
  UseLocalStorage.storedValue jsstring
    (UseLocalStorage.remount jsstring text_of_json false (js "directPrompt") []
       (UseLocalStorage.setValue jsstring json_of_text (js "directPrompt") []
          (inl (js "a logo")) false (UseLocalStorage.mkHook jsstring [] ∅)))
  = js "a logo".
Proof.
  pose proof (local_storage_round_trip jsstring json_of_text text_of_json
                (js "directPrompt") [] [] (inl (js "a logo"))
                (UseLocalStorage.mkHook jsstring [] ∅) eq_refl
                ltac:(discriminate)) as (_ & H & _).
  exact H.
Defined.

(** ** The stock-image search action *)

(** X26. The search action always settles to a state; an empty query
    calls no provider, any other query calls the three of them once each;
    what is shown are, up to the order the shuffle leaves them in, the
    images of the union of what the fulfilled providers returned, and no
    other element: a failed provider leaves nothing in the list; the only
    error the action can report is "No results found for your search.",
    reported exactly when that union is empty, also when every provider
    failed: the "Failed to search for images" message is never shown. *)
Theorem search_action_total
    (shuffle : list StockApi.Element -> list StockApi.Element)
    (eng : Engine) (prev : StockImageSearcher.SearchFormState)
    (fd : StockImageSearcher.SearchFormData) (w : World) :
  (forall l, shuffle l ≡ₚ l) ->
  let params := mkSearch (default [] (StockImageSearcher.search_query fd))
                  (StockImageSearcher.form_orientation fd)
                  (StockImageSearcher.form_color fd) in
  let union := fulfilled_union
                 [searchProvider w 0%nat Pexels params;
                  searchProvider w 1%nat Unsplash params;
                  searchProvider w 2%nat Pixabay params] in
  exists st,
    run (StockImageSearcher.searchAction shuffle eng prev fd) w
    = (Fulfilled st,
       if truthy (StockImageSearcher.search_query fd)
       then [SearchProvider Pexels params; SearchProvider Unsplash params;
             SearchProvider Pixabay params]
       else [])
    /\ (truthy (StockImageSearcher.search_query fd) = false ->
        st = StockImageSearcher.mkSearchState [] None [])
    /\ (truthy (StockImageSearcher.search_query fd) = true ->
        StockImageSearcher.images st ≡ₚ StockApi.Image <$> union
        /\ StockImageSearcher.error st
           = (if bool_decide (union = [])
              then Some (js "No results found for your search.") else None)).
Proof.
  intros Hperm params union.
  unfold StockImageSearcher.searchAction.
  destruct (truthy (StockImageSearcher.search_query fd)) eqn:Hq; cbn [negb].
  2:{ eexists. split; [reflexivity|]. split; [reflexivity|discriminate]. }
  rewrite run_try_catch, run_bind. unfold run at 1.
  fold params. rewrite searchAllStockSites_run. cbn [length app].
  fold union. rewrite length_fmap.
  destruct union as [|img rest] eqn:Hu.
  - cbn [length Z.of_nat Z.eqb]. unfold ret.
    eexists. split; [reflexivity|]. split; [discriminate|].
    intros _. split; reflexivity.
  - change (Z.of_nat (length (img :: rest)) =? 0) with false. cbn iota.
    unfold ret. eexists. split; [reflexivity|]. split; [discriminate|].
    intros _. cbn [StockImageSearcher.images StockImageSearcher.error].
    split; [apply Hperm|reflexivity].
Qed.

Lemma search_action_total_witness :
  exists st,
    fst (run (StockImageSearcher.searchAction (@rev StockApi.Element)
                ascii_engine (StockImageSearcher.mkSearchState [] None [])
                (StockImageSearcher.mkSearchForm (Some (js "cats")) OrientAny
                   (js "any")))
           world_pixabay_only) = Fulfilled st
    /\ StockImageSearcher.error st = None
    /\ StockImageSearcher.images st
       ≡ₚ [StockApi.Image (stock_image "pixabay-1" Pixabay);
           StockApi.Image (stock_image "pixabay-2" Pixabay)].
Proof.
  destruct (search_action_total (@rev StockApi.Element) ascii_engine
              (StockImageSearcher.mkSearchState [] None [])
              (StockImageSearcher.mkSearchForm (Some (js "cats")) OrientAny
                 (js "any"))
              world_pixabay_only)
    as (st & Hrun & _ & Hgo).
  { intros l. rewrite rev_alt. apply reverse_Permutation. }
  exists st. rewrite Hrun. split; [reflexivity|].
  destruct (Hgo eq_refl) as [Himgs Herr].
  split; [rewrite Herr; reflexivity | exact Himgs].
Defined.

(** ** More of the canvas *)

Lemma source_over_on_transparent (s : rgba) :
  0 < alpha s -> source_over s transparent = s.
Proof.
  intros Ha. unfold source_over. cbn [alpha red green blue transparent].
  replace (alpha s * 255 + 0 * (255 - alpha s)) with (alpha s * 255) by lia.
  assert (Hch : forall cs,
            round_div (cs * alpha s * 255 + 0 * 0 * (255 - alpha s))
              (alpha s * 255) = cs).
  { intros cs.
    replace (cs * alpha s * 255 + 0 * 0 * (255 - alpha s))
      with (cs * (alpha s * 255)) by lia.
    apply round_div_exact. lia. }
  rewrite !Hch. rewrite round_div_exact by lia. now destruct s.
Qed.

(** X27. "Clear Mask" undoes every stroke: whatever was drawn on the
    overlay, after [clearMask] the in-paint submission builds a mask of
    the overlay's size in which every pixel is the "keep" colour. *)
Theorem cleared_mask_keeps_everything (overlay : bitmap) :
  0 < width overlay -> 0 < height overlay ->
  exists cleared m,
    CanvasMore.clearMask (Some overlay) = Some cleared
    /\ AdvancedImageEditor.inpaintMask cleared = Some m
    /\ width m = width overlay /\ height m = height overlay
    /\ forall x y, in_bounds overlay x y = true ->
                   pixel m x y = AdvancedImageEditor.keep_colour.
Proof.
  intros Hw Hh. eexists. 
  destruct (inpaintMask_pixel
              (target (CanvasMore.clearRect 0 0 (width overlay)
                         (height overlay) (getContext overlay))))
    as (m & Hm & Hmw & Hmh & Hpix); [exact Hw|exact Hh|].
  exists m. split; [reflexivity|]. split; [exact Hm|].
  split; [exact Hmw|]. split; [exact Hmh|].
  intros x y Hin.
  assert (Hclear : pixel (target (CanvasMore.clearRect 0 0 (width overlay)
                                    (height overlay) (getContext overlay)))
                     x y = transparent).
  { cbn [CanvasMore.clearRect target getContext pixel].
    rewrite inside_canvas by lia. now rewrite Hin. }
  rewrite Hpix.
  - rewrite Hclear. reflexivity.
  - exact Hin.
  - rewrite Hclear. cbn. lia.
Qed.

Lemma cleared_mask_keeps_everything_witness :
  exists cleared m,
    CanvasMore.clearMask (Some stroke_overlay) = Some cleared
    /\ AdvancedImageEditor.inpaintMask cleared = Some m
    /\ pixel m 1 1 = AdvancedImageEditor.keep_colour.
Proof.
  destruct (cleared_mask_keeps_everything stroke_overlay)
    as (cleared & m & Hc & Hm & _ & _ & Hpix);
    [cbn; lia | cbn; lia |].
  exists cleared, m. split; [exact Hc|]. split; [exact Hm|].
  apply Hpix. reflexivity.
Defined.

Lemma read_back_opaque (p : rgba) :
  alpha p = 255 -> CanvasMore.unpremultiply (CanvasMore.premultiply p) = p.
Proof.
  intros Ha. unfold CanvasMore.unpremultiply, CanvasMore.premultiply.
  cbn [alpha red green blue]. rewrite Ha. change (255 =? 0) with false.
  cbn iota. rewrite !round_div_exact by lia. destruct p as [r g b a].
  cbn in *. now subst a.
Qed.

Lemma read_back_alpha (p : rgba) :
  alpha (CanvasMore.unpremultiply (CanvasMore.premultiply p)) = alpha p.
Proof.
  unfold CanvasMore.unpremultiply, CanvasMore.premultiply.
  cbn [alpha red green blue].
  destruct (Z.eqb_spec (alpha p) 0) as [E|E]; [now rewrite E|reflexivity].
Qed.

Lemma source_over_invisible (s : rgba) :
  alpha s = 0 -> source_over s transparent = transparent.
Proof.
  intros Ha. unfold source_over. cbn [alpha red green blue transparent].
  rewrite Ha. change (0 * 255 + 0 * (255 - 0)) with 0.
  assert (Hz : forall n, round_div n 0 = 0).
  { intros n. unfold round_div. change (2 * 0) with 0. apply Z.div_0_r. }
  rewrite !Hz. reflexivity.
Qed.

(** A pixel drawn at half alpha is requantised by the canvas. *)
Lemma read_back_semi_transparent :
  CanvasMore.unpremultiply (CanvasMore.premultiply (mkRgba 200 10 10 128))
  = mkRgba 199 10 10 128
  /\ CanvasMore.unpremultiply (CanvasMore.premultiply (mkRgba 200 10 10 1))
     = mkRgba 255 0 0 1.
Proof. split; reflexivity. Qed.

(** X28. The image [getCroppedImg] returns has the size of the crop area.
    An opaque pixel of the source comes out unchanged at the same place
    shifted by the crop origin: nothing is resampled or blended.  Every
    pixel keeps its alpha; a fully transparent one loses its colour, and
    where the crop area reaches beyond the source the result is
    transparent.  (The colour of a pixel that is neither opaque nor fully
    transparent goes through the premultiplied storage of the canvas and
    is not claimed to come out unchanged.) *)
Theorem cropped_image_pixels (image : bitmap) (crop : CanvasMore.PixelCrop) :
  0 < width image -> 0 < height image ->
  0 < CanvasMore.crop_width crop -> 0 < CanvasMore.crop_height crop ->
  let result := CanvasMore.getCroppedImg image crop in
  width result = CanvasMore.crop_width crop
  /\ height result = CanvasMore.crop_height crop
  /\ forall x y,
       in_bounds result x y = true ->
       let p := pixel image (x + CanvasMore.crop_x crop)
                  (y + CanvasMore.crop_y crop) in
       (in_bounds image (x + CanvasMore.crop_x crop)
          (y + CanvasMore.crop_y crop) = true ->
        (alpha p = 255 -> pixel result x y = p)
        /\ (0 <= alpha p -> alpha (pixel result x y) = alpha p)
        /\ (alpha p = 0 -> pixel result x y = transparent))
       /\ (in_bounds image (x + CanvasMore.crop_x crop)
             (y + CanvasMore.crop_y crop) = false ->
           pixel result x y = transparent).
Proof.
  intros Hw Hh Hcw Hch result.
  assert (Ew : (width image <=? 0) = false) by (apply Z.leb_gt; lia).
  assert (Eh : (height image <=? 0) = false) by (apply Z.leb_gt; lia).
  assert (Ecw : (CanvasMore.crop_width crop =? 0) = false)
    by (apply Z.eqb_neq; lia).
  assert (Ech : (CanvasMore.crop_height crop =? 0) = false)
    by (apply Z.eqb_neq; lia).
  unfold result, CanvasMore.getCroppedImg, CanvasMore.drawImageRegion.
  rewrite Ew, Eh, Ecw, Ech. cbn [orb].
  cbn [CanvasMore.toDataURL paint target getContext createCanvas width height
       pixel globalCompositeOperation composite].
  split; [reflexivity|]. split; [reflexivity|].
  intros x y Hin.
  assert (Hins : inside 0 0 (CanvasMore.crop_width crop)
                   (CanvasMore.crop_height crop) x y = true).
  { rewrite inside_rect by lia. exact Hin. }
  rewrite Hins, !Z.sub_0_r. cbn [andb].
  split.
  - intros Himg. rewrite Himg. unfold default. cbn [from_option].
    unfold Datatypes.id. split; [|split].
    + intros Ha. rewrite source_over_on_transparent by lia.
      now apply read_back_opaque.
    + intros Ha. rewrite read_back_alpha.
      destruct (Z.eq_dec (alpha (pixel image (x + CanvasMore.crop_x crop)
                                   (y + CanvasMore.crop_y crop))) 0)
        as [E|E].
      * now rewrite (source_over_invisible _ E), E.
      * now rewrite source_over_on_transparent by lia.
    + intros Ha. now rewrite (source_over_invisible _ Ha).
  - intros Himg. rewrite Himg. reflexivity.
Qed.

Lemma cropped_image_pixels_witness :
  pixel (CanvasMore.getCroppedImg red_image (CanvasMore.mkCrop 1 0 1 1)) 0 0
  = mkRgba 200 10 10 255.
Proof.
  destruct (cropped_image_pixels red_image (CanvasMore.mkCrop 1 0 1 1))
    as (_ & _ & Hpix); [cbn; lia | cbn; lia | cbn; lia | cbn; lia |].
  destruct (Hpix 0 0 eq_refl) as [Hin _].
  destruct (Hin eq_refl) as [Hopaque _].
  rewrite Hopaque; reflexivity.
Defined.

(** ** Stage 2 when it settles *)

(** X29. The render after a stage-2 run that succeeded with image [img]
    and a new prompt record.  It never touches the selected template, the
    displayed template or the recent template prompts, and the subject
    prompt always enters the recent subject prompts.  If the image differs
    from the one the action state held before, it is displayed and one
    entry of type "final" with the submitted prompt is put in front of the
    history (cut to 5); if the model returned the very same image again,
    the image effect does not run: no entry is added and the display is
    left as it is. *)
Theorem final_settled_effects (id_now ts_now : Z) (img : jsstring)
    (used : CompositionMode.PromptUsed) (c : CompositionMode.Component) :
  truthy_str img = true ->
  CompositionMode.same_ref
    (CompositionMode.promptUsed (CompositionMode.finalImageState c))
    (Some used) = false ->
  let next := CompositionMode.mkFormState (Some img) None (Some used) in
  let c' := CompositionMode.final_settled id_now ts_now next c in
  CompositionMode.selectedTemplate c' = CompositionMode.selectedTemplate c
  /\ CompositionMode.displayTemplateImage c'
     = CompositionMode.displayTemplateImage c
  /\ CompositionMode.recentTemplatePrompts c'
     = CompositionMode.recentTemplatePrompts c
  /\ CompositionMode.recentSubjectPrompts c'
     = CompositionMode.recentPromptsUpdater (CompositionMode.pu_prompt used)
         (CompositionMode.recentSubjectPrompts c)
  /\ (CompositionMode.image (CompositionMode.finalImageState c) <> Some img ->
      CompositionMode.displayFinalImage c' = Some img
      /\ CompositionMode.props_history c'
         = slice 0 5
             (mkHistoryItem id_now HFinal img (CompositionMode.pu_prompt used)
                (CompositionMode.props_negativePrompt c) ts_now
                (CompositionMode.props_aspectRatio c)
              :: CompositionMode.props_history c))
  /\ (CompositionMode.image (CompositionMode.finalImageState c) = Some img ->
      CompositionMode.displayFinalImage c'
      = CompositionMode.displayFinalImage c
      /\ CompositionMode.props_history c' = CompositionMode.props_history c).
Proof.
  intros Himg Href next c'.
  unfold c', next, CompositionMode.final_settled.
  cbn [CompositionMode.promptUsed CompositionMode.image].
  rewrite Href.
  unfold CompositionMode.same_image, CompositionMode.effect_finalPromptUsed,
    CompositionMode.effect_finalImage.
  cbn [CompositionMode.finalImageState CompositionMode.setFinalImageState
       CompositionMode.promptUsed CompositionMode.image
       CompositionMode.setRecentSubjectPrompts].
  rewrite Himg.
  destruct (bool_decide_reflect
              (CompositionMode.image (CompositionMode.finalImageState c)
               = Some img)) as [Heq|Hne].
  - do 4 (split; [reflexivity|]). split.
    + intros Hdiff. now contradiction Hdiff.
    + intros _. split; reflexivity.
  - do 4 (split; [reflexivity|]). split.
    + intros _. split; reflexivity.
    + intros Hsame. now contradiction Hne.
Qed.

Lemma final_settled_effects_witness :
  CompositionMode.props_history
    (CompositionMode.final_settled 4001 4002 final_success
       (CompositionHandlers.comp selected_session))
  = [mkHistoryItem 4001 HFinal (js "data:image/png;base64,FINAL") (js "a cat")
       [] 4002 AR_16_9].
Proof.
  pose proof (final_settled_effects 4001 4002
                (js "data:image/png;base64,FINAL")
                (CompositionMode.mkPromptUsed 2 (js "a cat") 4000)
                (CompositionHandlers.comp selected_session) eq_refl eq_refl)
    as (_ & _ & _ & _ & Hnew & _).
  destruct Hnew as [_ Hh]; [discriminate|]. exact Hh.
Defined.
